(** * The slide navigation engine of slides/js/slide-engine.js

    A shallow embedding of [class SlideEngine]: the instance fields, the part
    of the document the engine reads and writes, the pending [setTimeout]
    callbacks, and one state transformer per method.

    Numbers.  [currentIndex], [totalSections] and the argument of [goTo] are
    integers ([Z]); [totalSections] is [undefined] ([None]) until the
    document-ready callback has run.  The engine is given twice.  In the
    first, pointer coordinates, the viewport width and the progress percentage
    are exact rationals ([Q]): [width * 0.65] is the exact product with
    65/100.  It carries everything that does not depend on how a number is
    rounded: the index, the lock, the sections, the counter, the listeners and
    the callbacks; the strictness of the two zone comparisons and the bounds
    of the percentage are stated on it as well.  In the second, [Double],
    these numbers are the doubles the browser computes with, and the
    comparisons and the percentage are the IEEE 754 ones; it carries what is
    said about click zones, swipes and the width of the progress fill.  Every
    run of the second is a run of the first on the calls its clicks and swipes
    make ([reachable_shadow]).

    Time.  The clock counts milliseconds; a [Tick] advances it by one and runs
    the callbacks that have become due.  Input events and direct calls may
    come between any two ticks. *)

From Stdlib Require Import ZArith QArith Qabs Bool Ascii String DecimalString Lia.
From Stdlib Require Import PrimFloat.
From Stdlib Require FloatOps SpecFloat.
From Stdlib Require DecimalPos DecimalZ.
From stdpp Require Import base option list.

Local Open Scope Z_scope.

(** ** Data model *)

(** One [.slide-section] element: whether its class list holds ['active'],
    and how many times [animateSection] has restarted the animations of its
    animated children. *)
Record Slide := mkSlide { active : bool; replays : nat }.

(** The two callbacks the engine hands to [setTimeout].  [ShowNext] is the
    outer arrow function of [goTo]; it closes over [nextSection] (which is
    [undefined] when [this.sections] has no such entry) and [index]. *)
Inductive Task :=
| ShowNext (nextSection : option nat) (index : Z)
| Release.

Record Timer := mkTimer { due : Z; task : Task }.

Record State := mkState {
  (* fields of the SlideEngine instance *)
  sections : list nat;            (* handles: positions in [slides] *)
  currentIndex : Z;
  isTransitioning : bool;
  totalSections : option Z;       (* [None] is undefined *)
  (* variables captured by the touch listeners *)
  startX : Q;
  startY : Q;
  (* the document *)
  slides : list Slide;            (* the .slide-section elements, in order *)
  progressFill : option (option Q);  (* .progress-fill, and its style.width in percent *)
  pageCounter : option string;    (* .page-counter, and its innerHTML *)
  fullscreenElement : bool;
  keydownBound : bool;
  clickBound : bool;
  touchBound : bool;
  (* the event loop *)
  domReady : bool;                (* DOMContentLoaded has been dispatched *)
  clock : Z;                      (* milliseconds *)
  timers : list Timer
}.

(** A handler either returns or throws a [TypeError]; in both cases the
    writes it has made so far stay. *)
Inductive Outcome :=
| Returned (s : State)
| Threw (s : State).

Definition state_of (o : Outcome) : State :=
  match o with Returned s | Threw s => s end.

Definition threw (o : Outcome) : bool :=
  match o with Returned _ => false | Threw _ => true end.

(** ** Field updates *)

Definition set_sections (v : list nat) (s : State) : State :=
  mkState v (currentIndex s) (isTransitioning s) (totalSections s) (startX s) (startY s)
    (slides s) (progressFill s) (pageCounter s) (fullscreenElement s)
    (keydownBound s) (clickBound s) (touchBound s) (domReady s) (clock s) (timers s).

Definition set_currentIndex (v : Z) (s : State) : State :=
  mkState (sections s) v (isTransitioning s) (totalSections s) (startX s) (startY s)
    (slides s) (progressFill s) (pageCounter s) (fullscreenElement s)
    (keydownBound s) (clickBound s) (touchBound s) (domReady s) (clock s) (timers s).

Definition set_isTransitioning (v : bool) (s : State) : State :=
  mkState (sections s) (currentIndex s) v (totalSections s) (startX s) (startY s)
    (slides s) (progressFill s) (pageCounter s) (fullscreenElement s)
    (keydownBound s) (clickBound s) (touchBound s) (domReady s) (clock s) (timers s).

Definition set_totalSections (v : option Z) (s : State) : State :=
  mkState (sections s) (currentIndex s) (isTransitioning s) v (startX s) (startY s)
    (slides s) (progressFill s) (pageCounter s) (fullscreenElement s)
    (keydownBound s) (clickBound s) (touchBound s) (domReady s) (clock s) (timers s).

Definition set_start (x y : Q) (s : State) : State :=
  mkState (sections s) (currentIndex s) (isTransitioning s) (totalSections s) x y
    (slides s) (progressFill s) (pageCounter s) (fullscreenElement s)
    (keydownBound s) (clickBound s) (touchBound s) (domReady s) (clock s) (timers s).

Definition set_slides (v : list Slide) (s : State) : State :=
  mkState (sections s) (currentIndex s) (isTransitioning s) (totalSections s) (startX s) (startY s)
    v (progressFill s) (pageCounter s) (fullscreenElement s)
    (keydownBound s) (clickBound s) (touchBound s) (domReady s) (clock s) (timers s).

Definition set_progressFill (v : option (option Q)) (s : State) : State :=
  mkState (sections s) (currentIndex s) (isTransitioning s) (totalSections s) (startX s) (startY s)
    (slides s) v (pageCounter s) (fullscreenElement s)
    (keydownBound s) (clickBound s) (touchBound s) (domReady s) (clock s) (timers s).

Definition set_pageCounter (v : option string) (s : State) : State :=
  mkState (sections s) (currentIndex s) (isTransitioning s) (totalSections s) (startX s) (startY s)
    (slides s) (progressFill s) v (fullscreenElement s)
    (keydownBound s) (clickBound s) (touchBound s) (domReady s) (clock s) (timers s).

Definition set_fullscreenElement (v : bool) (s : State) : State :=
  mkState (sections s) (currentIndex s) (isTransitioning s) (totalSections s) (startX s) (startY s)
    (slides s) (progressFill s) (pageCounter s) v
    (keydownBound s) (clickBound s) (touchBound s) (domReady s) (clock s) (timers s).

Definition set_keydownBound (v : bool) (s : State) : State :=
  mkState (sections s) (currentIndex s) (isTransitioning s) (totalSections s) (startX s) (startY s)
    (slides s) (progressFill s) (pageCounter s) (fullscreenElement s)
    v (clickBound s) (touchBound s) (domReady s) (clock s) (timers s).

Definition set_clickBound (v : bool) (s : State) : State :=
  mkState (sections s) (currentIndex s) (isTransitioning s) (totalSections s) (startX s) (startY s)
    (slides s) (progressFill s) (pageCounter s) (fullscreenElement s)
    (keydownBound s) v (touchBound s) (domReady s) (clock s) (timers s).

Definition set_touchBound (v : bool) (s : State) : State :=
  mkState (sections s) (currentIndex s) (isTransitioning s) (totalSections s) (startX s) (startY s)
    (slides s) (progressFill s) (pageCounter s) (fullscreenElement s)
    (keydownBound s) (clickBound s) v (domReady s) (clock s) (timers s).

Definition set_domReady (v : bool) (s : State) : State :=
  mkState (sections s) (currentIndex s) (isTransitioning s) (totalSections s) (startX s) (startY s)
    (slides s) (progressFill s) (pageCounter s) (fullscreenElement s)
    (keydownBound s) (clickBound s) (touchBound s) v (clock s) (timers s).

Definition set_clock (v : Z) (s : State) : State :=
  mkState (sections s) (currentIndex s) (isTransitioning s) (totalSections s) (startX s) (startY s)
    (slides s) (progressFill s) (pageCounter s) (fullscreenElement s)
    (keydownBound s) (clickBound s) (touchBound s) (domReady s) v (timers s).

Definition set_timers (v : list Timer) (s : State) : State :=
  mkState (sections s) (currentIndex s) (isTransitioning s) (totalSections s) (startX s) (startY s)
    (slides s) (progressFill s) (pageCounter s) (fullscreenElement s)
    (keydownBound s) (clickBound s) (touchBound s) (domReady s) (clock s) v.

(** ** Primitives of the host *)

(** [this.sections[i]]: [undefined] for a negative or too large index. *)
Definition sectionAt (i : Z) (s : State) : option nat :=
  if i <? 0 then None else sections s !! Z.to_nat i.

(** [a >= b] where [b] may be [undefined]: [undefined] converts to NaN, and
    every comparison with NaN is false. *)
Definition geq_num (a : Z) (b : option Z) : bool :=
  match b with Some b => b <=? a | None => false end.

(** [a === z]: [undefined] is not strictly equal to any number. *)
Definition eq_num (a : option Z) (z : Z) : bool :=
  match a with Some a => a =? z | None => false end.

Definition with_active (b : bool) (x : Slide) : Slide := mkSlide b (replays x).

Definition replay (x : Slide) : Slide := mkSlide (active x) (S (replays x)).

(** [el.classList.add('active')] and [el.classList.remove('active')]. *)
Definition classList_add (h : nat) (s : State) : State :=
  set_slides (alter (with_active true) h (slides s)) s.

Definition classList_remove (h : nat) (s : State) : State :=
  set_slides (alter (with_active false) h (slides s)) s.

(** [setTimeout(f, ms)]: [f] becomes due [ms] milliseconds from now. *)
Definition setTimeout (f : Task) (ms : Z) (s : State) : State :=
  set_timers (timers s ++ [mkTimer (clock s + ms) f]) s.

Definition Qgtb (x y : Q) : bool :=
  match (x ?= y)%Q with Gt => true | _ => false end.

Definition Qltb (x y : Q) : bool :=
  match (x ?= y)%Q with Lt => true | _ => false end.

(** Decimal numeral of an integer, as a template literal prints it. *)
Definition show_Z (z : Z) : string := NilZero.string_of_int (Z.to_int z).

Definition show_num (n : option Z) : string :=
  match n with Some z => show_Z z | None => "undefined"%string end.

Definition dquote : string := String (ascii_of_nat 34) EmptyString.

(** ** Methods of SlideEngine *)

(** [animateSection(section)]: every animated child has its animation reset
    and restarted. *)
Definition animateSection (h : nat) (s : State) : State :=
  set_slides (alter replay h (slides s)) s.

(** The width [updateProgress] computes, [((currentIndex + 1) / totalSections) * 100],
    as an exact rational. *)
Definition percent (i : Z) (n : Z) : Q :=
  ((inject_Z (i + 1) / inject_Z n) * inject_Z 100)%Q.

(** [updateProgress()].  A division by [undefined] or by zero gives NaN or
    Infinity; the style declarations ['NaN%'] and ['Infinity%'] are invalid and
    dropped, so the width then stays as it is. *)
Definition updateProgress (s : State) : State :=
  match progressFill s with
  | None => s
  | Some w =>
      match totalSections s with
      | Some n => if n =? 0 then s
                  else set_progressFill (Some (Some (percent (currentIndex s) n))) s
      | None => s
      end
  end.

Definition counterHTML (i : Z) (n : option Z) : string :=
  ("<span class=" ++ dquote ++ "current" ++ dquote ++ ">" ++ show_Z (i + 1)
     ++ "</span> / " ++ show_num n)%string.

Definition updateCounter (s : State) : State :=
  match pageCounter s with
  | None => s
  | Some _ => set_pageCounter (Some (counterHTML (currentIndex s) (totalSections s))) s
  end.

(** The outer [setTimeout] callback of [goTo]. *)
Definition showNext (nextSection : option nat) (index : Z) (s : State) : Outcome :=
  match nextSection with
  | None => Threw s
  | Some h =>
      let s := classList_add h s in
      let s := animateSection h s in
      let s := set_currentIndex index s in
      let s := updateProgress s in
      let s := updateCounter s in
      Returned (setTimeout Release 300 s)
  end.

Definition release (s : State) : Outcome :=
  Returned (set_isTransitioning false s).

Definition goTo (index : Z) (s : State) : Outcome :=
  if (index =? currentIndex s) || (index <? 0) || geq_num index (totalSections s)
     || isTransitioning s
  then Returned s
  else
    let s := set_isTransitioning true s in
    let currentSection := sectionAt (currentIndex s) s in
    let nextSection := sectionAt index s in
    match currentSection with
    | None => Threw s
    | Some cur =>
        let s := classList_remove cur s in
        Returned (setTimeout (ShowNext nextSection index) 200 s)
    end.

Definition next (s : State) : Outcome :=
  if isTransitioning s
     || geq_num (currentIndex s) ((fun n => n - 1) <$> totalSections s)
  then Returned s
  else goTo (currentIndex s + 1) s.

Definition prev (s : State) : Outcome :=
  if isTransitioning s || (currentIndex s <=? 0)
  then Returned s
  else goTo (currentIndex s - 1) s.

Definition toggleFullscreen (granted : bool) (s : State) : State :=
  if negb (fullscreenElement s)
  then set_fullscreenElement granted s      (* a rejected request is swallowed *)
  else set_fullscreenElement false s.

(** [goTo(NaN)], which is what [goTo(this.totalSections - 1)] amounts to
    while [totalSections] is undefined: every comparison of the guard is
    false, so only the lock stops the call, and [this.sections[NaN]] is
    undefined.  The callback throws on [nextSection.classList] before it
    reads [index], whose value here is therefore immaterial. *)
Definition goToNaN (s : State) : Outcome :=
  if isTransitioning s then Returned s
  else
    let s := set_isTransitioning true s in
    match sectionAt (currentIndex s) s with
    | None => Threw s
    | Some cur => Returned (setTimeout (ShowNext None 0) 200 (classList_remove cur s))
    end.

Definition key_in (key : string) (keys : list string) : bool :=
  existsb (String.eqb key) keys.

(** [handleKeydown(e)]; [granted] tells whether the browser honours a
    fullscreen request.  [e.preventDefault()] only marks the event. *)
Definition handleKeydown (key : string) (granted : bool) (s : State) : Outcome :=
  if key_in key ["ArrowRight"; "ArrowDown"; " "; "PageDown"]%string then next s
  else if key_in key ["ArrowLeft"; "ArrowUp"; "PageUp"]%string then prev s
  else if key_in key ["Home"]%string then goTo 0 s
  else if key_in key ["End"]%string then
    match totalSections s with
    | Some n => goTo (n - 1) s
    | None => goToNaN s
    end
  else if key_in key ["f"; "F"]%string then Returned (toggleFullscreen granted s)
  else Returned s.

(** A click: whether [e.target.closest('a, button, input, select, textarea')]
    found an element, [e.clientX], and [window.innerWidth] at that moment. *)
Record MouseEvent := mkClick { onControl : bool; clientX : Q; innerWidth : Q }.

Definition handleClick (e : MouseEvent) (s : State) : Outcome :=
  if onControl e then Returned s
  else
    let x := clientX e in
    let width := innerWidth e in
    if Qgtb x (width * (65 # 100)) then next s
    else if Qltb x (width * (35 # 100)) then prev s
    else Returned s.

(** The two listeners of [setupTouch]. *)
Definition touchstart (x y : Q) (s : State) : Outcome :=
  Returned (set_start x y s).

Definition touchend (endX endY : Q) (s : State) : Outcome :=
  let diffX := (startX s - endX)%Q in
  let diffY := (startY s - endY)%Q in
  if Qgtb (Qabs diffX) (Qabs diffY) && Qgtb (Qabs diffX) 50
  then if Qgtb diffX 0 then next s else prev s
  else Returned s.

Definition setupTouch (s : State) : State :=
  set_touchBound true (set_start 0 0 s).

(** The callback [init] registers for DOMContentLoaded. *)
Definition onDOMContentLoaded (s : State) : Outcome :=
  let s := set_sections (seq 0 (length (slides s))) s in
  let s := set_totalSections (Some (Z.of_nat (length (sections s)))) s in
  if eq_num (totalSections s) 0
  then Returned s
  else
    match sectionAt 0 s with
    | None => Threw s
    | Some first =>
        let s := classList_add first s in
        let s := updateProgress s in
        let s := updateCounter s in
        let s := set_keydownBound true s in
        let s := set_clickBound true s in
        let s := setupTouch s in
        Returned (animateSection first s)
    end.

(** The page as it is loaded: its slide sections and the two optional
    widgets with whatever the markup gives them. *)
Record Page := mkPage {
  page_slides : list Slide;
  page_fill : option (option Q);
  page_counter : option string
}.

(** [new SlideEngine()] on a page that is still loading. *)
Definition construct (p : Page) : State :=
  mkState [] 0 false None 0 0 (page_slides p) (page_fill p) (page_counter p)
    false false false false false 0 [].

(** ** The event loop *)

Inductive Event :=
| DOMContentLoaded
| Keydown (key : string) (granted : bool)
| Click (e : MouseEvent)
| Touchstart (x y : Q)
| Touchend (x y : Q)
| Tick                          (* one millisecond passes *)
| CallNext                      (* slideEngine.next() from a script *)
| CallPrev
| CallGoTo (index : Z).

Definition runTask (t : Task) (s : State) : Outcome :=
  match t with
  | ShowNext nextSection index => showNext nextSection index s
  | Release => release s
  end.

(** Each callback is a job of its own: one that throws does not stop the
    jobs after it. *)
Definition and_then (o : Outcome) (f : State -> Outcome) : Outcome :=
  match o with
  | Returned s => f s
  | Threw s => Threw (state_of (f s))
  end.

Definition is_due (now : Z) (t : Timer) : bool := due t <=? now.

(** One millisecond passes; the callbacks that are now due run in the order
    they were registered. *)
Definition tick (s : State) : Outcome :=
  let s := set_clock (clock s + 1) s in
  let ready := List.filter (is_due (clock s)) (timers s) in
  let waiting := List.filter (fun t => negb (is_due (clock s) t)) (timers s) in
  fold_left (fun o t => and_then o (runTask (task t))) ready
    (Returned (set_timers waiting s)).

Definition step (e : Event) (s : State) : Outcome :=
  match e with
  | DOMContentLoaded =>
      if domReady s then Returned s else onDOMContentLoaded (set_domReady true s)
  | Keydown key granted =>
      if keydownBound s then handleKeydown key granted s else Returned s
  | Click e => if clickBound s then handleClick e s else Returned s
  | Touchstart x y => if touchBound s then touchstart x y s else Returned s
  | Touchend x y => if touchBound s then touchend x y s else Returned s
  | Tick => tick s
  | CallNext => next s
  | CallPrev => prev s
  | CallGoTo index => goTo index s
  end.

Fixpoint run (evs : list Event) (s : State) : State :=
  match evs with
  | [] => s
  | e :: evs => run evs (state_of (step e s))
  end.

(** Did some handler throw along the way? *)
Fixpoint faulty (evs : list Event) (s : State) : bool :=
  match evs with
  | [] => false
  | e :: evs => threw (step e s) || faulty evs (state_of (step e s))
  end.

Definition reachable (p : Page) (s : State) : Prop :=
  exists evs, s = run evs (construct p).

(** [ms] milliseconds pass without any input. *)
Definition elapse (ms : nat) (s : State) : State := run (repeat Tick ms) s.

(** ** The export script, slides/export-pptx.js *)

(** A browser tab of the export: the page with its engine, and the sections
    whose animated children carry the end styles the export forces on them
    ([animation: none], [opacity: 1], [transform: translateY(0)]), in the order
    they were forced. *)
Record Tab := mkTab { tab_state : State; forced : list nat }.

(** How a [page.evaluate] call ends: its promise resolves, or rejects because
    the function threw in the page; what it wrote until then stays. *)
Inductive Evaluated :=
| Resolved (t : Tab)
| Rejected (t : Tab).

(** The function [captureSlide] evaluates in the page for section [idx]. *)
Definition exportActivate (idx : nat) (t : Tab) : Evaluated :=
  let s := tab_state t in
  let total := Z.of_nat (length (slides s)) in
  let s := set_slides (map (with_active false) (slides s)) s in
  match slides s !! idx with
  | None => Rejected (mkTab s (forced t))
  | Some _ =>
      let s := classList_add idx s in
      let s := match progressFill s with
               | None => s
               | Some _ =>
                   set_progressFill (Some (Some (percent (Z.of_nat idx) total))) s
               end in
      let s := match pageCounter s with
               | None => s
               | Some _ =>
                   set_pageCounter (Some (counterHTML (Z.of_nat idx) (Some total))) s
               end in
      Resolved (mkTab s (forced t ++ [idx]))
  end.

(** [String.prototype.padStart(2, '0')]. *)
Definition padStart2 (s : string) : string :=
  match String.length s with
  | O => "00"
  | S O => String "0" s
  | _ => s
  end%string.

(** The file name of the screenshot of section [i] (counted from 0) of the
    slide file [base], inside the screenshots directory. *)
Definition shotName (base : string) (i : nat) : string :=
  (base ++ "_section" ++ padStart2 (show_Z (Z.of_nat i + 1)) ++ ".png")%string.

(** A screenshot: its file name and the tab as it was when it was taken. *)
Record Shot := mkShot { shot_name : string; shot_view : Tab }.

Inductive Captured :=
| Shots (shots : list Shot) (t : Tab)
| CaptureFailed (t : Tab).

(** The [for] loop of [captureSlide] over the sections still to do. *)
Fixpoint captureSections (base : string) (todo : list nat) (screenshots : list Shot)
    (t : Tab) : Captured :=
  match todo with
  | [] => Shots screenshots t
  | i :: todo =>
      match exportActivate i t with
      | Rejected t => CaptureFailed t
      | Resolved t =>
          let t := mkTab (elapse 300 (tab_state t)) (forced t) in
          captureSections base todo (screenshots ++ [mkShot (shotName base i) t]) t
      end
  end.

(** [captureSlide], from the point where the page has loaded. *)
Definition captureSlide (base : string) (t : Tab) : Captured :=
  let sectionCount := length (slides (tab_state t)) in
  captureSections base (seq 0 sectionCount) [] t.

(** The tab once [page.goto] has loaded the page and the waits for fonts and
    animations are over. *)
Definition openPage (p : Page) : Tab :=
  mkTab (elapse 800 (run [DOMContentLoaded] (construct p))) [].

(** The number a screenshot name carries, read back. *)
Definition read_number (s : string) : option Z :=
  Z.of_int <$> NilZero.int_of_string s.

(** ** The engine in binary64

    The same class once more, with every number that is not an integer index
    held as the double the browser holds: pointer and touch coordinates, the
    viewport width, and the width of the progress fill.  [width * 0.65],
    [startX - endX] and [((currentIndex + 1) / totalSections) * 100] are the
    IEEE 754 operations, rounded to nearest; comparisons are the IEEE ones,
    false on NaN.  Everything else is as above. *)

Module Double.

Record State := mkState {
  (* fields of the SlideEngine instance *)
  sections : list nat;            (* handles: positions in [slides] *)
  currentIndex : Z;
  isTransitioning : bool;
  totalSections : option Z;       (* [None] is undefined *)
  (* variables captured by the touch listeners *)
  startX : float;
  startY : float;
  (* the document *)
  slides : list Slide;            (* the .slide-section elements, in order *)
  progressFill : option (option float);  (* .progress-fill, and its style.width in percent *)
  pageCounter : option string;    (* .page-counter, and its innerHTML *)
  fullscreenElement : bool;
  keydownBound : bool;
  clickBound : bool;
  touchBound : bool;
  (* the event loop *)
  domReady : bool;                (* DOMContentLoaded has been dispatched *)
  clock : Z;                      (* milliseconds *)
  timers : list Timer
}.

(** A handler either returns or throws a [TypeError]; in both cases the
    writes it has made so far stay. *)
Inductive Outcome :=
| Returned (s : State)
| Threw (s : State).

Definition state_of (o : Outcome) : State :=
  match o with Returned s | Threw s => s end.

Definition threw (o : Outcome) : bool :=
  match o with Returned _ => false | Threw _ => true end.

Definition set_sections (v : list nat) (s : State) : State :=
  mkState v (currentIndex s) (isTransitioning s) (totalSections s) (startX s) (startY s)
    (slides s) (progressFill s) (pageCounter s) (fullscreenElement s)
    (keydownBound s) (clickBound s) (touchBound s) (domReady s) (clock s) (timers s).

Definition set_currentIndex (v : Z) (s : State) : State :=
  mkState (sections s) v (isTransitioning s) (totalSections s) (startX s) (startY s)
    (slides s) (progressFill s) (pageCounter s) (fullscreenElement s)
    (keydownBound s) (clickBound s) (touchBound s) (domReady s) (clock s) (timers s).

Definition set_isTransitioning (v : bool) (s : State) : State :=
  mkState (sections s) (currentIndex s) v (totalSections s) (startX s) (startY s)
    (slides s) (progressFill s) (pageCounter s) (fullscreenElement s)
    (keydownBound s) (clickBound s) (touchBound s) (domReady s) (clock s) (timers s).

Definition set_totalSections (v : option Z) (s : State) : State :=
  mkState (sections s) (currentIndex s) (isTransitioning s) v (startX s) (startY s)
    (slides s) (progressFill s) (pageCounter s) (fullscreenElement s)
    (keydownBound s) (clickBound s) (touchBound s) (domReady s) (clock s) (timers s).

Definition set_start (x y : float) (s : State) : State :=
  mkState (sections s) (currentIndex s) (isTransitioning s) (totalSections s) x y
    (slides s) (progressFill s) (pageCounter s) (fullscreenElement s)
    (keydownBound s) (clickBound s) (touchBound s) (domReady s) (clock s) (timers s).

Definition set_slides (v : list Slide) (s : State) : State :=
  mkState (sections s) (currentIndex s) (isTransitioning s) (totalSections s) (startX s) (startY s)
    v (progressFill s) (pageCounter s) (fullscreenElement s)
    (keydownBound s) (clickBound s) (touchBound s) (domReady s) (clock s) (timers s).

Definition set_progressFill (v : option (option float)) (s : State) : State :=
  mkState (sections s) (currentIndex s) (isTransitioning s) (totalSections s) (startX s) (startY s)
    (slides s) v (pageCounter s) (fullscreenElement s)
    (keydownBound s) (clickBound s) (touchBound s) (domReady s) (clock s) (timers s).

Definition set_pageCounter (v : option string) (s : State) : State :=
  mkState (sections s) (currentIndex s) (isTransitioning s) (totalSections s) (startX s) (startY s)
    (slides s) (progressFill s) v (fullscreenElement s)
    (keydownBound s) (clickBound s) (touchBound s) (domReady s) (clock s) (timers s).

Definition set_fullscreenElement (v : bool) (s : State) : State :=
  mkState (sections s) (currentIndex s) (isTransitioning s) (totalSections s) (startX s) (startY s)
    (slides s) (progressFill s) (pageCounter s) v
    (keydownBound s) (clickBound s) (touchBound s) (domReady s) (clock s) (timers s).

Definition set_keydownBound (v : bool) (s : State) : State :=
  mkState (sections s) (currentIndex s) (isTransitioning s) (totalSections s) (startX s) (startY s)
    (slides s) (progressFill s) (pageCounter s) (fullscreenElement s)
    v (clickBound s) (touchBound s) (domReady s) (clock s) (timers s).

Definition set_clickBound (v : bool) (s : State) : State :=
  mkState (sections s) (currentIndex s) (isTransitioning s) (totalSections s) (startX s) (startY s)
    (slides s) (progressFill s) (pageCounter s) (fullscreenElement s)
    (keydownBound s) v (touchBound s) (domReady s) (clock s) (timers s).

Definition set_touchBound (v : bool) (s : State) : State :=
  mkState (sections s) (currentIndex s) (isTransitioning s) (totalSections s) (startX s) (startY s)
    (slides s) (progressFill s) (pageCounter s) (fullscreenElement s)
    (keydownBound s) (clickBound s) v (domReady s) (clock s) (timers s).

Definition set_domReady (v : bool) (s : State) : State :=
  mkState (sections s) (currentIndex s) (isTransitioning s) (totalSections s) (startX s) (startY s)
    (slides s) (progressFill s) (pageCounter s) (fullscreenElement s)
    (keydownBound s) (clickBound s) (touchBound s) v (clock s) (timers s).

Definition set_clock (v : Z) (s : State) : State :=
  mkState (sections s) (currentIndex s) (isTransitioning s) (totalSections s) (startX s) (startY s)
    (slides s) (progressFill s) (pageCounter s) (fullscreenElement s)
    (keydownBound s) (clickBound s) (touchBound s) (domReady s) v (timers s).

Definition set_timers (v : list Timer) (s : State) : State :=
  mkState (sections s) (currentIndex s) (isTransitioning s) (totalSections s) (startX s) (startY s)
    (slides s) (progressFill s) (pageCounter s) (fullscreenElement s)
    (keydownBound s) (clickBound s) (touchBound s) (domReady s) (clock s) v.

(** [this.sections[i]]: [undefined] for a negative or too large index. *)
Definition sectionAt (i : Z) (s : State) : option nat :=
  if i <? 0 then None else sections s !! Z.to_nat i.

(** [el.classList.add('active')] and [el.classList.remove('active')]. *)
Definition classList_add (h : nat) (s : State) : State :=
  set_slides (alter (with_active true) h (slides s)) s.

Definition classList_remove (h : nat) (s : State) : State :=
  set_slides (alter (with_active false) h (slides s)) s.

(** [setTimeout(f, ms)]: [f] becomes due [ms] milliseconds from now. *)
Definition setTimeout (f : Task) (ms : Z) (s : State) : State :=
  set_timers (timers s ++ [mkTimer (clock s + ms) f]) s.

(** [animateSection(section)]: every animated child has its animation reset
    and restarted. *)
Definition animateSection (h : nat) (s : State) : State :=
  set_slides (alter replay h (slides s)) s.

(** The Number an integer is: exact up to 2^53, the nearest double beyond. *)
Definition number (z : Z) : float :=
  FloatOps.SF2Prim (SpecFloat.binary_normalize FloatOps.prec FloatOps.emax z 0 false).

(** The width [updateProgress] computes,
    [((this.currentIndex + 1) / this.totalSections) * 100]: the sum, the
    quotient and the product are each rounded to a double. *)
Definition percent (i : Z) (n : Z) : float :=
  ((number i + 1) / number n * 100)%float.

(** [updateProgress()].  A division by [undefined] or by zero gives NaN or
    Infinity; the style declarations ['NaN%'] and ['Infinity%'] are invalid and
    dropped, so the width then stays as it is. *)
Definition updateProgress (s : State) : State :=
  match progressFill s with
  | None => s
  | Some w =>
      match totalSections s with
      | Some n => if n =? 0 then s
                  else set_progressFill (Some (Some (percent (currentIndex s) n))) s
      | None => s
      end
  end.

Definition updateCounter (s : State) : State :=
  match pageCounter s with
  | None => s
  | Some _ => set_pageCounter (Some (counterHTML (currentIndex s) (totalSections s))) s
  end.

(** The outer [setTimeout] callback of [goTo]. *)
Definition showNext (nextSection : option nat) (index : Z) (s : State) : Outcome :=
  match nextSection with
  | None => Threw s
  | Some h =>
      let s := classList_add h s in
      let s := animateSection h s in
      let s := set_currentIndex index s in
      let s := updateProgress s in
      let s := updateCounter s in
      Returned (setTimeout Release 300 s)
  end.

Definition release (s : State) : Outcome :=
  Returned (set_isTransitioning false s).

Definition goTo (index : Z) (s : State) : Outcome :=
  if (index =? currentIndex s) || (index <? 0) || geq_num index (totalSections s)
     || isTransitioning s
  then Returned s
  else
    let s := set_isTransitioning true s in
    let currentSection := sectionAt (currentIndex s) s in
    let nextSection := sectionAt index s in
    match currentSection with
    | None => Threw s
    | Some cur =>
        let s := classList_remove cur s in
        Returned (setTimeout (ShowNext nextSection index) 200 s)
    end.

Definition next (s : State) : Outcome :=
  if isTransitioning s
     || geq_num (currentIndex s) ((fun n => n - 1) <$> totalSections s)
  then Returned s
  else goTo (currentIndex s + 1) s.

Definition prev (s : State) : Outcome :=
  if isTransitioning s || (currentIndex s <=? 0)
  then Returned s
  else goTo (currentIndex s - 1) s.

Definition toggleFullscreen (granted : bool) (s : State) : State :=
  if negb (fullscreenElement s)
  then set_fullscreenElement granted s      (* a rejected request is swallowed *)
  else set_fullscreenElement false s.

(** [goTo(NaN)], which is what [goTo(this.totalSections - 1)] amounts to
    while [totalSections] is undefined: every comparison of the guard is
    false, so only the lock stops the call, and [this.sections[NaN]] is
    undefined.  The callback throws on [nextSection.classList] before it
    reads [index], whose value here is therefore immaterial. *)
Definition goToNaN (s : State) : Outcome :=
  if isTransitioning s then Returned s
  else
    let s := set_isTransitioning true s in
    match sectionAt (currentIndex s) s with
    | None => Threw s
    | Some cur => Returned (setTimeout (ShowNext None 0) 200 (classList_remove cur s))
    end.

(** [handleKeydown(e)]; [granted] tells whether the browser honours a
    fullscreen request.  [e.preventDefault()] only marks the event. *)
Definition handleKeydown (key : string) (granted : bool) (s : State) : Outcome :=
  if key_in key ["ArrowRight"; "ArrowDown"; " "; "PageDown"]%string then next s
  else if key_in key ["ArrowLeft"; "ArrowUp"; "PageUp"]%string then prev s
  else if key_in key ["Home"]%string then goTo 0 s
  else if key_in key ["End"]%string then
    match totalSections s with
    | Some n => goTo (n - 1) s
    | None => goToNaN s
    end
  else if key_in key ["f"; "F"]%string then Returned (toggleFullscreen granted s)
  else Returned s.

(** The literals [0.65] and [0.35] of [handleClick]: the doubles nearest to
    65/100 and 35/100, the first a little above, the second a little below. *)
Definition c65 : float := 0x1.4cccccccccccdp-1%float.
Definition c35 : float := 0x1.6666666666666p-2%float.

(** A click: whether [e.target.closest('a, button, input, select, textarea')]
    found an element, [e.clientX], and [window.innerWidth] at that moment. *)
Record MouseEvent := mkClick { onControl : bool; clientX : float; innerWidth : float }.

Definition handleClick (e : MouseEvent) (s : State) : Outcome :=
  if onControl e then Returned s
  else
    let x := clientX e in
    let width := innerWidth e in
    if (width * c65 <? x)%float then next s
    else if (x <? width * c35)%float then prev s
    else Returned s.

(** The two listeners of [setupTouch]. *)
Definition touchstart (x y : float) (s : State) : Outcome :=
  Returned (set_start x y s).

Definition touchend (endX endY : float) (s : State) : Outcome :=
  let diffX := (startX s - endX)%float in
  let diffY := (startY s - endY)%float in
  if (abs diffY <? abs diffX)%float && (50 <? abs diffX)%float
  then if (0 <? diffX)%float then next s else prev s
  else Returned s.

Definition setupTouch (s : State) : State :=
  set_touchBound true (set_start 0%float 0%float s).

(** The callback [init] registers for DOMContentLoaded. *)
Definition onDOMContentLoaded (s : State) : Outcome :=
  let s := set_sections (seq 0 (length (slides s))) s in
  let s := set_totalSections (Some (Z.of_nat (length (sections s)))) s in
  if eq_num (totalSections s) 0
  then Returned s
  else
    match sectionAt 0 s with
    | None => Threw s
    | Some first =>
        let s := classList_add first s in
        let s := updateProgress s in
        let s := updateCounter s in
        let s := set_keydownBound true s in
        let s := set_clickBound true s in
        let s := setupTouch s in
        Returned (animateSection first s)
    end.

(** The page as it is loaded: its slide sections and the two optional
    widgets with whatever the markup gives them. *)
Record Page := mkPage {
  page_slides : list Slide;
  page_fill : option (option float);
  page_counter : option string
}.

(** [new SlideEngine()] on a page that is still loading. *)
Definition construct (p : Page) : State :=
  mkState [] 0 false None 0%float 0%float (page_slides p) (page_fill p) (page_counter p)
    false false false false false 0 [].

Inductive Event :=
| DOMContentLoaded
| Keydown (key : string) (granted : bool)
| Click (e : MouseEvent)
| Touchstart (x y : float)
| Touchend (x y : float)
| Tick                          (* one millisecond passes *)
| CallNext                      (* slideEngine.next() from a script *)
| CallPrev
| CallGoTo (index : Z).

Definition runTask (t : Task) (s : State) : Outcome :=
  match t with
  | ShowNext nextSection index => showNext nextSection index s
  | Release => release s
  end.

(** Each callback is a job of its own: one that throws does not stop the
    jobs after it. *)
Definition and_then (o : Outcome) (f : State -> Outcome) : Outcome :=
  match o with
  | Returned s => f s
  | Threw s => Threw (state_of (f s))
  end.

(** One millisecond passes; the callbacks that are now due run in the order
    they were registered. *)
Definition tick (s : State) : Outcome :=
  let s := set_clock (clock s + 1) s in
  let ready := List.filter (is_due (clock s)) (timers s) in
  let waiting := List.filter (fun t => negb (is_due (clock s) t)) (timers s) in
  fold_left (fun o t => and_then o (runTask (task t))) ready
    (Returned (set_timers waiting s)).

Definition step (e : Event) (s : State) : Outcome :=
  match e with
  | DOMContentLoaded =>
      if domReady s then Returned s else onDOMContentLoaded (set_domReady true s)
  | Keydown key granted =>
      if keydownBound s then handleKeydown key granted s else Returned s
  | Click e => if clickBound s then handleClick e s else Returned s
  | Touchstart x y => if touchBound s then touchstart x y s else Returned s
  | Touchend x y => if touchBound s then touchend x y s else Returned s
  | Tick => tick s
  | CallNext => next s
  | CallPrev => prev s
  | CallGoTo index => goTo index s
  end.

Fixpoint run (evs : list Event) (s : State) : State :=
  match evs with
  | [] => s
  | e :: evs => run evs (state_of (step e s))
  end.

(** Did some handler throw along the way? *)
Fixpoint faulty (evs : list Event) (s : State) : bool :=
  match evs with
  | [] => false
  | e :: evs => threw (step e s) || faulty evs (state_of (step e s))
  end.

Definition reachable (p : Page) (s : State) : Prop :=
  exists evs, s = run evs (construct p).

(** [ms] milliseconds pass without any input. *)
Definition elapse (ms : nat) (s : State) : State := run (repeat Tick ms) s.

End Double.

(** ** The deck of the concrete scenarios: five sections, both widgets *)

Definition deck5 : Page :=
  mkPage (repeat (mkSlide false 0) 5) (Some None) (Some EmptyString).

(** The deck once the document is ready: slide 0 shown, nothing pending. *)
Definition start5 : State := run [DOMContentLoaded] (construct deck5).

(** ** Notions the statements use *)

Definition all_inactive (l : list Slide) : Prop :=
  forall j x, l !! j = Some x -> active x = false.

(** Slide [i] carries the flag and no other slide does. *)
Definition only_active (i : Z) (l : list Slide) : Prop :=
  forall j x, l !! j = Some x -> active x = bool_decide (Z.of_nat j = i).

Definition count_active (l : list Slide) : nat :=
  length (List.filter active l).

(** The markup marks no section after the first one active (the first one
    is activated by the engine anyway). *)
Definition clean (p : Page) : Prop :=
  forall j x, page_slides p !! S j = Some x -> active x = false.

(** The deactivation-to-activation window: the outer callback of some [goTo]
    is still pending. *)
Definition in_delay_window (s : State) : bool :=
  existsb (fun t => match task t with ShowNext _ _ => true | Release => false end)
    (timers s).

(** [textContent] of an element whose [innerHTML] is the given markup: the
    tags are dropped, the text between them stays. *)
Fixpoint text_of (in_tag : bool) (html : string) : string :=
  match html with
  | EmptyString => EmptyString
  | String c rest =>
      if in_tag then text_of (negb (Ascii.eqb c ">")) rest
      else if Ascii.eqb c "<" then text_of true rest
      else String c (text_of false rest)
  end.

Definition textContent (html : string) : string := text_of false html.

(** The counter as the spec words it: ["{i+1} / {n}"]. *)
Definition counter_text (i n : Z) : string :=
  (show_Z (i + 1) ++ " / " ++ show_Z n)%string.

Fixpoint no_angle (t : string) : Prop :=
  match t with
  | EmptyString => True
  | String c rest => Ascii.eqb c "<" = false /\ no_angle rest
  end.

(** A page without any slide section, with both widgets. *)
Definition blank : Page := mkPage [] (Some None) (Some EmptyString).

(** A page of two sections whose markup already marks the second one
    active. *)
Definition premarked : Page :=
  mkPage [mkSlide false 0; mkSlide true 0] (Some None) (Some EmptyString).

(** What the user does, as opposed to what the browser or a script does. *)
Definition is_input (e : Event) : bool :=
  match e with
  | Keydown _ _ | Click _ | Touchstart _ _ | Touchend _ _ => true
  | DOMContentLoaded | Tick | CallNext | CallPrev | CallGoTo _ => false
  end.

(** Two states that differ at most in the touch start point, the fullscreen
    flag and the clock: same index, lock, sections, widgets, listeners and
    pending callbacks. *)
Definition same_navigation (s s' : State) : Prop :=
  sections s' = sections s /\ currentIndex s' = currentIndex s
  /\ isTransitioning s' = isTransitioning s /\ totalSections s' = totalSections s
  /\ slides s' = slides s /\ progressFill s' = progressFill s
  /\ pageCounter s' = pageCounter s /\ timers s' = timers s
  /\ keydownBound s' = keydownBound s /\ clickBound s' = clickBound s
  /\ touchBound s' = touchBound s /\ domReady s' = domReady s.

(** The delay each callback is registered with. *)
Definition delay_of (f : Task) : Z :=
  match f with ShowNext _ _ => 200 | Release => 300 end.

(** Every pending callback is still to come, and no later than its delay. *)
Definition timely (s : State) : Prop :=
  forall t, In t (timers s) ->
    clock s < due t /\ due t <= clock s + delay_of (task t).

(** What stays the same from one iteration of the loop of [captureSlide],
    started on the tab [t0], to the next. *)
Definition capture_inv (t0 t : Tab) : Prop :=
  length (slides (tab_state t)) = length (slides (tab_state t0))
  /\ timers (tab_state t) = []
  /\ currentIndex (tab_state t) = currentIndex (tab_state t0)
  /\ (is_Some (progressFill (tab_state t)) <-> is_Some (progressFill (tab_state t0)))
  /\ (is_Some (pageCounter (tab_state t)) <-> is_Some (pageCounter (tab_state t0))).

(** What the screenshot of section [i] of the slide file [base] shows, when
    the capture started on the tab [t0]: section [i] alone is active, with its
    animations forced to their end; bar and counter, where the page has them,
    are the engine's for index [i]; the engine's index is where it was. *)
Definition shows_section (base : string) (t0 : Tab) (i : nat) (shot : Shot) : Prop :=
  let v := tab_state (shot_view shot) in
  let total := Z.of_nat (length (slides (tab_state t0))) in
  shot_name shot = shotName base i
  /\ only_active (Z.of_nat i) (slides v)
  /\ count_active (slides v) = 1%nat
  /\ In i (forced (shot_view shot))
  /\ progressFill v
     = (fun _ => Some (percent (Z.of_nat i) total)) <$> progressFill (tab_state t0)
  /\ pageCounter v
     = (fun _ => counterHTML (Z.of_nat i) (Some total)) <$> pageCounter (tab_state t0)
  /\ currentIndex v = currentIndex (tab_state t0).

(** What a handler may do on its own, before any callback runs: the index,
    the widgets and the section list stay, no section is shown or replayed;
    a section may only be hidden. *)
Definition hides_only (s s' : State) : Prop :=
  currentIndex s' = currentIndex s /\ progressFill s' = progressFill s
  /\ pageCounter s' = pageCounter s /\ totalSections s' = totalSections s
  /\ sections s' = sections s /\ clock s' = clock s
  /\ length (slides s') = length (slides s)
  /\ forall j x', slides s' !! j = Some x' ->
       exists x, slides s !! j = Some x /\ replays x' = replays x
                 /\ (active x' = true -> active x = true).

(** ** The two engines side by side *)

(** The real number a finite double is. *)
Definition value (f : float) : Q :=
  match FloatOps.Prim2SF f with
  | SpecFloat.S754_finite sign m e =>
      ((if sign then -1 else 1) * inject_Z (Z.pos m) * Qpower 2 e)%Q
  | _ => 0%Q
  end.

Definition present {A : Type} (o : option A) : bool :=
  match o with Some _ => true | None => false end.

(** The page of the binary64 engine as the exact engine sees it: the same
    sections and widgets; the width the markup gives the fill is dropped. *)
Definition exact_page (p : Double.Page) : Page :=
  mkPage (Double.page_slides p) ((fun _ => None) <$> Double.page_fill p)
    (Double.page_counter p).

(** A state of the binary64 engine and a state of the exact engine that agree
    on everything that is not a rounded number: index, lock, sections,
    counter, listeners, clock and pending callbacks, and on whether the page
    has a progress fill. *)
Definition matches (d : Double.State) (s : State) : Prop :=
  Double.sections d = sections s
  /\ Double.currentIndex d = currentIndex s
  /\ Double.isTransitioning d = isTransitioning s
  /\ Double.totalSections d = totalSections s
  /\ Double.slides d = slides s
  /\ present (Double.progressFill d) = present (progressFill s)
  /\ Double.pageCounter d = pageCounter s
  /\ Double.fullscreenElement d = fullscreenElement s
  /\ Double.keydownBound d = keydownBound s
  /\ Double.clickBound d = clickBound s
  /\ Double.touchBound d = touchBound s
  /\ Double.domReady d = domReady s
  /\ Double.clock d = clock s
  /\ Double.timers d = timers s.

Definition matching (o : Double.Outcome) (o' : Outcome) : Prop :=
  Double.threw o = threw o' /\ matches (Double.state_of o) (state_of o').

(** An event the exact engine ignores in every state. *)
Definition unheard : Event := Click (mkClick true 0 0).

(** What an event of the binary64 engine is to the exact engine: a click or
    touch end is the call it makes, or nothing. *)
Definition shadow (e : Double.Event) (d : Double.State) : Event :=
  match e with
  | Double.DOMContentLoaded => DOMContentLoaded
  | Double.Keydown key granted => Keydown key granted
  | Double.Click c =>
      if Double.clickBound d && negb (Double.onControl c)
      then if (Double.innerWidth c * Double.c65 <? Double.clientX c)%float then CallNext
           else if (Double.clientX c <? Double.innerWidth c * Double.c35)%float then CallPrev
           else unheard
      else unheard
  | Double.Touchstart _ _ => Touchstart 0 0
  | Double.Touchend x y =>
      let diffX := (Double.startX d - x)%float in
      let diffY := (Double.startY d - y)%float in
      if Double.touchBound d
         && ((abs diffY <? abs diffX)%float && (50 <? abs diffX)%float)
      then if (0 <? diffX)%float then CallNext else CallPrev
      else unheard
  | Double.Tick => Tick
  | Double.CallNext => CallNext
  | Double.CallPrev => CallPrev
  | Double.CallGoTo index => CallGoTo index
  end.

(** The width of the fill in the binary64 engine: what the markup gives until
    the engine has something to show, and from then on the percentage of the
    current index. *)
Definition fill_shown (p : Double.Page) (d : Double.State) : Prop :=
  let n := Z.of_nat (length (Double.page_slides p)) in
  Double.progressFill d
  = if Double.domReady d && negb (n =? 0)
    then (fun _ => Some (Double.percent (Double.currentIndex d) n)) <$> Double.page_fill p
    else Double.page_fill p.


(** Decks of the binary64 engine: [k] sections, both widgets. *)
Definition deck (k : nat) : Double.Page :=
  Double.mkPage (repeat (mkSlide false 0) k) (Some None) (Some EmptyString).

(** Such a deck once the document is ready, and once it has moved to
    section [i]. *)
Definition shown (k : nat) (i : Z) : Double.State :=
  Double.elapse 500
    (Double.run [Double.DOMContentLoaded; Double.CallGoTo i] (Double.construct (deck k))).

(** ** The invariant of the engine *)

(** No behaviour installed: before the document is ready, and for ever when
    the document has no section. *)
Definition dormant (p : Page) (s : State) : Prop :=
  currentIndex s = 0 /\ timers s = []
  /\ keydownBound s = false /\ clickBound s = false /\ touchBound s = false
  /\ slides s = page_slides p
  /\ progressFill s = page_fill p /\ pageCounter s = page_counter p.

(** Where a transition stands: nothing pending, or the one callback that is
    pending and the flags that go with it. *)
Definition phase_ok (p : Page) (n : nat) (s : State) : Prop :=
  match timers s with
  | [] => clean p -> only_active (currentIndex s) (slides s)
  | [t] =>
      isTransitioning s = true
      /\ match task t with
         | ShowNext h i =>
             (exists k, h = Some k /\ i = Z.of_nat k /\ (k < n)%nat)
             /\ (clean p -> all_inactive (slides s))
         | Release => clean p -> only_active (currentIndex s) (slides s)
         end
  | _ => False
  end.

Definition live (p : Page) (n : nat) (s : State) : Prop :=
  0 <= currentIndex s < Z.of_nat n
  /\ keydownBound s = true /\ clickBound s = true /\ touchBound s = true
  /\ length (slides s) = n
  /\ progressFill s
     = (fun _ => Some (percent (currentIndex s) (Z.of_nat n))) <$> page_fill p
  /\ pageCounter s
     = (fun _ => counterHTML (currentIndex s) (Some (Z.of_nat n))) <$> page_counter p
  /\ phase_ok p n s.

Definition Inv (p : Page) (s : State) : Prop :=
  if domReady s then
    totalSections s = Some (Z.of_nat (length (page_slides p)))
    /\ sections s = seq 0 (length (page_slides p))
    /\ match length (page_slides p) with
       | O => dormant p s
       | S _ => live p (length (page_slides p)) s
       end
  else totalSections s = None /\ sections s = [] /\ dormant p s.

(** ** Evaluating record updates *)

Ltac simpl_state :=
  unfold setTimeout, classList_add, classList_remove, animateSection, setupTouch,
    set_sections, set_currentIndex, set_isTransitioning, set_totalSections,
    set_start, set_slides, set_progressFill, set_pageCounter,
    set_fullscreenElement, set_keydownBound, set_clickBound, set_touchBound,
    set_domReady, set_clock, set_timers;
  cbn [sections currentIndex isTransitioning totalSections startX startY slides
       progressFill pageCounter fullscreenElement keydownBound clickBound
       touchBound domReady clock timers state_of].

Ltac run_state :=
  lazy beta iota zeta delta
    [setTimeout classList_add classList_remove animateSection setupTouch
     updateProgress updateCounter showNext release
     set_sections set_currentIndex set_isTransitioning set_totalSections
     set_start set_slides set_progressFill set_pageCounter
     set_fullscreenElement set_keydownBound set_clickBound set_touchBound
     set_domReady set_clock set_timers
     sections currentIndex isTransitioning totalSections startX startY slides
     progressFill pageCounter fullscreenElement keydownBound clickBound
     touchBound domReady clock timers state_of].

(** ** The guards of [goTo], [next] and [prev] *)

Lemma goTo_guard index s :
  (index =? currentIndex s) || (index <? 0) || geq_num index (totalSections s)
    || isTransitioning s = true ->
  goTo index s = Returned s.
Proof. intros H. unfold goTo. now rewrite H. Qed.

(** [next] is [goTo] of the successor in every state: where [next] returns
    early, [goTo] rejects the successor as well. *)
Lemma next_is_goTo s : next s = goTo (currentIndex s + 1) s.
Proof.
  unfold next.
  destruct (isTransitioning s) eqn:Ht; cbn [orb].
  - symmetry. apply goTo_guard. rewrite Ht. apply orb_true_r.
  - destruct (totalSections s) as [n|] eqn:Hn; cbn [fmap option_fmap option_map geq_num].
    + destruct (n - 1 <=? currentIndex s) eqn:Hc; [|reflexivity].
      symmetry. apply goTo_guard. rewrite Hn. cbn [geq_num].
      apply Z.leb_le in Hc.
      replace (n <=? currentIndex s + 1) with true by (symmetry; apply Z.leb_le; lia).
      now rewrite orb_true_r.
    + reflexivity.
Qed.

Lemma prev_is_goTo s : prev s = goTo (currentIndex s - 1) s.
Proof.
  unfold prev.
  destruct (isTransitioning s) eqn:Ht; cbn [orb].
  - symmetry. apply goTo_guard. rewrite Ht. apply orb_true_r.
  - destruct (currentIndex s <=? 0) eqn:Hc; [|reflexivity].
    symmetry. apply goTo_guard. apply Z.leb_le in Hc.
    replace (currentIndex s - 1 <? 0) with true by (symmetry; apply Z.ltb_lt; lia).
    now rewrite orb_true_r.
Qed.

Lemma iter_noop (f : State -> Outcome) s (k : nat) :
  f s = Returned s -> Nat.iter k (fun t => state_of (f t)) s = s.
Proof.
  intros H. induction k as [|k IH]; [reflexivity|].
  rewrite Nat.iter_succ, IH, H. reflexivity.
Qed.

(** C3.  In a state with [n] sections, [goTo target] with [target] outside
    [0..n-1], or equal to [currentIndex], or while a transition is in flight,
    returns without throwing and leaves every component of the state as it
    was: index, lock, the active flag and the replay count of every section,
    both widgets, and the pending callbacks. *)
Theorem goTo_rejected_is_silent_noop (s : State) (n target : Z) :
  totalSections s = Some n ->
  ~ (0 <= target < n) \/ target = currentIndex s \/ isTransitioning s = true ->
  goTo target s = Returned s
  /\ step (CallGoTo target) s = Returned s
  /\ forall s', s' = state_of (goTo target s) ->
       currentIndex s' = currentIndex s
       /\ isTransitioning s' = isTransitioning s
       /\ slides s' = slides s
       /\ progressFill s' = progressFill s
       /\ pageCounter s' = pageCounter s
       /\ timers s' = timers s.
Proof.
  intros Hn Hcase.
  assert (Hg : goTo target s = Returned s).
  { apply goTo_guard. rewrite Hn. cbn [geq_num].
    destruct Hcase as [Hr | [He | Ht]].
    - destruct (target <? 0) eqn:Hlt; [now rewrite orb_true_r|].
      apply Z.ltb_ge in Hlt.
      replace (n <=? target) with true by (symmetry; apply Z.leb_le; lia).
      now rewrite !orb_true_r.
    - subst target. now rewrite Z.eqb_refl.
    - rewrite Ht. now rewrite !orb_true_r. }
  split; [exact Hg|]. split; [exact Hg|].
  intros s' ->. rewrite Hg. cbn [state_of]. repeat split; reflexivity.
Qed.

Lemma goTo_rejected_is_silent_noop_witness :
  goTo 7 start5 = Returned start5
  /\ goTo (-1) start5 = Returned start5
  /\ goTo 0 start5 = Returned start5.
Proof.
  cbv zeta.
  assert (H5 : totalSections start5 = Some 5)
    by (vm_compute; reflexivity).
  split; [|split].
  - refine (proj1 (goTo_rejected_is_silent_noop _ 5 7 H5 _)). left; lia.
  - refine (proj1 (goTo_rejected_is_silent_noop _ 5 (-1) H5 _)). left; lia.
  - refine (proj1 (goTo_rejected_is_silent_noop _ 5 0 H5 _)).
    right; left. vm_compute; reflexivity.
Defined.

(** C5.  In a state with [n] sections: [next] returns at once when a
    transition is in flight or [currentIndex] is the last index [n - 1], and
    is [goTo (currentIndex + 1)] otherwise; [prev] returns at once when a
    transition is in flight or [currentIndex] is 0, and is
    [goTo (currentIndex - 1)] otherwise; so any number of [prev] calls at index
    0, and of [next] calls at the last index, leave the state as it was. *)
Theorem next_prev_boundaries (s : State) (n : Z) :
  totalSections s = Some n ->
  (isTransitioning s = true \/ currentIndex s = n - 1 -> next s = Returned s)
  /\ (~ (isTransitioning s = true \/ currentIndex s = n - 1) ->
      next s = goTo (currentIndex s + 1) s)
  /\ (isTransitioning s = true \/ currentIndex s = 0 -> prev s = Returned s)
  /\ (~ (isTransitioning s = true \/ currentIndex s = 0) ->
      prev s = goTo (currentIndex s - 1) s)
  /\ (currentIndex s = 0 ->
      forall k, Nat.iter k (fun t => state_of (prev t)) s = s)
  /\ (currentIndex s = n - 1 ->
      forall k, Nat.iter k (fun t => state_of (next t)) s = s).
Proof.
  intros Hn.
  assert (Hnext : isTransitioning s = true \/ currentIndex s = n - 1 ->
                  next s = Returned s).
  { intros H. unfold next. rewrite Hn. cbn [fmap option_fmap option_map geq_num].
    destruct H as [-> | ->]; [reflexivity|].
    rewrite Z.leb_refl. now rewrite orb_true_r. }
  assert (Hprev : isTransitioning s = true \/ currentIndex s = 0 ->
                  prev s = Returned s).
  { intros H. unfold prev.
    destruct H as [-> | ->]; [reflexivity|]. now rewrite orb_true_r. }
  repeat split.
  - exact Hnext.
  - intros _. apply next_is_goTo.
  - exact Hprev.
  - intros _. apply prev_is_goTo.
  - intros H0 k. apply iter_noop. apply Hprev. now right.
  - intros Hl k. apply iter_noop. apply Hnext. now right.
Qed.

Lemma next_prev_boundaries_witness :
  prev start5 = Returned start5 /\ next start5 = goTo 1 start5.
Proof.
  cbv zeta.
  assert (H5 : totalSections start5 = Some 5)
    by (vm_compute; reflexivity).
  pose proof (next_prev_boundaries _ 5 H5) as (_ & Hn & Hp & _).
  split.
  - apply Hp. right. vm_compute; reflexivity.
  - apply Hn. intros [H | H]; vm_compute in H; discriminate H.
Defined.

(** ** Pointer and touch input *)

Lemma Qgtb_true x y : Qgtb x y = true <-> (y < x)%Q.
Proof.
  unfold Qgtb. rewrite (Qgt_alt x y).
  destruct (x ?= y)%Q; split; congruence.
Qed.

Lemma Qltb_true x y : Qltb x y = true <-> (x < y)%Q.
Proof.
  unfold Qltb. rewrite (Qlt_alt x y).
  destruct (x ?= y)%Q; split; congruence.
Qed.

Lemma Qgtb_false x y : Qgtb x y = false <-> (x <= y)%Q.
Proof.
  rewrite <- not_true_iff_false, Qgtb_true. split.
  - apply Qnot_lt_le.
  - apply Qle_not_lt.
Qed.

Lemma Qltb_false x y : Qltb x y = false <-> (y <= x)%Q.
Proof.
  rewrite <- not_true_iff_false, Qltb_true. split.
  - apply Qnot_lt_le.
  - apply Qle_not_lt.
Qed.

Lemma zones_ordered (w : Q) : (0 <= w -> w * (35 # 100) <= w * (65 # 100))%Q.
Proof.
  intros Hw. rewrite !(Qmult_comm w).
  apply Qmult_le_compat_r; [|exact Hw]. discriminate.
Qed.

Lemma handleClick_middle s x w :
  (w * (35 # 100) <= x)%Q -> (x <= w * (65 # 100))%Q ->
  handleClick (mkClick false x w) s = Returned s.
Proof.
  intros Hl Hr. unfold handleClick. cbn [onControl clientX innerWidth].
  apply Qgtb_false in Hr. apply Qltb_false in Hl. now rewrite Hr, Hl.
Qed.

(** C10.  Both comparisons of [handleClick] are strict: on a viewport of
    width [w], a click at exactly 65% of [w], or at exactly 35% of [w], calls
    neither [next] nor [prev]. *)
Theorem click_zone_boundaries_ignored (s : State) (x w : Q) :
  (0 <= w)%Q ->
  (x == w * (65 # 100))%Q \/ (x == w * (35 # 100))%Q ->
  handleClick (mkClick false x w) s = Returned s.
Proof.
  intros Hw [H | H]; apply handleClick_middle; rewrite H;
    try apply Qle_refl; now apply zones_ordered.
Qed.

Lemma click_zone_boundaries_ignored_witness :
  handleClick (mkClick false 650 1000) start5 = Returned start5
  /\ handleClick (mkClick false 350 1000) start5 = Returned start5.
Proof.
  split.
  - apply (click_zone_boundaries_ignored _ 650 1000); [discriminate | left; reflexivity].
  - apply (click_zone_boundaries_ignored _ 350 1000); [discriminate | right; reflexivity].
Defined.

(** What an accepted [goTo] does, in one equation. *)
Lemma goTo_accepted index s :
  (index =? currentIndex s) || (index <? 0) || geq_num index (totalSections s)
    || isTransitioning s = false ->
  goTo index s =
    match sectionAt (currentIndex s) s with
    | None => Threw (set_isTransitioning true s)
    | Some cur =>
        Returned (setTimeout (ShowNext (sectionAt index s) index) 200
                    (classList_remove cur (set_isTransitioning true s)))
    end.
Proof. intros H. unfold goTo. rewrite H. reflexivity. Qed.

Lemma goTo_accepted_locks index s :
  (index =? currentIndex s) || (index <? 0) || geq_num index (totalSections s)
    || isTransitioning s = false ->
  isTransitioning (state_of (goTo index s)) = true.
Proof.
  intros H. rewrite (goTo_accepted _ _ H).
  destruct (sectionAt (currentIndex s) s); reflexivity.
Qed.

(** ** Active flags of the slide list *)

Lemma all_inactive_hide (i : Z) (l : list Slide) :
  0 <= i -> only_active i l ->
  all_inactive (alter (with_active false) (Z.to_nat i) l).
Proof.
  intros Hi H j x Hx. rewrite list_lookup_alter in Hx.
  destruct (decide (Z.to_nat i = j)) as [<- | Hne].
  - destruct (l !! Z.to_nat i); [|discriminate Hx].
    injection Hx as <-. reflexivity.
  - rewrite (H j x Hx). apply bool_decide_eq_false. lia.
Qed.

Lemma only_active_show (k : nat) (l : list Slide) :
  all_inactive l -> only_active (Z.of_nat k) (alter (with_active true) k l).
Proof.
  intros H j x Hx. rewrite list_lookup_alter in Hx.
  destruct (decide (k = j)) as [<- | Hne].
  - destruct (l !! k); [|discriminate Hx].
    injection Hx as <-. cbn [with_active active].
    symmetry. now apply bool_decide_eq_true.
  - rewrite (H j x Hx). symmetry. apply bool_decide_eq_false. lia.
Qed.

Lemma only_active_first (l : list Slide) :
  (forall j x, l !! S j = Some x -> active x = false) ->
  only_active 0 (alter (with_active true) 0%nat l).
Proof.
  intros H j x Hx. destruct l as [|y l]; [destruct j; discriminate Hx|].
  destruct j as [|j]; cbn in Hx.
  - injection Hx as <-. reflexivity.
  - rewrite (H j x Hx). symmetry. apply bool_decide_eq_false. lia.
Qed.

Lemma only_active_replay (i : Z) (k : nat) (l : list Slide) :
  only_active i l -> only_active i (alter replay k l).
Proof.
  intros H j x Hx. rewrite list_lookup_alter in Hx.
  destruct (decide (k = j)) as [<- | Hne]; [|now apply H].
  destruct (l !! k) as [y|] eqn:Hy; [|discriminate Hx].
  injection Hx as <-. cbn [replay active]. now apply H.
Qed.

Lemma count_active_all_inactive (l : list Slide) :
  all_inactive l -> count_active l = 0%nat.
Proof.
  unfold count_active. induction l as [|x l IH]; intros H; [reflexivity|].
  cbn [List.filter]. rewrite (H 0%nat x eq_refl).
  apply IH. intros j y Hy. exact (H (S j) y Hy).
Qed.

Lemma count_active_only (l : list Slide) (i : Z) :
  only_active i l -> 0 <= i < Z.of_nat (length l) -> count_active l = 1%nat.
Proof.
  unfold count_active. revert i. induction l as [|x l IH]; intros i H Hi.
  - cbn [length] in Hi. lia.
  - cbn [List.filter]. rewrite (H 0%nat x eq_refl).
    destruct (decide (i = 0)) as [-> | Hne].
    + rewrite bool_decide_eq_true_2 by reflexivity. cbn [length]. f_equal.
      apply (count_active_all_inactive l).
      intros j y Hy. rewrite (H (S j) y Hy). apply bool_decide_eq_false. lia.
    + rewrite bool_decide_eq_false_2 by lia.
      apply (IH (i - 1)).
      * intros j y Hy. rewrite (H (S j) y Hy). apply bool_decide_ext. lia.
      * cbn [length] in Hi. lia.
Qed.

(** ** The invariant is kept by every step *)

Lemma Inv_construct p : Inv p (construct p).
Proof. unfold Inv, dormant. cbn. repeat split. Qed.

Lemma sectionAt_seq (i : Z) (n : nat) (s : State) :
  sections s = seq 0 n -> 0 <= i < Z.of_nat n ->
  sectionAt i s = Some (Z.to_nat i).
Proof.
  intros Hs Hi. unfold sectionAt. rewrite Hs.
  replace (i <? 0) with false by (symmetry; apply Z.ltb_ge; lia).
  rewrite lookup_seq_lt by lia. reflexivity.
Qed.

Lemma Inv_goTo p index s : Inv p s -> Inv p (state_of (goTo index s)).
Proof.
  intros HI.
  destruct ((index =? currentIndex s) || (index <? 0)
            || geq_num index (totalSections s) || isTransitioning s) eqn:Hg.
  { now rewrite goTo_guard. }
  rewrite (goTo_accepted _ _ Hg).
  apply orb_false_iff in Hg as [Hg Ht].
  apply orb_false_iff in Hg as [Hg Hge].
  apply orb_false_iff in Hg as [Hne Hlt].
  apply Z.eqb_neq in Hne. apply Z.ltb_ge in Hlt.
  unfold Inv in HI. destruct (domReady s) eqn:Hr.
  - destruct HI as (Htot & Hsec & Hrest).
    rewrite Htot in Hge. cbn [geq_num] in Hge. apply Z.leb_gt in Hge.
    destruct (length (page_slides p)) as [|m] eqn:Hlen; [lia|].
    destruct Hrest as (Hci & Hk & Hc & Htb & Hl & Hpf & Hpc & Hph).
    unfold phase_ok in Hph.
    destruct (timers s) as [|t [|t' ts]] eqn:Htm.
    + rewrite (sectionAt_seq (currentIndex s) (S m)) by assumption.
      unfold sectionAt. unfold Inv. simpl_state. rewrite Hr, Hlen, Htm, Hsec.
      replace (index <? 0) with false by (symmetry; apply Z.ltb_ge; lia).
      rewrite lookup_seq_lt by lia.
      split; [assumption|]. split; [reflexivity|].
      unfold live, phase_ok. simpl_state.
      rewrite length_alter.
      repeat (split; [assumption|]).
      cbn [app task]. split; [reflexivity|]. split.
      * exists (Z.to_nat index). split; [reflexivity|]. split; lia.
      * intros Hcl. apply all_inactive_hide; [lia | now apply Hph].
    + destruct Hph as [Hlock _]. congruence.
    + contradiction.
  - destruct HI as (Htot & Hsec & Hrest).
    unfold sectionAt. rewrite Hsec.
    destruct (currentIndex s <? 0); cbn [lookup list_lookup state_of];
      unfold Inv; simpl_state; rewrite Hr; repeat split; try assumption;
      apply Hrest.
Qed.

Lemma tick_idle s :
  timers s = [] -> tick s = Returned (set_timers [] (set_clock (clock s + 1) s)).
Proof. intros H. unfold tick. simpl_state. rewrite H. reflexivity. Qed.

Lemma tick_single s t :
  timers s = [t] ->
  tick s = if is_due (clock s + 1) t
           then runTask (task t) (set_timers [] (set_clock (clock s + 1) s))
           else Returned (set_timers [t] (set_clock (clock s + 1) s)).
Proof.
  intros H. unfold tick. simpl_state. rewrite H. cbn [List.filter].
  destruct (is_due (clock s + 1) t); reflexivity.
Qed.

(** The state the outer callback of [goTo] leaves, field by field. *)
Lemma showNext_eq (h : nat) (index n : Z) (s : State) :
  totalSections s = Some n -> n <> 0 ->
  showNext (Some h) index s
  = Returned
      (mkState (sections s) index (isTransitioning s) (Some n) (startX s) (startY s)
         (alter replay h (alter (with_active true) h (slides s)))
         ((fun _ => Some (percent index n)) <$> progressFill s)
         ((fun _ => counterHTML index (Some n)) <$> pageCounter s)
         (fullscreenElement s) (keydownBound s) (clickBound s) (touchBound s)
         (domReady s) (clock s) (timers s ++ [mkTimer (clock s + 300) Release])).
Proof.
  destruct s as [sec ci lock tot sx sy sl pf pc fs kb cb tb dr ck tm].
  cbn [totalSections]. intros -> Hn. apply Z.eqb_neq in Hn.
  run_state. rewrite Hn. destruct pf, pc; reflexivity.
Qed.

Lemma Inv_tick p s : Inv p s -> Inv p (state_of (tick s)).
Proof.
  intros HI. unfold Inv in HI.
  assert (Hdormant : dormant p s ->
            tick s = Returned (set_timers [] (set_clock (clock s + 1) s))).
  { intros (_ & Htm & _). now apply tick_idle. }
  destruct (domReady s) eqn:Hr.
  - destruct HI as (Htot & Hsec & Hrest).
    destruct (length (page_slides p)) as [|m] eqn:Hlen.
    + rewrite (Hdormant Hrest). unfold Inv. simpl_state. rewrite Hr, Hlen.
      repeat split; try assumption; apply Hrest.
    + destruct Hrest as (Hci & Hk & Hc & Htb & Hl & Hpf & Hpc & Hph).
      unfold phase_ok in Hph.
      destruct (timers s) as [|t [|t' ts]] eqn:Htm; [| |contradiction].
      * rewrite (tick_idle _ Htm). unfold Inv, live, phase_ok. simpl_state.
        rewrite Hr, Hlen. repeat (split; [assumption|]). exact Hph.
      * rewrite (tick_single _ _ Htm). destruct Hph as [Hlock Hph].
        destruct (is_due (clock s + 1) t).
        2:{ unfold Inv, live, phase_ok. simpl_state. rewrite Hr, Hlen.
            repeat (split; [assumption|]). exact Hph. }
        destruct (task t) as [h i|]; cbn [runTask].
        -- destruct Hph as [(k & -> & -> & Hk') Hoff].
           rewrite (showNext_eq k _ (Z.of_nat (S m))); [|exact Htot|lia].
           unfold Inv, live, phase_ok. simpl_state.
           rewrite Hr, Hlen, !length_alter, Hpf, Hpc.
           split; [reflexivity|]. split; [assumption|]. split; [lia|].
           repeat (split; [assumption|]).
           split; [now destruct (page_fill p)|].
           split; [now destruct (page_counter p)|].
           cbn [app task]. split; [assumption|].
           intros Hcl. apply only_active_replay, only_active_show, Hoff, Hcl.
        -- unfold release. unfold Inv, live, phase_ok. simpl_state.
           rewrite Hr, Hlen. repeat (split; [assumption|]). exact Hph.
  - destruct HI as (Htot & Hsec & Hrest).
    rewrite (Hdormant Hrest). unfold Inv. simpl_state. rewrite Hr.
    repeat split; try assumption; apply Hrest.
Qed.

(** The state the document-ready callback leaves. *)
Lemma onDOMContentLoaded_empty (s : State) :
  slides s = [] ->
  onDOMContentLoaded s = Returned (set_totalSections (Some 0) (set_sections [] s)).
Proof.
  destruct s as [sec ci lock tot sx sy sl pf pc fs kb cb tb dr ck tm].
  cbn [slides]. intros ->. reflexivity.
Qed.

Lemma onDOMContentLoaded_eq (s : State) :
  let n := length (slides s) in
  n <> 0%nat ->
  onDOMContentLoaded s
  = Returned
      (mkState (seq 0 n) (currentIndex s) (isTransitioning s) (Some (Z.of_nat n)) 0 0
         (alter replay 0%nat (alter (with_active true) 0%nat (slides s)))
         ((fun _ => Some (percent (currentIndex s) (Z.of_nat n))) <$> progressFill s)
         ((fun _ => counterHTML (currentIndex s) (Some (Z.of_nat n))) <$> pageCounter s)
         (fullscreenElement s) true true true (domReady s) (clock s) (timers s)).
Proof.
  destruct s as [sec ci lock tot sx sy sl pf pc fs kb cb tb dr ck tm].
  cbv zeta. cbn [slides]. intros Hn.
  destruct sl as [|x sl]; [contradiction|].
  unfold onDOMContentLoaded, sectionAt, eq_num. run_state.
  rewrite length_seq.
  replace (Z.of_nat (length (x :: sl)) =? 0) with false
    by (symmetry; apply Z.eqb_neq; cbn [length]; lia).
  cbn [length seq lookup list_lookup Z.ltb Z.compare Z.to_nat].
  destruct pf, pc; reflexivity.
Qed.

Lemma Inv_ready p s :
  Inv p s -> domReady s = false ->
  Inv p (state_of (onDOMContentLoaded (set_domReady true s))).
Proof.
  intros HI Hr. unfold Inv in HI. rewrite Hr in HI.
  destruct HI as (Htot & Hsec & Hci & Htm & Hk & Hc & Htb & Hsl & Hpf & Hpc).
  destruct (length (page_slides p)) as [|m] eqn:Hlen.
  - rewrite onDOMContentLoaded_empty.
    2:{ simpl_state. rewrite Hsl. now apply nil_length_inv. }
    unfold Inv, dormant. simpl_state. rewrite Hlen.
    repeat split; assumption.
  - rewrite onDOMContentLoaded_eq.
    2:{ simpl_state. rewrite Hsl, Hlen. discriminate. }
    unfold Inv, live, phase_ok. simpl_state.
    rewrite Hsl, Hlen, !length_alter, Hlen, Hpf, Hpc, Hci, Htm.
    repeat (split; [reflexivity || lia|]).
    intros Hcl. apply only_active_replay, only_active_first. exact Hcl.
Qed.

Lemma Inv_frame p s s' :
  Inv p s ->
  sections s' = sections s -> currentIndex s' = currentIndex s ->
  isTransitioning s' = isTransitioning s -> totalSections s' = totalSections s ->
  slides s' = slides s -> progressFill s' = progressFill s ->
  pageCounter s' = pageCounter s -> keydownBound s' = keydownBound s ->
  clickBound s' = clickBound s -> touchBound s' = touchBound s ->
  domReady s' = domReady s -> timers s' = timers s ->
  Inv p s'.
Proof.
  unfold Inv, live, dormant, phase_ok.
  intros HI -> -> -> -> -> -> -> -> -> -> -> ->. exact HI.
Qed.

Lemma Inv_next p s : Inv p s -> Inv p (state_of (next s)).
Proof. rewrite next_is_goTo. apply Inv_goTo. Qed.

Lemma Inv_prev p s : Inv p s -> Inv p (state_of (prev s)).
Proof. rewrite prev_is_goTo. apply Inv_goTo. Qed.

Lemma Inv_handleKeydown p key granted s :
  Inv p s -> keydownBound s = true ->
  Inv p (state_of (handleKeydown key granted s)).
Proof.
  intros HI Hk. unfold handleKeydown.
  repeat match goal with
         | |- context [if ?c then _ else _] => destruct c
         end; try now (apply Inv_next || apply Inv_prev || apply Inv_goTo).
  - destruct (totalSections s) as [n|] eqn:Hn; [now apply Inv_goTo|].
    exfalso. unfold Inv, dormant in HI.
    destruct (domReady s); [destruct HI as [H _] | destruct HI as (_ & _ & _ & _ & H & _)];
      congruence.
  - cbn [state_of]. unfold toggleFullscreen.
    destruct (negb (fullscreenElement s)); eapply Inv_frame; try exact HI; reflexivity.
  - exact HI.
Qed.

Lemma Inv_handleClick p e s : Inv p s -> Inv p (state_of (handleClick e s)).
Proof.
  intros HI. unfold handleClick.
  repeat match goal with
         | |- context [if ?c then _ else _] => destruct c
         end; try assumption; now (apply Inv_next || apply Inv_prev).
Qed.

Lemma Inv_touchend p x y s : Inv p s -> Inv p (state_of (touchend x y s)).
Proof.
  intros HI. unfold touchend.
  repeat match goal with
         | |- context [if ?c then _ else _] => destruct c
         end; try assumption; now (apply Inv_next || apply Inv_prev).
Qed.

Lemma Inv_step p e s : Inv p s -> Inv p (state_of (step e s)).
Proof.
  intros HI. destruct e; cbn [step].
  - destruct (domReady s) eqn:Hr; [assumption | now apply Inv_ready].
  - destruct (keydownBound s) eqn:Hk; [now apply Inv_handleKeydown | assumption].
  - destruct (clickBound s); [now apply Inv_handleClick | assumption].
  - destruct (touchBound s); [|assumption].
    cbn [touchstart state_of]. eapply Inv_frame; try exact HI; reflexivity.
  - destruct (touchBound s); [now apply Inv_touchend | assumption].
  - now apply Inv_tick.
  - now apply Inv_next.
  - now apply Inv_prev.
  - now apply Inv_goTo.
Qed.

Lemma Inv_run p evs s : Inv p s -> Inv p (run evs s).
Proof.
  revert s. induction evs as [|e evs IH]; intros s HI; [exact HI|].
  cbn [run]. apply IH. now apply Inv_step.
Qed.

Lemma Inv_reachable p s : reachable p s -> Inv p s.
Proof. intros [evs ->]. apply Inv_run, Inv_construct. Qed.

Lemma run_app evs1 evs2 s : run (evs1 ++ evs2) s = run evs2 (run evs1 s).
Proof.
  revert s. induction evs1 as [|e evs1 IH]; intros s; [reflexivity|].
  cbn [app run]. apply IH.
Qed.

Lemma reachable_run p evs s : reachable p s -> reachable p (run evs s).
Proof. intros [evs0 ->]. exists (evs0 ++ evs). now rewrite run_app. Qed.

(** ** The text a piece of markup shows *)

Lemma text_of_plain (t rest : string) :
  no_angle t -> text_of false (t ++ rest) = (t ++ text_of false rest)%string.
Proof.
  induction t as [|c t IH]; intros H; [reflexivity|].
  destruct H as [Hc Ht]. cbn [String.append text_of]. rewrite Hc.
  f_equal. now apply IH.
Qed.

Lemma text_of_plain_id (t : string) : no_angle t -> text_of false t = t.
Proof.
  induction t as [|c t IH]; intros H; [reflexivity|].
  destruct H as [Hc Ht]. cbn [text_of]. rewrite Hc. f_equal. now apply IH.
Qed.

Lemma no_angle_digits (d : Decimal.uint) : no_angle (NilEmpty.string_of_uint d).
Proof. induction d; cbn; auto. Qed.

Lemma no_angle_show_Z (z : Z) : no_angle (show_Z z).
Proof.
  unfold show_Z, NilZero.string_of_int, NilZero.string_of_uint.
  destruct (Z.to_int z) as [d | d]; destruct d;
    cbn [no_angle]; repeat split; try reflexivity; apply no_angle_digits.
Qed.

Lemma textContent_counterHTML (i n : Z) :
  textContent (counterHTML i (Some n)) = counter_text i n.
Proof.
  unfold textContent, counterHTML, counter_text, show_num.
  change (text_of false ("<span class=" ++ dquote ++ "current" ++ dquote ++ ">"
                          ++ show_Z (i + 1) ++ "</span> / " ++ show_Z n)%string)
    with (text_of false (show_Z (i + 1) ++ "</span> / " ++ show_Z n)%string).
  rewrite text_of_plain by apply no_angle_show_Z. f_equal.
  change (text_of false ("</span> / " ++ show_Z n)%string)
    with (text_of false (" / " ++ show_Z n)%string).
  rewrite (text_of_plain " / ") by (cbn; auto).
  f_equal. apply text_of_plain_id, no_angle_show_Z.
Qed.

(** ** Reachable states *)

Lemma live_of_reachable p s :
  reachable p s -> domReady s = true -> page_slides p <> [] ->
  totalSections s = Some (Z.of_nat (length (page_slides p)))
  /\ sections s = seq 0 (length (page_slides p))
  /\ live p (length (page_slides p)) s.
Proof.
  intros Hreach Hr Hne. apply Inv_reachable in Hreach.
  unfold Inv in Hreach. rewrite Hr in Hreach.
  destruct (page_slides p) as [|x l]; [contradiction|]. exact Hreach.
Qed.

Lemma dormant_of_reachable p s :
  reachable p s -> page_slides p = [] ->
  dormant p s /\ (domReady s = true -> totalSections s = Some 0).
Proof.
  intros Hreach He. apply Inv_reachable in Hreach.
  unfold Inv in Hreach. rewrite He in Hreach. cbn [length] in Hreach.
  destruct (domReady s).
  - split; [apply Hreach | intros _; apply Hreach].
  - split; [apply Hreach | discriminate].
Qed.

Lemma reachable_start5 : reachable deck5 start5.
Proof. exists [DOMContentLoaded]. reflexivity. Qed.

(** Once dispatched, DOMContentLoaded stays dispatched. *)
Lemma goTo_domReady index s : domReady (state_of (goTo index s)) = domReady s.
Proof.
  unfold goTo.
  destruct ((index =? currentIndex s) || (index <? 0)
            || geq_num index (totalSections s) || isTransitioning s);
    [reflexivity|].
  cbv zeta. destruct (sectionAt _ _); reflexivity.
Qed.

Lemma runTask_domReady t s : domReady (state_of (runTask t s)) = domReady s.
Proof.
  destruct t as [[h|] index|]; cbn [runTask showNext release state_of];
    try reflexivity.
  unfold updateCounter, updateProgress. run_state.
  destruct s as [sec ci lock tot sx sy sl pf pc fs kb cb tb dr ck tm].
  destruct pf, tot as [n|]; try destruct (n =? 0); destruct pc; reflexivity.
Qed.

Lemma tick_domReady s : domReady (state_of (tick s)) = domReady s.
Proof.
  unfold tick.
  set (s1 := set_clock (clock s + 1) s).
  set (ready := List.filter (is_due (clock s1)) (timers s1)).
  set (o := Returned (set_timers _ s1)).
  assert (Ho : domReady (state_of o) = domReady s) by reflexivity.
  clearbody o ready. revert o Ho.
  induction ready as [|t ready IH]; intros o Ho; [exact Ho|].
  cbn [fold_left]. apply IH.
  destruct o as [u | u]; cbn [and_then state_of] in *;
    now rewrite runTask_domReady.
Qed.

Lemma step_domReady e s :
  domReady s = true -> domReady (state_of (step e s)) = true.
Proof.
  intros Hr.
  assert (Hn : domReady (state_of (next s)) = true)
    by now rewrite next_is_goTo, goTo_domReady.
  assert (Hp : domReady (state_of (prev s)) = true)
    by now rewrite prev_is_goTo, goTo_domReady.
  assert (Hg : forall i, domReady (state_of (goTo i s)) = true)
    by (intros i; now rewrite goTo_domReady).
  destruct e; cbn [step]; rewrite ?Hr; try assumption; try apply Hg.
  - destruct (keydownBound s); [|exact Hr]. unfold handleKeydown.
    repeat match goal with
           | |- context [if key_in ?k ?l then _ else _] => destruct (key_in k l)
           end; try assumption; try apply Hg.
    + destruct (totalSections s); [apply Hg|].
      unfold goToNaN. destruct (isTransitioning s); [exact Hr|].
      cbv zeta. destruct (sectionAt _ _); exact Hr.
    + unfold toggleFullscreen. destruct (negb (fullscreenElement s)); exact Hr.
  - destruct (clickBound s); [|exact Hr]. unfold handleClick.
    repeat match goal with
           | |- context [if ?c then _ else _] => destruct c
           end; assumption.
  - destruct (touchBound s); exact Hr.
  - destruct (touchBound s); [|exact Hr]. unfold touchend.
    repeat match goal with
           | |- context [if ?c then _ else _] => destruct c
           end; assumption.
  - now rewrite tick_domReady.
Qed.

Lemma run_domReady evs s : domReady s = true -> domReady (run evs s) = true.
Proof.
  revert s. induction evs as [|e evs IH]; intros s Hr; [exact Hr|].
  cbn [run]. now apply IH, step_domReady.
Qed.

(** C1.  In every state reached after the document-ready callback has run on
    a page with at least one section, [currentIndex] lies between 0 and
    [totalSections - 1]; and after a call of [goTo] with any integer, followed
    by whatever events, it still does. *)
Theorem currentIndex_in_range (p : Page) (s : State) :
  reachable p s -> domReady s = true -> page_slides p <> [] ->
  exists n : Z,
    totalSections s = Some n
    /\ 0 <= currentIndex s <= n - 1
    /\ forall (target : Z) (later : list Event),
         let s' := run (CallGoTo target :: later) s in
         totalSections s' = Some n /\ 0 <= currentIndex s' <= n - 1.
Proof.
  intros Hreach Hr Hne.
  assert (Hrange : forall t, reachable p t -> domReady t = true ->
            totalSections t = Some (Z.of_nat (length (page_slides p)))
            /\ 0 <= currentIndex t <= Z.of_nat (length (page_slides p)) - 1).
  { intros t Ht Hrt.
    destruct (live_of_reachable p t Ht Hrt Hne) as (Htot & _ & Hci & _).
    split; [exact Htot | lia]. }
  destruct (Hrange s Hreach Hr) as [Htot Hci].
  exists (Z.of_nat (length (page_slides p))).
  split; [exact Htot|]. split; [exact Hci|].
  intros target later s'. apply Hrange.
  - now apply reachable_run.
  - now apply run_domReady.
Qed.

Lemma currentIndex_in_range_witness :
  exists n : Z,
    totalSections start5 = Some n
    /\ 0 <= currentIndex start5 <= n - 1
    /\ forall (target : Z) (later : list Event),
         let s' := run (CallGoTo target :: later) start5 in
         totalSections s' = Some n /\ 0 <= currentIndex s' <= n - 1.
Proof.
  apply (currentIndex_in_range deck5 start5).
  - exact reachable_start5.
  - vm_compute; reflexivity.
  - discriminate.
Defined.

Lemma clean_deck5 : clean deck5.
Proof.
  intros j x Hx. cbn [deck5 page_slides repeat] in Hx.
  do 4 (destruct j as [|j]; [injection Hx as <-; reflexivity|]).
  discriminate Hx.
Qed.

(** C4, as stated, fails on a page whose markup marks another section than
    the first active: the document-ready callback adds the flag to section 0
    and clears none, so after it, with no transition in flight, two sections
    are active. *)
Lemma single_active_fails_on_premarked_markup :
  reachable premarked (run [DOMContentLoaded] (construct premarked))
  /\ domReady (run [DOMContentLoaded] (construct premarked)) = true
  /\ in_delay_window (run [DOMContentLoaded] (construct premarked)) = false
  /\ totalSections (run [DOMContentLoaded] (construct premarked)) = Some 2
  /\ map active (slides (run [DOMContentLoaded] (construct premarked))) = [true; true]
  /\ count_active (slides (run [DOMContentLoaded] (construct premarked))) = 2%nat.
Proof.
  split; [exists [DOMContentLoaded]; reflexivity|].
  repeat split.
Qed.

(** C4, amended.  On a page whose markup marks no section but possibly the
    first active, every state reached after the document-ready callback has
    run, and not inside the delay window of a transition, has exactly one
    active section when there are sections, and none when there is no section;
    the active one is the current one. *)
Theorem single_active_section (p : Page) (s : State) :
  clean p -> reachable p s -> domReady s = true -> in_delay_window s = false ->
  exists n : Z,
    totalSections s = Some n
    /\ count_active (slides s) = (if n =? 0 then 0%nat else 1%nat)
    /\ (n <> 0 -> only_active (currentIndex s) (slides s)).
Proof.
  intros Hcl Hreach Hr Hw.
  destruct (page_slides p) as [|x l] eqn:Hp.
  - destruct (dormant_of_reachable p s Hreach Hp) as [Hd Htot].
    exists 0. split; [now apply Htot|].
    destruct Hd as (_ & _ & _ & _ & _ & Hsl & _). rewrite Hsl, Hp.
    split; [reflexivity | congruence].
  - assert (Hne : page_slides p <> []) by (rewrite Hp; discriminate).
    destruct (live_of_reachable p s Hreach Hr Hne)
      as (Htot & _ & Hci & _ & _ & _ & Hl & _ & _ & Hph).
    rewrite Hp in *. cbn [length] in *.
    exists (Z.of_nat (S (length l))). split; [exact Htot|].
    assert (Hone : only_active (currentIndex s) (slides s)).
    { unfold phase_ok, in_delay_window in *.
      destruct (timers s) as [|t [|t' ts]]; [now apply Hph | | contradiction].
      destruct Hph as [_ Hph]. cbn [existsb] in Hw.
      destruct (task t); [discriminate Hw | now apply Hph]. }
    split; [|intros _; exact Hone].
    replace (Z.of_nat (S (length l)) =? 0) with false
      by (symmetry; apply Z.eqb_neq; lia).
    apply (count_active_only _ (currentIndex s)); [exact Hone | lia].
Qed.

Lemma single_active_section_witness :
  exists n : Z,
    totalSections start5 = Some n
    /\ count_active (slides start5) = (if n =? 0 then 0%nat else 1%nat)
    /\ (n <> 0 -> only_active (currentIndex start5) (slides start5)).
Proof.
  apply (single_active_section deck5 start5).
  - exact clean_deck5.
  - exact reachable_start5.
  - vm_compute; reflexivity.
  - vm_compute; reflexivity.
Defined.

Lemma tick_nothing_pending s :
  timers s = [] -> tick s = Returned (set_clock (clock s + 1) s).
Proof.
  intros H. rewrite (tick_idle _ H).
  destruct s as [sec ci lock tot sx sy sl pf pc fs kb cb tb dr ck tm].
  cbn [timers] in H. subst tm. reflexivity.
Qed.

Lemma set_clock_same s : set_clock (clock s) s = s.
Proof. now destruct s. Qed.

Lemma set_clock_twice a b s : set_clock b (set_clock a s) = set_clock b s.
Proof. reflexivity. Qed.

(** Without sections and after document-ready, an event moves the clock at
    most. *)
Lemma inert_step (p : Page) (s : State) (e : Event) :
  page_slides p = [] -> reachable p s -> domReady s = true ->
  step e s = Returned match e with Tick => set_clock (clock s + 1) s | _ => s end.
Proof.
  intros Hp Hreach Hr.
  destruct (dormant_of_reachable p s Hreach Hp)
    as [(Hci & Htm & Hk & Hc & Htb & Hsl & Hpf & Hpc) Htot].
  specialize (Htot Hr).
  assert (Hdrop : forall i, goTo i s = Returned s).
  { intros i. apply goTo_guard. rewrite Htot. cbn [geq_num].
    destruct (i <? 0) eqn:Hi; [now rewrite orb_true_r|].
    apply Z.ltb_ge in Hi.
    replace (0 <=? i) with true by (symmetry; now apply Z.leb_le).
    now rewrite !orb_true_r. }
  destruct e; cbn [step]; rewrite ?Hr, ?Hk, ?Hc, ?Htb; try reflexivity.
  - now apply tick_nothing_pending.
  - rewrite next_is_goTo. apply Hdrop.
  - rewrite prev_is_goTo. apply Hdrop.
  - apply Hdrop.
Qed.

Lemma inert_run (p : Page) (evs : list Event) (s : State) :
  page_slides p = [] -> reachable p s -> domReady s = true ->
  faulty evs s = false /\ run evs s = set_clock (clock (run evs s)) s.
Proof.
  intros Hp. revert s. induction evs as [|e evs IH]; intros s Hreach Hr.
  - cbn [faulty run]. now rewrite set_clock_same.
  - cbn [faulty run]. rewrite (inert_step p s e Hp Hreach Hr). cbn [threw state_of orb].
    assert (Hreach' : reachable p (state_of (step e s)))
      by (apply (reachable_run p [e]); exact Hreach).
    assert (Hr' : domReady (state_of (step e s)) = true) by now apply step_domReady.
    rewrite (inert_step p s e Hp Hreach Hr) in Hreach', Hr'. cbn [state_of] in Hreach', Hr'.
    destruct (IH _ Hreach' Hr') as [Hf Hrun]. split; [exact Hf|].
    rewrite Hrun at 1. destruct e; reflexivity.
Qed.

(** C9.  On a page without sections, in every reachable state: there is no
    section to mark active, both widgets are as the markup left them, no
    listener is attached, the index is 0 and no callback is pending; the
    document-ready callback returns without throwing; and once it has run,
    every event - key, click, touch, a direct call of [next], [prev] or
    [goTo], the passing of time - returns without throwing and changes nothing
    but the clock, and so does every sequence of events. *)
Theorem no_sections_is_inert (p : Page) (s : State) :
  page_slides p = [] -> reachable p s ->
  slides s = [] /\ count_active (slides s) = 0%nat
  /\ progressFill s = page_fill p /\ pageCounter s = page_counter p
  /\ keydownBound s = false /\ clickBound s = false /\ touchBound s = false
  /\ currentIndex s = 0 /\ timers s = []
  /\ threw (step DOMContentLoaded s) = false
  /\ (domReady s = true ->
      (forall e : Event,
          step e s
          = Returned match e with Tick => set_clock (clock s + 1) s | _ => s end)
      /\ forall evs : list Event,
          faulty evs s = false /\ run evs s = set_clock (clock (run evs s)) s).
Proof.
  intros Hp Hreach.
  destruct (dormant_of_reachable p s Hreach Hp)
    as [(Hci & Htm & Hk & Hc & Htb & Hsl & Hpf & Hpc) Htot].
  rewrite Hp in Hsl.
  split; [exact Hsl|]. split; [now rewrite Hsl|].
  repeat (split; [assumption|]).
  split.
  - cbn [step]. destruct (domReady s); [reflexivity|].
    rewrite onDOMContentLoaded_empty by exact Hsl. reflexivity.
  - intros Hr. split.
    + intros e. now apply (inert_step p).
    + intros evs. now apply (inert_run p).
Qed.

Lemma no_sections_is_inert_witness :
  let s := run [DOMContentLoaded; Keydown "ArrowRight" true; CallNext] (construct blank) in
  domReady s = true /\ currentIndex s = 0 /\ keydownBound s = false
  /\ step (CallGoTo 3) s = Returned s.
Proof.
  cbv zeta.
  pose proof (no_sections_is_inert blank
                (run [DOMContentLoaded; Keydown "ArrowRight" true; CallNext]
                   (construct blank))
                eq_refl (ex_intro _ _ eq_refl))
    as (_ & _ & _ & _ & Hk & _ & _ & Hci & _ & _ & Hinert).
  assert (Hr : domReady (run [DOMContentLoaded; Keydown "ArrowRight" true; CallNext]
                           (construct blank)) = true) by (vm_compute; reflexivity).
  split; [exact Hr|]. split; [exact Hci|]. split; [exact Hk|].
  exact (proj1 (Hinert Hr) (CallGoTo 3)).
Defined.

(** ** Time passing *)

Lemma elapse_plus (a b : nat) s : elapse (a + b) s = elapse b (elapse a s).
Proof. unfold elapse. now rewrite repeat_app, run_app. Qed.

Lemma elapse_S (k : nat) s : elapse (S k) s = elapse k (state_of (tick s)).
Proof. reflexivity. Qed.

(** While the only pending callback is not due, only the clock moves. *)
Lemma elapse_waiting (k : nat) s t :
  timers s = [t] -> clock s + Z.of_nat k < due t ->
  elapse k s = set_clock (clock s + Z.of_nat k) s.
Proof.
  revert s. induction k as [|k IH]; intros s Ht Hk.
  - cbn [elapse repeat run Z.of_nat]. rewrite Z.add_0_r. now rewrite set_clock_same.
  - rewrite elapse_S, (tick_single _ _ Ht).
    replace (is_due (clock s + 1) t) with false
      by (symmetry; apply Z.leb_gt; lia).
    cbn [state_of].
    replace (set_timers [t] (set_clock (clock s + 1) s)) with (set_clock (clock s + 1) s)
      by (destruct s; cbn [timers] in Ht; now subst).
    rewrite IH; [|exact Ht|cbn [set_clock clock]; lia].
    cbn [set_clock clock]. rewrite set_clock_twice. f_equal. lia.
Qed.

Lemma elapse_idle (k : nat) s :
  timers s = [] -> elapse k s = set_clock (clock s + Z.of_nat k) s.
Proof.
  revert s. induction k as [|k IH]; intros s Ht.
  - cbn [elapse repeat run Z.of_nat]. rewrite Z.add_0_r. now rewrite set_clock_same.
  - rewrite elapse_S, (tick_nothing_pending _ Ht). cbn [state_of].
    rewrite IH by exact Ht.
    cbn [set_clock clock]. rewrite set_clock_twice. f_equal. lia.
Qed.

(** The only pending callback runs at the tick that reaches its due time. *)
Lemma elapse_fires (k : nat) s t :
  timers s = [t] -> due t = clock s + Z.of_nat (S k) ->
  elapse (S k) s = state_of (runTask (task t) (set_timers [] (set_clock (due t) s))).
Proof.
  intros Ht Hd. replace (S k) with (k + 1)%nat by lia.
  rewrite elapse_plus, (elapse_waiting k s t Ht) by lia.
  cbn [elapse repeat run step].
  rewrite (tick_single _ t) by exact Ht.
  cbn [set_clock clock].
  replace (is_due (clock s + Z.of_nat k + 1) t) with true
    by (symmetry; apply Z.leb_le; lia).
  rewrite set_clock_twice.
  replace (due t) with (clock s + Z.of_nat k + 1) by lia. reflexivity.
Qed.

(** *** One transition, from the accepted [goTo] to the release of the lock *)

Section Transition.

Variables (index n : Z) (cur h : nat) (s : State).

Hypothesis idle : isTransitioning s = false.
Hypothesis nothing_pending : timers s = [].
Hypothesis total : totalSections s = Some n.
Hypothesis in_range : 0 <= index < n.
Hypothesis elsewhere : index <> currentIndex s.
Hypothesis current_section : sectionAt (currentIndex s) s = Some cur.
Hypothesis next_section : sectionAt index s = Some h.

(** At once: the lock is taken, the current section hidden, the callback
    registered. *)
Lemma transition_starts :
  goTo index s
  = Returned
      (mkState (sections s) (currentIndex s) true (Some n) (startX s) (startY s)
         (alter (with_active false) cur (slides s))
         (progressFill s) (pageCounter s)
         (fullscreenElement s) (keydownBound s) (clickBound s) (touchBound s)
         (domReady s) (clock s)
         [mkTimer (clock s + 200) (ShowNext (Some h) index)]).
Proof.
  rewrite goTo_accepted.
  2:{ rewrite total, idle. cbn [geq_num].
      replace (index =? currentIndex s) with false by (symmetry; apply Z.eqb_neq; lia).
      replace (index <? 0) with false by (symmetry; apply Z.ltb_ge; lia).
      replace (n <=? index) with false by (symmetry; apply Z.leb_gt; lia).
      reflexivity. }
  rewrite current_section, next_section.
  destruct s as [sec ci lock tot sx sy sl pf pc fs kb cb tb dr ck tm].
  cbn [isTransitioning timers totalSections] in idle, nothing_pending, total.
  subst lock tm tot. reflexivity.
Qed.

(** After 200 ms: the target is shown, index and widgets follow, the
    release is registered. *)
Lemma transition_shown :
  elapse 200 (state_of (goTo index s))
  = mkState (sections s) index true (Some n) (startX s) (startY s)
      (alter replay h (alter (with_active true) h
                         (alter (with_active false) cur (slides s))))
      ((fun _ => Some (percent index n)) <$> progressFill s)
      ((fun _ => counterHTML index (Some n)) <$> pageCounter s)
      (fullscreenElement s) (keydownBound s) (clickBound s) (touchBound s)
      (domReady s) (clock s + 200)
      [mkTimer (clock s + 200 + 300) Release].
Proof.
  rewrite transition_starts. cbn [state_of].
  rewrite (elapse_fires 199 _ (mkTimer (clock s + 200) (ShowNext (Some h) index)));
    [|reflexivity|cbn; lia].
  cbn [task runTask due].
  rewrite (showNext_eq h index n); [|reflexivity|lia].
  reflexivity.
Qed.

(** After 500 ms: the lock is released and nothing is pending. *)
Lemma transition_completes :
  elapse 500 (state_of (goTo index s))
  = mkState (sections s) index false (Some n) (startX s) (startY s)
      (alter replay h (alter (with_active true) h
                         (alter (with_active false) cur (slides s))))
      ((fun _ => Some (percent index n)) <$> progressFill s)
      ((fun _ => counterHTML index (Some n)) <$> pageCounter s)
      (fullscreenElement s) (keydownBound s) (clickBound s) (touchBound s)
      (domReady s) (clock s + 500) [].
Proof.
  change 500%nat with (200 + 300)%nat. rewrite elapse_plus, transition_shown.
  rewrite (elapse_fires 299 _ (mkTimer (clock s + 200 + 300) Release));
    [|reflexivity|cbn; lia].
  cbn [task runTask due]. run_state. f_equal. lia.
Qed.

(** In between the lock is set all the time. *)
Lemma transition_locked (k : nat) :
  (k < 500)%nat -> isTransitioning (elapse k (state_of (goTo index s))) = true.
Proof.
  intros Hk. destruct (Nat.lt_ge_cases k 200) as [Hearly | Hlate].
  - rewrite transition_starts. cbn [state_of].
    erewrite elapse_waiting; [reflexivity | reflexivity | cbn; lia].
  - replace k with (200 + (k - 200))%nat by lia.
    rewrite elapse_plus, transition_shown.
    erewrite elapse_waiting; [reflexivity | reflexivity | cbn; lia].
Qed.

End Transition.

(** ** The lock as a debounce *)

Lemma locked_goTo index s : isTransitioning s = true -> goTo index s = Returned s.
Proof. intros H. apply goTo_guard. rewrite H. apply orb_true_r. Qed.

Lemma locked_next s : isTransitioning s = true -> next s = Returned s.
Proof. intros H. rewrite next_is_goTo. now apply locked_goTo. Qed.

Lemma locked_prev s : isTransitioning s = true -> prev s = Returned s.
Proof. intros H. rewrite prev_is_goTo. now apply locked_goTo. Qed.

Lemma goTo_drops_or_locks index s :
  goTo index s = Returned s \/ isTransitioning (state_of (goTo index s)) = true.
Proof.
  destruct ((index =? currentIndex s) || (index <? 0)
            || geq_num index (totalSections s) || isTransitioning s) eqn:Hg.
  - left. now apply goTo_guard.
  - right. now apply goTo_accepted_locks.
Qed.

Lemma next_twice s : next (state_of (next s)) = Returned (state_of (next s)).
Proof.
  destruct (goTo_drops_or_locks (currentIndex s + 1) s) as [H | H];
    rewrite <- next_is_goTo in H.
  - rewrite H. cbn [state_of]. exact H.
  - now apply locked_next.
Qed.

(** C2.  A [next] issued right after another [next] is dropped: it changes
    nothing and queues nothing, like every request that arrives while the lock
    is set.  So when the first call, made on an idle engine, takes the lock
    and the second arrives before the lock clears - at once, or any number of
    milliseconds below 500 later - the two calls together move [currentIndex]
    forward by exactly one by the time the transition has run its 500 ms, and
    nothing is left pending; from index 0 of the five-slide deck they end at
    index 1. *)
Theorem rapid_next_advances_once (p : Page) (s : State) (n : Z) :
  reachable p s -> totalSections s = Some n ->
  next (state_of (next s)) = Returned (state_of (next s))
  /\ (isTransitioning s = true ->
      next s = Returned s /\ prev s = Returned s
      /\ forall index, goTo index s = Returned s)
  /\ (isTransitioning s = false -> isTransitioning (run [CallNext] s) = true ->
      forall k : nat, (k < 500)%nat ->
        let s1 := elapse k (run [CallNext] s) in
        let s2 := elapse (500 - k) (run [CallNext] s1) in
        isTransitioning s1 = true
        /\ next s1 = Returned s1
        /\ currentIndex s2 = currentIndex s + 1
        /\ isTransitioning s2 = false
        /\ timers s2 = [])
  /\ currentIndex (elapse 500 (run [CallNext; CallNext] start5)) = 1.
Proof.
  intros Hreach Htot.
  split; [apply next_twice|].
  split.
  { intros Hlock. split; [now apply locked_next|].
    split; [now apply locked_prev | intros index; now apply locked_goTo]. }
  split; [|vm_compute; reflexivity].
  intros Hidle Htaken k Hk s1 s2.
  assert (Hlast : currentIndex s < n - 1).
  { destruct (n - 1 <=? currentIndex s) eqn:Hle; [|now apply Z.leb_gt in Hle].
    exfalso. cbn [run step] in Htaken. unfold next in Htaken.
    rewrite Htot, Hidle in Htaken.
    cbn [fmap option_fmap option_map geq_num orb] in Htaken.
    rewrite Hle in Htaken. cbn [state_of] in Htaken. congruence. }
  clear Htaken.
  pose proof (Inv_reachable p s Hreach) as HI. unfold Inv in HI.
  destruct (domReady s); [|destruct HI as [HI _]; congruence].
  destruct HI as (Htot' & Hsec & Hlive).
  rewrite Htot in Htot'. injection Htot' as ->.
  destruct (length (page_slides p)) as [|m] eqn:Hlen.
  { exfalso. destruct Hlive as (Hci & _). cbn in Hlast. lia. }
  destruct Hlive as (Hci & _ & _ & _ & _ & _ & _ & Hph).
  assert (Htm : timers s = []).
  { unfold phase_ok in Hph. destruct (timers s) as [|t [|t' ts]];
      [reflexivity | destruct Hph as [Hl _]; congruence | contradiction]. }
  assert (Hcur : sectionAt (currentIndex s) s = Some (Z.to_nat (currentIndex s)))
    by (apply (sectionAt_seq _ (S m)); [exact Hsec | lia]).
  assert (Hnxt : sectionAt (currentIndex s + 1) s = Some (Z.to_nat (currentIndex s + 1)))
    by (apply (sectionAt_seq _ (S m)); [exact Hsec | lia]).
  assert (Hlocked : isTransitioning s1 = true).
  { subst s1. cbn [run step]. rewrite next_is_goTo.
    apply (transition_locked (currentIndex s + 1) (Z.of_nat (S m)) _ _ s Hidle Htm Htot
             ltac:(lia) ltac:(lia) Hcur Hnxt k Hk). }
  assert (Hdropped : next s1 = Returned s1) by now apply locked_next.
  split; [exact Hlocked|]. split; [exact Hdropped|].
  assert (Hs2 : s2 = elapse 500 (state_of (goTo (currentIndex s + 1) s))).
  { subst s2. cbn [run step]. rewrite Hdropped. cbn [state_of]. subst s1.
    cbn [run step]. rewrite <- elapse_plus, next_is_goTo. f_equal. lia. }
  rewrite Hs2.
  rewrite (transition_completes (currentIndex s + 1) (Z.of_nat (S m)) _ _ s
             Hidle Htm Htot ltac:(lia) ltac:(lia) Hcur Hnxt).
  repeat split.
Qed.

Lemma rapid_next_advances_once_witness :
  let s1 := elapse 120 (run [CallNext] start5) in
  let s2 := elapse (500 - 120) (run [CallNext] s1) in
  isTransitioning s1 = true
  /\ next s1 = Returned s1
  /\ currentIndex s2 = currentIndex start5 + 1
  /\ isTransitioning s2 = false
  /\ timers s2 = [].
Proof.
  refine (proj1 (proj2 (proj2
            (rapid_next_advances_once deck5 start5 5 reachable_start5 _))) _ _ 120%nat _);
    first [lia | vm_compute; reflexivity].
Defined.

(** ** The scenarios of the spec, run on the model *)

(** Five sections, from index 0: next, next, jump to last, prev (each left to
    finish) visit the indices 1, 2, 4, 3, and the counter reads "2 / 5",
    "3 / 5", "5 / 5", "4 / 5". *)
Example scenario_five_sections :
  let s1 := elapse 500 (run [Keydown "ArrowRight" false] start5) in
  let s2 := elapse 500 (run [Keydown "PageDown" false] s1) in
  let s3 := elapse 500 (run [Keydown "End" false] s2) in
  let s4 := elapse 500 (run [Keydown "ArrowLeft" false] s3) in
  map currentIndex [s1; s2; s3; s4] = [1; 2; 4; 3]
  /\ map (fun s => option_map textContent (pageCounter s)) [s1; s2; s3; s4]
     = map Some ["2 / 5"; "3 / 5"; "5 / 5"; "4 / 5"]%string
  /\ map count_active (map slides [s1; s2; s3; s4]) = [1; 1; 1; 1]%nat.
Proof. vm_compute. repeat split. Qed.

(** Before the document is ready [totalSections] is undefined, so the range
    check of [goTo] lets every non-negative index through: the call takes the
    lock and throws on the missing section. *)
Example goTo_before_ready :
  goTo 1 (construct deck5) = Threw (set_isTransitioning true (construct deck5)).
Proof. reflexivity. Qed.

(** Inside the delay window no section is active. *)
Example scenario_delay_window :
  let s := elapse 100 (run [CallNext] start5) in
  in_delay_window s = true /\ count_active (slides s) = 0%nat
  /\ currentIndex s = 0 /\ isTransitioning s = true.
Proof. vm_compute. repeat split. Qed.

(** The click zones in binary64, the arithmetic the browser uses: on the
    viewport of the scenario the doubles [width * 0.65] and [width * 0.35] are
    exactly 650 and 350, so the comparisons decide as the rational ones do. *)
Example click_zones_binary64 :
  let w := 1000%float in
  let right := (w * 0x1.4cccccccccccdp-1)%float in
  let left := (w * 0x1.6666666666666p-2)%float in
  PrimFloat.ltb right 800 = true
  /\ PrimFloat.ltb right 200 = false /\ PrimFloat.ltb 200 left = true
  /\ PrimFloat.ltb right 500 = false /\ PrimFloat.ltb 500 left = false
  /\ PrimFloat.ltb right 650 = false /\ PrimFloat.ltb 650 left = false
  /\ PrimFloat.ltb right 350 = false /\ PrimFloat.ltb 350 left = false.
Proof. vm_compute. repeat split. Qed.

(** ** Further properties of the engine *)

(** *** Pending callbacks *)

(** X6.  In every reachable state at most one callback is pending; when one
    is, the lock is set, and a pending activation always targets an existing
    section. *)
Theorem one_transition_at_a_time (p : Page) (s : State) :
  reachable p s ->
  (length (timers s) <= 1)%nat
  /\ (timers s <> [] -> isTransitioning s = true)
  /\ (forall t h i, In t (timers s) -> task t = ShowNext h i ->
        exists k : nat, h = Some k /\ i = Z.of_nat k
                        /\ (k < length (page_slides p))%nat
                        /\ is_Some (slides s !! k)).
Proof.
  intros Hreach. apply Inv_reachable in Hreach. unfold Inv in Hreach.
  assert (Hdormant : dormant p s ->
            (length (timers s) <= 1)%nat
            /\ (timers s <> [] -> isTransitioning s = true)
            /\ (forall t h i, In t (timers s) -> task t = ShowNext h i ->
                  exists k : nat, h = Some k /\ i = Z.of_nat k
                                  /\ (k < length (page_slides p))%nat
                                  /\ is_Some (slides s !! k))).
  { intros (_ & Htm & _). rewrite Htm. cbn [length In].
    split; [lia|]. split; [congruence | contradiction]. }
  destruct (domReady s); [|now apply Hdormant].
  destruct Hreach as (_ & _ & Hrest).
  destruct (length (page_slides p)) as [|m] eqn:Hlen; [now apply Hdormant|].
  destruct Hrest as (_ & _ & _ & _ & Hl & _ & _ & Hph).
  unfold phase_ok in Hph.
  destruct (timers s) as [|t [|t' ts]]; [| |contradiction]; cbn [length In].
  - split; [lia|]. split; [congruence | contradiction].
  - destruct Hph as [Hlock Hph].
    split; [lia|]. split; [intros _; exact Hlock|].
    intros u h i [<- | []] Hu. rewrite Hu in Hph.
    destruct Hph as [(k & -> & -> & Hk) _].
    exists k. repeat split; try assumption.
    apply lookup_lt_is_Some. lia.
Qed.

Lemma one_transition_at_a_time_witness :
  isTransitioning (run [CallNext; Click (mkClick false 900 1000); CallGoTo 3] start5)
  = true.
Proof.
  refine (proj1 (proj2 (one_transition_at_a_time deck5 _ _)) _).
  - apply reachable_run. exact reachable_start5.
  - vm_compute. discriminate.
Defined.

(** *** No handler throws once the document is ready *)

Lemma goTo_safe p index s :
  Inv p s -> domReady s = true -> threw (goTo index s) = false.
Proof.
  intros HI Hr.
  destruct ((index =? currentIndex s) || (index <? 0)
            || geq_num index (totalSections s) || isTransitioning s) eqn:Hg.
  { now rewrite goTo_guard. }
  rewrite (goTo_accepted _ _ Hg).
  apply orb_false_iff in Hg as [Hg Ht].
  apply orb_false_iff in Hg as [Hg Hge].
  apply orb_false_iff in Hg as [Hne Hlt].
  unfold Inv in HI. rewrite Hr in HI. destruct HI as (Htot & Hsec & Hrest).
  rewrite Htot in Hge. cbn [geq_num] in Hge.
  apply Z.leb_gt in Hge. apply Z.ltb_ge in Hlt.
  destruct (length (page_slides p)) as [|m] eqn:Hlen; [lia|].
  destruct Hrest as (Hci & _).
  now rewrite (sectionAt_seq (currentIndex s) (S m)).
Qed.

Lemma tick_safe p s :
  Inv p s -> domReady s = true -> threw (tick s) = false.
Proof.
  intros HI Hr. unfold Inv in HI. rewrite Hr in HI.
  destruct HI as (Htot & Hsec & Hrest).
  destruct (length (page_slides p)) as [|m] eqn:Hlen.
  { destruct Hrest as (_ & Htm & _). now rewrite (tick_idle _ Htm). }
  destruct Hrest as (_ & _ & _ & _ & _ & _ & _ & Hph).
  unfold phase_ok in Hph.
  destruct (timers s) as [|t [|t' ts]] eqn:Htm; [| |contradiction].
  - now rewrite (tick_idle _ Htm).
  - rewrite (tick_single _ _ Htm). destruct Hph as [_ Hph].
    destruct (is_due (clock s + 1) t); [|reflexivity].
    destruct (task t) as [h i|]; [|reflexivity].
    destruct Hph as [(k & -> & _) _]. reflexivity.
Qed.

Lemma step_safe p e s :
  Inv p s -> domReady s = true -> threw (step e s) = false.
Proof.
  intros HI Hr.
  assert (Hg : forall i, threw (goTo i s) = false)
    by (intros i; now apply (goTo_safe p)).
  assert (Hn : threw (next s) = false) by (rewrite next_is_goTo; apply Hg).
  assert (Hp : threw (prev s) = false) by (rewrite prev_is_goTo; apply Hg).
  destruct e; cbn [step]; rewrite ?Hr; try reflexivity; try assumption; try apply Hg.
  - destruct (keydownBound s); [|reflexivity]. unfold handleKeydown.
    repeat match goal with
           | |- context [if key_in ?k ?l then _ else _] => destruct (key_in k l)
           end; try reflexivity; try assumption; try apply Hg.
    destruct (totalSections s) as [n|] eqn:Hn'; [apply Hg|].
    exfalso. unfold Inv in HI. rewrite Hr in HI. destruct HI as [H _]. congruence.
  - destruct (clickBound s); [|reflexivity]. unfold handleClick.
    repeat match goal with
           | |- context [if ?c then _ else _] => destruct c
           end; try reflexivity; assumption.
  - destruct (touchBound s); reflexivity.
  - destruct (touchBound s); [|reflexivity]. unfold touchend.
    repeat match goal with
           | |- context [if ?c then _ else _] => destruct c
           end; try reflexivity; assumption.
  - now apply (tick_safe p).
Qed.

Lemma onDOMContentLoaded_returns s : threw (onDOMContentLoaded s) = false.
Proof.
  destruct (slides s) as [|x l] eqn:Hsl.
  - now rewrite onDOMContentLoaded_empty.
  - rewrite onDOMContentLoaded_eq; [reflexivity|]. now rewrite Hsl.
Qed.

(** X8.  The document-ready callback never throws, and from document-ready
    on, whatever the page and whatever came before, no event handler, timer
    callback or direct call of [next], [prev] or [goTo] (with any integer)
    throws. *)
Theorem no_throw_after_ready (p : Page) (s : State) (evs : list Event) :
  reachable p s -> domReady s = true ->
  faulty evs s = false
  /\ forall s0, threw (step DOMContentLoaded s0) = false.
Proof.
  intros Hreach Hr. split.
  - apply Inv_reachable in Hreach.
    revert s Hreach Hr. induction evs as [|e evs IH]; intros s HI Hr; [reflexivity|].
    cbn [faulty]. rewrite (step_safe p e s HI Hr). cbn [orb].
    apply IH; [now apply Inv_step | now apply step_domReady].
  - intros s0. cbn [step]. destruct (domReady s0); [reflexivity|].
    apply onDOMContentLoaded_returns.
Qed.

Lemma no_throw_after_ready_witness :
  faulty [CallGoTo 9; Keydown "End" false; Tick; CallGoTo (-4); CallPrev] start5
  = false.
Proof.
  refine (proj1 (no_throw_after_ready deck5 start5 _ reachable_start5 _)).
  vm_compute; reflexivity.
Defined.

(** *** Before the document is ready *)

(** X7.  Until DOMContentLoaded has been dispatched the engine leaves the
    document alone - sections and both widgets are as the markup has them, the
    index is 0, nothing is pending - and keys, clicks and touches do nothing,
    whatever events and direct calls came before. *)
Theorem untouched_before_ready (p : Page) (s : State) :
  reachable p s -> domReady s = false ->
  slides s = page_slides p
  /\ progressFill s = page_fill p /\ pageCounter s = page_counter p
  /\ currentIndex s = 0 /\ timers s = [] /\ totalSections s = None
  /\ forall e : Event, is_input e = true -> step e s = Returned s.
Proof.
  intros Hreach Hr. apply Inv_reachable in Hreach.
  unfold Inv in Hreach. rewrite Hr in Hreach.
  destruct Hreach as (Htot & _ & Hci & Htm & Hk & Hc & Htb & Hsl & Hpf & Hpc).
  repeat (split; [assumption|]).
  intros e He. destruct e; try discriminate He; cbn [step]; now rewrite ?Hk, ?Hc, ?Htb.
Qed.

Lemma untouched_before_ready_witness :
  let s := run [Keydown "End" true; CallNext; Tick; CallPrev] (construct premarked) in
  slides s = page_slides premarked
  /\ step (Click (mkClick false 900 1000)) s = Returned s.
Proof.
  cbv zeta.
  destruct (untouched_before_ready premarked
              (run [Keydown "End" true; CallNext; Tick; CallPrev] (construct premarked)))
    as (Hsl & _ & _ & _ & _ & _ & Hin).
  - eexists; reflexivity.
  - vm_compute; reflexivity.
  - split; [exact Hsl | now apply Hin].
Defined.

(** *** Input while the lock is set *)

Lemma same_navigation_refl s : same_navigation s s.
Proof. repeat split. Qed.

Lemma locked_goToNaN s : isTransitioning s = true -> goToNaN s = Returned s.
Proof. intros H. unfold goToNaN. now rewrite H. Qed.

Lemma locked_handleKeydown key granted s :
  isTransitioning s = true ->
  handleKeydown key granted s
  = Returned (if key_in key ["ArrowRight"; "ArrowDown"; " "; "PageDown"; "ArrowLeft";
                             "ArrowUp"; "PageUp"; "Home"; "End"]%string
              then s
              else if key_in key ["f"; "F"]%string then toggleFullscreen granted s
                   else s).
Proof.
  intros Hlock. unfold handleKeydown, key_in. cbn [existsb].
  rewrite (locked_next _ Hlock), (locked_prev _ Hlock), (locked_goTo 0 _ Hlock),
    (locked_goToNaN _ Hlock).
  replace (match totalSections s with
           | Some n => goTo (n - 1) s
           | None => Returned s
           end) with (Returned s)
    by (destruct (totalSections s); [now rewrite locked_goTo | reflexivity]).
  repeat match goal with
         | |- context [(?k =? ?l)%string] => destruct (k =? l)%string
         end; reflexivity.
Qed.

(** X2.  While the lock is set no key, click or touch navigates: the handler
    returns without throwing, and index, lock, sections, widgets and pending
    callbacks are as before.  A click, a touch end and every key but f and F
    leave the state exactly as it was. *)
Theorem input_ignored_under_lock (s : State) (e : Event) :
  isTransitioning s = true -> is_input e = true ->
  threw (step e s) = false
  /\ same_navigation s (state_of (step e s))
  /\ (forall c, e = Click c -> step e s = Returned s)
  /\ (forall x y, e = Touchend x y -> step e s = Returned s)
  /\ (forall key granted, e = Keydown key granted ->
        key_in key ["f"; "F"]%string = false -> step e s = Returned s).
Proof.
  intros Hlock He.
  assert (Hclick : forall c, handleClick c s = Returned s).
  { intros c. unfold handleClick.
    rewrite (locked_next _ Hlock), (locked_prev _ Hlock).
    repeat match goal with
           | |- context [if ?c then _ else _] => destruct c
           end; reflexivity. }
  assert (Htouch : forall x y, touchend x y s = Returned s).
  { intros x y. unfold touchend.
    rewrite (locked_next _ Hlock), (locked_prev _ Hlock).
    repeat match goal with
           | |- context [if ?c then _ else _] => destruct c
           end; reflexivity. }
  destruct e; try discriminate He; cbn [step].
  - rewrite (locked_handleKeydown _ _ _ Hlock).
    destruct (keydownBound s).
    + split; [reflexivity|]. split.
      { cbn [state_of]. unfold toggleFullscreen.
        repeat match goal with
               | |- context [if ?c then _ else _] => destruct c
               end; repeat split. }
      split; [discriminate|]. split; [discriminate|].
      intros k g [= <- <-] Hf. rewrite Hf.
      match goal with
      | |- context [if ?c then _ else _] => destruct c
      end; reflexivity.
    + split; [reflexivity|]. split; [apply same_navigation_refl|].
      split; [discriminate|]. split; [discriminate | reflexivity].
  - rewrite Hclick. replace (if clickBound s then Returned s else Returned s)
      with (Returned s) by now destruct (clickBound s).
    split; [reflexivity|]. split; [apply same_navigation_refl|].
    split; [reflexivity|]. split; discriminate.
  - destruct (touchBound s); cbn [touchstart threw state_of];
      (split; [reflexivity|]); (split; [repeat split|]);
      (split; [discriminate|]); split; discriminate.
  - rewrite Htouch. replace (if touchBound s then Returned s else Returned s)
      with (Returned s) by now destruct (touchBound s).
    split; [reflexivity|]. split; [apply same_navigation_refl|].
    split; [discriminate|]. split; [reflexivity | discriminate].
Qed.

Lemma input_ignored_under_lock_witness :
  let s := run [CallNext] start5 in
  step (Keydown "End" false) s = Returned s
  /\ step (Click (mkClick false 10 1000)) s = Returned s.
Proof.
  cbv zeta.
  assert (Hlock : isTransitioning (run [CallNext] start5) = true)
    by (vm_compute; reflexivity).
  split.
  - refine (proj2 (proj2 (proj2 (proj2
              (input_ignored_under_lock _ (Keydown "End" false) Hlock eq_refl))))
              "End"%string false eq_refl _).
    vm_compute; reflexivity.
  - exact (proj1 (proj2 (proj2
              (input_ignored_under_lock _ (Click (mkClick false 10 1000)) Hlock eq_refl)))
              _ eq_refl).
Defined.

(** *** A lock nobody will release *)

Lemma locked_handleClick c s : isTransitioning s = true -> handleClick c s = Returned s.
Proof.
  intros Hlock. unfold handleClick.
  rewrite (locked_next _ Hlock), (locked_prev _ Hlock).
  repeat match goal with
         | |- context [if ?c then _ else _] => destruct c
         end; reflexivity.
Qed.

Lemma locked_touchend x y s : isTransitioning s = true -> touchend x y s = Returned s.
Proof.
  intros Hlock. unfold touchend.
  rewrite (locked_next _ Hlock), (locked_prev _ Hlock).
  repeat match goal with
         | |- context [if ?c then _ else _] => destruct c
         end; reflexivity.
Qed.

Lemma onDOMContentLoaded_keeps s :
  let s' := state_of (onDOMContentLoaded s) in
  isTransitioning s' = isTransitioning s /\ timers s' = timers s
  /\ currentIndex s' = currentIndex s /\ fullscreenElement s' = fullscreenElement s.
Proof.
  destruct (slides s) as [|x l] eqn:Hsl.
  - rewrite onDOMContentLoaded_empty by exact Hsl. repeat split.
  - rewrite onDOMContentLoaded_eq by now rewrite Hsl. repeat split.
Qed.

Lemma wedged_step e s :
  isTransitioning s = true -> timers s = [] ->
  isTransitioning (state_of (step e s)) = true
  /\ timers (state_of (step e s)) = []
  /\ currentIndex (state_of (step e s)) = currentIndex s.
Proof.
  intros Hlock Htm. destruct e; cbn [step].
  - destruct (domReady s); [repeat split; assumption|].
    destruct (onDOMContentLoaded_keeps (set_domReady true s)) as (H1 & H2 & H3 & _).
    rewrite H1, H2, H3. repeat split; assumption.
  - destruct (keydownBound s); [|repeat split; assumption].
    rewrite (locked_handleKeydown _ _ _ Hlock). cbn [state_of]. unfold toggleFullscreen.
    repeat match goal with
           | |- context [if ?c then _ else _] => destruct c
           end; repeat split; assumption.
  - rewrite (locked_handleClick _ _ Hlock). destruct (clickBound s); repeat split; assumption.
  - destruct (touchBound s); repeat split; assumption.
  - rewrite (locked_touchend _ _ _ Hlock). destruct (touchBound s); repeat split; assumption.
  - rewrite (tick_nothing_pending _ Htm). repeat split; assumption.
  - rewrite (locked_next _ Hlock). repeat split; assumption.
  - rewrite (locked_prev _ Hlock). repeat split; assumption.
  - rewrite (locked_goTo _ _ Hlock). repeat split; assumption.
Qed.

Lemma wedged_run evs s :
  isTransitioning s = true -> timers s = [] ->
  isTransitioning (run evs s) = true /\ timers (run evs s) = []
  /\ currentIndex (run evs s) = currentIndex s.
Proof.
  revert s. induction evs as [|e evs IH]; intros s Hlock Htm; [repeat split; assumption|].
  cbn [run]. destruct (wedged_step e s Hlock Htm) as (H1 & H2 & H3).
  destruct (IH _ H1 H2) as (H4 & H5 & H6). rewrite H6, H3. repeat split; assumption.
Qed.

(** X4.  A direct call of [goTo] with a positive index (or of [next]) before
    the document is ready passes the guard, because [totalSections] is still
    undefined, takes the lock and throws on the missing section.  No callback
    is pending then, so nothing ever releases the lock: whatever events
    follow, document-ready included, the index stays 0 and every navigation
    request is dropped. *)
Theorem goTo_before_ready_wedges (p : Page) (s : State) (index : Z) (evs : list Event) :
  reachable p s -> domReady s = false -> isTransitioning s = false -> 0 < index ->
  goTo index s = Threw (set_isTransitioning true s)
  /\ next s = Threw (set_isTransitioning true s)
  /\ (let s' := run (CallGoTo index :: evs) s in
      currentIndex s' = 0 /\ isTransitioning s' = true /\ timers s' = []
      /\ next s' = Returned s' /\ prev s' = Returned s'
      /\ forall i, goTo i s' = Returned s').
Proof.
  intros Hreach Hr Hidle Hpos. apply Inv_reachable in Hreach.
  unfold Inv in Hreach. rewrite Hr in Hreach.
  destruct Hreach as (Htot & Hsec & Hci & Htm & _).
  assert (Hthrows : forall i, 0 < i -> goTo i s = Threw (set_isTransitioning true s)).
  { intros i Hi. rewrite goTo_accepted.
    - unfold sectionAt. rewrite Hsec, Hci. reflexivity.
    - rewrite Htot, Hidle, Hci. cbn [geq_num].
      replace (i =? 0) with false by (symmetry; apply Z.eqb_neq; lia).
      replace (i <? 0) with false by (symmetry; apply Z.ltb_ge; lia).
      reflexivity. }
  split; [now apply Hthrows|].
  split; [rewrite next_is_goTo; apply Hthrows; lia|].
  cbv zeta. cbn [run step]. rewrite (Hthrows index Hpos). cbn [state_of].
  destruct (wedged_run evs (set_isTransitioning true s) eq_refl Htm) as (H1 & H2 & H3).
  rewrite H3. split; [exact Hci|]. split; [exact H1|]. split; [exact H2|].
  split; [now apply locked_next|]. split; [now apply locked_prev|].
  intros i. now apply locked_goTo.
Qed.

Lemma goTo_before_ready_wedges_witness :
  let s' := run [CallGoTo 2; DOMContentLoaded; Tick; Keydown "ArrowRight" false;
                 Tick; CallNext]
              (construct deck5) in
  currentIndex s' = 0 /\ isTransitioning s' = true /\ timers s' = [].
Proof.
  cbv zeta.
  destruct (goTo_before_ready_wedges deck5 (construct deck5) 2
              [DOMContentLoaded; Tick; Keydown "ArrowRight" false; Tick; CallNext])
    as (_ & _ & H1 & H2 & H3 & _).
  - exists []. reflexivity.
  - reflexivity.
  - reflexivity.
  - lia.
  - split; [exact H1|]. split; [exact H2 | exact H3].
Defined.

(** *** Fullscreen and navigation do not touch each other *)

Lemma goTo_fullscreen index s :
  fullscreenElement (state_of (goTo index s)) = fullscreenElement s.
Proof.
  unfold goTo.
  destruct ((index =? currentIndex s) || (index <? 0)
            || geq_num index (totalSections s) || isTransitioning s);
    [reflexivity|].
  cbv zeta. destruct (sectionAt _ _); reflexivity.
Qed.

Lemma runTask_fullscreen t s :
  fullscreenElement (state_of (runTask t s)) = fullscreenElement s.
Proof.
  destruct t as [[h|] index|]; cbn [runTask showNext release state_of];
    try reflexivity.
  unfold updateCounter, updateProgress. run_state.
  destruct s as [sec ci lock tot sx sy sl pf pc fs kb cb tb dr ck tm].
  destruct pf, tot as [n|]; try destruct (n =? 0); destruct pc; reflexivity.
Qed.

Lemma tick_fullscreen s : fullscreenElement (state_of (tick s)) = fullscreenElement s.
Proof.
  unfold tick.
  set (s1 := set_clock (clock s + 1) s).
  set (ready := List.filter (is_due (clock s1)) (timers s1)).
  set (o := Returned (set_timers _ s1)).
  assert (Ho : fullscreenElement (state_of o) = fullscreenElement s) by reflexivity.
  clearbody o ready. revert o Ho.
  induction ready as [|t ready IH]; intros o Ho; [exact Ho|].
  cbn [fold_left]. apply IH.
  destruct o as [u | u]; cbn [and_then state_of] in *;
    now rewrite runTask_fullscreen.
Qed.

Lemma fullscreen_key key :
  key_in key ["f"; "F"]%string = true ->
  key_in key ["ArrowRight"; "ArrowDown"; " "; "PageDown"]%string = false
  /\ key_in key ["ArrowLeft"; "ArrowUp"; "PageUp"]%string = false
  /\ key_in key ["Home"]%string = false /\ key_in key ["End"]%string = false.
Proof.
  unfold key_in. cbn [existsb]. intros H.
  apply orb_true_iff in H as [H | H];
    [|apply orb_true_iff in H as [H | H]; [|discriminate H]];
    apply String.eqb_eq in H; subst key; repeat split.
Qed.

(** X11.  The f and F keys toggle fullscreen and touch nothing else - leaving
    fullscreen always, entering it when the browser grants the request, never
    throwing - and no other event, timer callback or navigation call ever
    changes the fullscreen state. *)
Theorem fullscreen_is_independent (s : State) (e : Event) :
  (forall key granted, e = Keydown key granted ->
     key_in key ["f"; "F"]%string = true -> keydownBound s = true ->
     step e s
     = Returned (set_fullscreenElement (negb (fullscreenElement s) && granted) s))
  /\ ((forall key granted, e = Keydown key granted ->
         key_in key ["f"; "F"]%string = false) ->
      fullscreenElement (state_of (step e s)) = fullscreenElement s).
Proof.
  split.
  - intros key granted -> Hf Hk. cbn [step]. rewrite Hk. unfold handleKeydown.
    destruct (fullscreen_key key Hf) as (-> & -> & -> & ->). rewrite Hf.
    unfold toggleFullscreen. now destruct (fullscreenElement s).
  - intros Hnot.
    assert (Hn : fullscreenElement (state_of (next s)) = fullscreenElement s)
      by now rewrite next_is_goTo, goTo_fullscreen.
    assert (Hp : fullscreenElement (state_of (prev s)) = fullscreenElement s)
      by now rewrite prev_is_goTo, goTo_fullscreen.
    destruct e; cbn [step]; try assumption; try apply goTo_fullscreen.
    + destruct (domReady s); [reflexivity|].
      now destruct (onDOMContentLoaded_keeps (set_domReady true s)) as (_ & _ & _ & ->).
    + destruct (keydownBound s); [|reflexivity]. unfold handleKeydown.
      rewrite (Hnot key granted eq_refl).
      repeat match goal with
             | |- context [if key_in ?k ?l then _ else _] => destruct (key_in k l)
             end; try assumption; try apply goTo_fullscreen; try reflexivity.
      destruct (totalSections s); [apply goTo_fullscreen|].
      unfold goToNaN. destruct (isTransitioning s); [reflexivity|].
      cbv zeta. destruct (sectionAt _ _); reflexivity.
    + destruct (clickBound s); [|reflexivity]. unfold handleClick.
      repeat match goal with
             | |- context [if ?c then _ else _] => destruct c
             end; try assumption; reflexivity.
    + destruct (touchBound s); reflexivity.
    + destruct (touchBound s); [|reflexivity]. unfold touchend.
      repeat match goal with
             | |- context [if ?c then _ else _] => destruct c
             end; try assumption; reflexivity.
    + apply tick_fullscreen.
Qed.

Lemma fullscreen_is_independent_witness :
  step (Keydown "F" true) start5 = Returned (set_fullscreenElement true start5)
  /\ fullscreenElement (state_of (step (Keydown "End" true) start5)) = false.
Proof.
  split.
  - exact (proj1 (fullscreen_is_independent start5 (Keydown "F" true))
             "F"%string true eq_refl eq_refl eq_refl).
  - refine (proj2 (fullscreen_is_independent start5 (Keydown "End" true)) _).
    intros key granted [= <- <-]. reflexivity.
Defined.

(** *** Every transition completes *)

Lemma timely_frame s s' :
  timely s -> timers s' = timers s -> clock s' = clock s -> timely s'.
Proof. unfold timely. intros H -> ->. exact H. Qed.

Lemma timely_nothing_pending s : timers s = [] -> timely s.
Proof. unfold timely. intros -> t []. Qed.

Lemma timely_goTo index s : timely s -> timely (state_of (goTo index s)).
Proof.
  intros H.
  destruct ((index =? currentIndex s) || (index <? 0)
            || geq_num index (totalSections s) || isTransitioning s) eqn:Hg.
  { now rewrite goTo_guard. }
  rewrite (goTo_accepted _ _ Hg).
  destruct (sectionAt (currentIndex s) s) as [cur|]; cbn [state_of].
  - unfold timely. simpl_state. intros t Ht.
    apply in_app_or in Ht as [Ht | [<- | []]]; [now apply H|].
    cbn [due task delay_of]. lia.
  - now apply (timely_frame s).
Qed.

Lemma onDOMContentLoaded_time s :
  timers (state_of (onDOMContentLoaded s)) = timers s
  /\ clock (state_of (onDOMContentLoaded s)) = clock s.
Proof.
  destruct (slides s) as [|x l] eqn:Hsl.
  - rewrite onDOMContentLoaded_empty by exact Hsl. split; reflexivity.
  - rewrite onDOMContentLoaded_eq by now rewrite Hsl. split; reflexivity.
Qed.

Lemma timely_tick p s : Inv p s -> timely s -> timely (state_of (tick s)).
Proof.
  intros HI Ht. unfold Inv in HI.
  assert (Hnone : timers s = [] -> timely (state_of (tick s))).
  { intros Htm. rewrite (tick_nothing_pending _ Htm). now apply timely_nothing_pending. }
  destruct (domReady s).
  2:{ apply Hnone, HI. }
  destruct HI as (Htot & _ & Hrest).
  destruct (length (page_slides p)) as [|m] eqn:Hlen.
  { apply Hnone, Hrest. }
  destruct Hrest as (_ & _ & _ & _ & _ & _ & _ & Hph). unfold phase_ok in Hph.
  destruct (timers s) as [|t [|t' ts]] eqn:Htm; [now apply Hnone | | contradiction].
  rewrite (tick_single _ _ Htm). destruct Hph as [_ Hph].
  destruct (Ht t) as [Hlo Hhi]; [rewrite Htm; now left|].
  destruct (is_due (clock s + 1) t) eqn:Hdue.
  - destruct (task t) as [h i|] eqn:Htask; cbn [runTask].
    + destruct Hph as [(k & -> & -> & _) _].
      rewrite (showNext_eq k _ (Z.of_nat (S m))); [|exact Htot|lia].
      unfold timely. simpl_state. cbn [app]. intros u [<- | []].
      cbn [due task delay_of]. lia.
    + now apply timely_nothing_pending.
  - apply Z.leb_gt in Hdue. unfold timely. simpl_state.
    intros u [<- | []]. lia.
Qed.

Lemma timely_step p e s : Inv p s -> timely s -> timely (state_of (step e s)).
Proof.
  intros HI Ht.
  assert (Hn : timely (state_of (next s))) by (rewrite next_is_goTo; now apply timely_goTo).
  assert (Hp : timely (state_of (prev s))) by (rewrite prev_is_goTo; now apply timely_goTo).
  destruct e; cbn [step]; try assumption; try now apply timely_goTo.
  - destruct (domReady s); [assumption|].
    destruct (onDOMContentLoaded_time (set_domReady true s)) as [H1 H2].
    now apply (timely_frame s).
  - destruct (keydownBound s) eqn:Hk; [|assumption]. unfold handleKeydown.
    repeat match goal with
           | |- context [if key_in ?k ?l then _ else _] => destruct (key_in k l)
           end; try assumption; try now apply timely_goTo.
    + destruct (totalSections s) as [n|] eqn:Hn'; [now apply timely_goTo|].
      exfalso. unfold Inv, dormant in HI.
      destruct (domReady s); [destruct HI as [H _] | destruct HI as (_ & _ & _ & _ & H & _)];
        congruence.
    + unfold toggleFullscreen.
      destruct (negb (fullscreenElement s)); now apply (timely_frame s).
  - destruct (clickBound s); [|assumption]. unfold handleClick.
    repeat match goal with
           | |- context [if ?c then _ else _] => destruct c
           end; assumption.
  - destruct (touchBound s); [|assumption]. now apply (timely_frame s).
  - destruct (touchBound s); [|assumption]. unfold touchend.
    repeat match goal with
           | |- context [if ?c then _ else _] => destruct c
           end; assumption.
  - now apply (timely_tick p).
Qed.

Lemma timely_reachable p s : reachable p s -> timely s.
Proof.
  intros [evs ->].
  assert (H : forall s, Inv p s -> timely s -> timely (run evs s)).
  { induction evs as [|e evs IH]; intros s HI Ht; [exact Ht|].
    cbn [run]. apply IH; [now apply Inv_step | now apply (timely_step p)]. }
  apply H; [apply Inv_construct | now apply timely_nothing_pending].
Qed.

(** Once its time has come the pending release clears the lock, and nothing
    is pending after it. *)
Lemma release_fires (k : nat) s t :
  timers s = [t] -> task t = Release ->
  clock s < due t -> due t <= clock s + Z.of_nat k ->
  timers (elapse k s) = [] /\ isTransitioning (elapse k s) = false
  /\ currentIndex (elapse k s) = currentIndex s.
Proof.
  intros Htm Htask Hlo Hhi.
  remember (Z.to_nat (due t - clock s - 1)) as d eqn:Hd.
  replace k with (S d + (k - S d))%nat by lia.
  rewrite elapse_plus, (elapse_fires d s t Htm) by lia.
  rewrite Htask. cbn [runTask release state_of].
  rewrite elapse_idle by reflexivity. repeat split.
Qed.

(** X5.  Every transition completes: in every reachable state, 500 ms without
    input (or more) leave no callback pending; and if one was pending, the
    lock is released by then, with the index at the target of the pending
    activation. *)
Theorem transition_always_completes (p : Page) (s : State) (k : nat) :
  reachable p s -> (500 <= k)%nat ->
  timers (elapse k s) = []
  /\ (timers s <> [] -> isTransitioning (elapse k s) = false)
  /\ (forall t h i, In t (timers s) -> task t = ShowNext h i ->
        currentIndex (elapse k s) = i).
Proof.
  intros Hreach Hk.
  pose proof (timely_reachable p s Hreach) as Ht.
  apply Inv_reachable in Hreach. unfold Inv in Hreach.
  assert (Hnone : timers s = [] ->
            timers (elapse k s) = []
            /\ (timers s <> [] -> isTransitioning (elapse k s) = false)
            /\ (forall t h i, In t (timers s) -> task t = ShowNext h i ->
                  currentIndex (elapse k s) = i)).
  { intros Htm. rewrite (elapse_idle k s Htm), Htm.
    split; [exact Htm|]. split; [congruence | intros t h i []]. }
  destruct (domReady s).
  2:{ apply Hnone, Hreach. }
  destruct Hreach as (Htot & _ & Hrest).
  destruct (length (page_slides p)) as [|m] eqn:Hlen.
  { apply Hnone, Hrest. }
  destruct Hrest as (_ & _ & _ & _ & _ & _ & _ & Hph). unfold phase_ok in Hph.
  destruct (timers s) as [|t [|t' ts]] eqn:Htm; [now apply Hnone | | contradiction].
  destruct Hph as [_ Hph].
  destruct (Ht t) as [Hlo Hhi]; [rewrite Htm; now left|].
  destruct (task t) as [h i|] eqn:Htask; cbn [delay_of] in Hhi.
  - destruct Hph as [(j & -> & -> & _) _].
    remember (Z.to_nat (due t - clock s - 1)) as d eqn:Hd.
    replace k with (S d + (k - S d))%nat by lia.
    rewrite elapse_plus, (elapse_fires d s t Htm) by lia.
    rewrite Htask. cbn [runTask].
    rewrite (showNext_eq j _ (Z.of_nat (S m))); [|exact Htot|lia].
    cbn [state_of].
    match goal with
    | |- context [elapse _ ?b] =>
        destruct (release_fires (k - S d) b (mkTimer (due t + 300) Release))
          as (H1 & H2 & H3);
        [reflexivity | reflexivity | cbn; lia | cbn; lia |]
    end.
    split; [exact H1|]. split; [intros _; exact H2|].
    intros u h i [<- | []] Hu. rewrite Htask in Hu. injection Hu as _ <-. exact H3.
  - destruct (release_fires k s t Htm Htask Hlo) as (H1 & H2 & _); [lia|].
    split; [exact H1|]. split; [intros _; exact H2|].
    intros u h i [<- | []] Hu. congruence.
Qed.

Lemma transition_always_completes_witness :
  let s := run [Keydown "End" false; Tick; Tick; Tick; CallPrev] start5 in
  timers (elapse 500 s) = [] /\ isTransitioning (elapse 500 s) = false
  /\ currentIndex (elapse 500 s) = 4.
Proof.
  cbv zeta.
  destruct (transition_always_completes deck5
              (run [Keydown "End" false; Tick; Tick; Tick; CallPrev] start5) 500)
    as (H1 & H2 & H3).
  - apply reachable_run. exact reachable_start5.
  - lia.
  - split; [exact H1|]. split; [apply H2; vm_compute; discriminate|].
    apply (H3 (mkTimer 200 (ShowNext (Some 4%nat) 4)) (Some 4%nat) 4);
      [vm_compute; now left | reflexivity].
Defined.

(** *** Where an accepted request lands *)

Lemma reachable_elapse p k s : reachable p s -> reachable p (elapse k s).
Proof. apply reachable_run. Qed.

Lemma elapse_domReady k s : domReady s = true -> domReady (elapse k s) = true.
Proof. apply run_domReady. Qed.

Lemma idle_nothing_pending p s :
  reachable p s -> isTransitioning s = false -> timers s = [].
Proof.
  intros Hreach Hidle. apply Inv_reachable in Hreach. unfold Inv in Hreach.
  destruct (domReady s); [|apply Hreach].
  destruct Hreach as (_ & _ & Hrest).
  destruct (length (page_slides p)); [apply Hrest|].
  destruct Hrest as (_ & _ & _ & _ & _ & _ & _ & Hph). unfold phase_ok in Hph.
  destruct (timers s) as [|t [|t' ts]];
    [reflexivity | destruct Hph as [Hl _]; congruence | contradiction].
Qed.

Lemma goTo_lands p s target :
  reachable p s -> domReady s = true -> isTransitioning s = false ->
  0 <= target < Z.of_nat (length (page_slides p)) ->
  currentIndex (elapse 500 (state_of (goTo target s))) = target
  /\ isTransitioning (elapse 500 (state_of (goTo target s))) = false
  /\ timers (elapse 500 (state_of (goTo target s))) = [].
Proof.
  intros Hreach Hr Hidle Hrange.
  pose proof (idle_nothing_pending p s Hreach Hidle) as Htm.
  assert (Hne : page_slides p <> []) by (destruct (page_slides p); [cbn in Hrange; lia | discriminate]).
  destruct (live_of_reachable p s Hreach Hr Hne) as (Htot & Hsec & Hci & _).
  destruct (Z.eq_dec target (currentIndex s)) as [-> | Hother].
  - rewrite goTo_guard by (now rewrite Z.eqb_refl). cbn [state_of].
    rewrite (elapse_idle 500 s Htm). repeat split; assumption.
  - rewrite (transition_completes target _ (Z.to_nat (currentIndex s)) (Z.to_nat target) s
               Hidle Htm Htot Hrange Hother).
    + repeat split.
    + now apply (sectionAt_seq _ (length (page_slides p))).
    + now apply (sectionAt_seq _ (length (page_slides p))).
Qed.

(** X1.  From any idle state after document-ready, the Home key lands on
    section 0 and the End key on the last section, whatever the current
    index: 500 ms later that is the index, the lock is released and nothing is
    pending. *)
Theorem jump_keys_land (p : Page) (s : State) (granted : bool) :
  reachable p s -> domReady s = true -> page_slides p <> [] ->
  isTransitioning s = false ->
  let home := elapse 500 (run [Keydown "Home" granted] s) in
  let last := elapse 500 (run [Keydown "End" granted] s) in
  currentIndex home = 0 /\ isTransitioning home = false /\ timers home = []
  /\ currentIndex last = Z.of_nat (length (page_slides p)) - 1
  /\ isTransitioning last = false /\ timers last = [].
Proof.
  intros Hreach Hr Hne Hidle home last.
  destruct (live_of_reachable p s Hreach Hr Hne) as (Htot & _ & _ & Hk & _).
  assert (Hlen : 0 < Z.of_nat (length (page_slides p)))
    by (destruct (page_slides p); [contradiction | cbn [length]; lia]).
  subst home last. cbn [run step]. rewrite Hk.
  change (handleKeydown "Home" granted s) with (goTo 0 s).
  change (handleKeydown "End" granted s)
    with (match totalSections s with Some n => goTo (n - 1) s | None => goToNaN s end).
  rewrite Htot.
  destruct (goTo_lands p s 0 Hreach Hr Hidle) as (H1 & H2 & H3); [lia|].
  destruct (goTo_lands p s (Z.of_nat (length (page_slides p)) - 1) Hreach Hr Hidle)
    as (H4 & H5 & H6); [lia|].
  repeat split; assumption.
Qed.

Lemma jump_keys_land_witness :
  currentIndex (elapse 500 (run [Keydown "End" false] start5)) = 5 - 1
  /\ currentIndex (elapse 500 (run [Keydown "Home" false] start5)) = 0.
Proof.
  destruct (jump_keys_land deck5 start5 false reachable_start5)
    as (H1 & _ & _ & H4 & _).
  - vm_compute; reflexivity.
  - discriminate.
  - vm_compute; reflexivity.
  - split; [exact H4 | exact H1].
Defined.

Lemma round_trip p s s1 s2 :
  reachable p s -> domReady s = true -> isTransitioning s = false ->
  currentIndex s < Z.of_nat (length (page_slides p)) - 1 ->
  s1 = elapse 500 (state_of (goTo (currentIndex s + 1) s)) ->
  s2 = elapse 500 (state_of (goTo (currentIndex s1 - 1) s1)) ->
  currentIndex s1 = currentIndex s + 1
  /\ currentIndex s2 = currentIndex s
  /\ isTransitioning s2 = false /\ timers s2 = []
  /\ progressFill s2 = progressFill s /\ pageCounter s2 = pageCounter s
  /\ (clean p -> map active (slides s2) = map active (slides s)).
Proof.
  intros Hreach Hr Hidle Hlast Hs1 Hs2.
  assert (Hne : page_slides p <> []).
  { intros He. destruct (dormant_of_reachable p s Hreach He) as [(Hci0 & _) _].
    rewrite He in Hlast. cbn [length] in Hlast. lia. }
  destruct (live_of_reachable p s Hreach Hr Hne)
    as (Htot & _ & Hci & _ & _ & _ & Hl & Hpf & Hpc & Hph).
  assert (Hreach1 : reachable p s1).
  { rewrite Hs1. apply reachable_elapse, (reachable_run p [CallGoTo _]), Hreach. }
  assert (Hr1 : domReady s1 = true).
  { rewrite Hs1. apply elapse_domReady. now rewrite goTo_domReady. }
  assert (Hreach2 : reachable p s2).
  { rewrite Hs2. apply reachable_elapse, (reachable_run p [CallGoTo _]), Hreach1. }
  assert (Hr2 : domReady s2 = true).
  { rewrite Hs2. apply elapse_domReady. now rewrite goTo_domReady. }
  destruct (goTo_lands p s (currentIndex s + 1) Hreach Hr Hidle) as (H1 & H2 & H3); [lia|].
  rewrite <- Hs1 in H1, H2, H3.
  destruct (goTo_lands p s1 (currentIndex s1 - 1) Hreach1 Hr1 H2) as (H4 & H5 & H6); [lia|].
  rewrite <- Hs2 in H4, H5, H6.
  assert (Hback : currentIndex s2 = currentIndex s) by lia.
  destruct (live_of_reachable p s2 Hreach2 Hr2 Hne)
    as (_ & _ & _ & _ & _ & _ & Hl2 & Hpf2 & Hpc2 & Hph2).
  split; [exact H1|]. split; [exact Hback|].
  split; [exact H5|]. split; [exact H6|].
  split; [now rewrite Hpf2, Hpf, Hback|]. split; [now rewrite Hpc2, Hpc, Hback|].
  intros Hcl.
  pose proof (idle_nothing_pending p s Hreach Hidle) as Htm.
  unfold phase_ok in Hph, Hph2. rewrite Htm in Hph. rewrite H6 in Hph2.
  apply list_eq. intros j. rewrite !list_lookup_fmap.
  destruct (slides s !! j) as [x|] eqn:Hx.
  - destruct (lookup_lt_is_Some_2 (slides s2) j) as [y Hy].
    { rewrite Hl2, <- Hl. apply lookup_lt_is_Some_1. now exists x. }
    rewrite Hy. cbn [fmap option_fmap option_map]. f_equal.
    rewrite (Hph Hcl j x Hx), (Hph2 Hcl j y Hy). now rewrite Hback.
  - rewrite (lookup_ge_None_2 (slides s2) j); [reflexivity|].
    rewrite Hl2, <- Hl. now apply lookup_ge_None_1.
Qed.

(** X10.  Next and then previous is a round trip: from an idle state that is
    not on the last section, letting each transition finish brings the index
    back and both widgets back to what they showed; on a page with clean
    markup the same sections are active as before. *)
Theorem next_then_prev_returns (p : Page) (s : State) :
  reachable p s -> domReady s = true -> isTransitioning s = false ->
  currentIndex s < Z.of_nat (length (page_slides p)) - 1 ->
  let s1 := elapse 500 (run [CallNext] s) in
  let s2 := elapse 500 (run [CallPrev] s1) in
  currentIndex s1 = currentIndex s + 1
  /\ currentIndex s2 = currentIndex s
  /\ isTransitioning s2 = false /\ timers s2 = []
  /\ progressFill s2 = progressFill s /\ pageCounter s2 = pageCounter s
  /\ (clean p -> map active (slides s2) = map active (slides s)).
Proof.
  intros Hreach Hr Hidle Hlast s1 s2.
  apply (round_trip p s s1 s2 Hreach Hr Hidle Hlast).
  - apply (f_equal (elapse 500)). apply (f_equal state_of). apply next_is_goTo.
  - apply (f_equal (elapse 500)). apply (f_equal state_of). apply prev_is_goTo.
Qed.

Lemma next_then_prev_returns_witness :
  let s1 := elapse 500 (run [CallNext] start5) in
  let s2 := elapse 500 (run [CallPrev] s1) in
  currentIndex s1 = 1 /\ currentIndex s2 = 0 /\ pageCounter s2 = pageCounter start5.
Proof.
  cbv zeta.
  destruct (next_then_prev_returns deck5 start5 reachable_start5)
    as (H1 & H2 & _ & _ & _ & H6 & _).
  - vm_compute; reflexivity.
  - vm_compute; reflexivity.
  - vm_compute; reflexivity.
  - split; [exact H1|]. split; [exact H2 | exact H6].
Defined.

(** *** What a transition does to the sections *)

(** X3.  A completed transition restarts the animations of the target section
    exactly once and of no other section; it leaves the target active and the
    section it came from inactive, and touches no other section. *)
Theorem transition_replays_target_once (p : Page) (s : State) (target : Z) :
  reachable p s -> domReady s = true -> isTransitioning s = false ->
  0 <= target < Z.of_nat (length (page_slides p)) -> target <> currentIndex s ->
  forall (j : nat) (x : Slide), slides s !! j = Some x ->
    exists x' : Slide,
      slides (elapse 500 (state_of (goTo target s))) !! j = Some x'
      /\ replays x'
         = (if bool_decide (Z.of_nat j = target) then S (replays x) else replays x)
      /\ active x'
         = (if bool_decide (Z.of_nat j = target) then true
            else if bool_decide (Z.of_nat j = currentIndex s) then false
                 else active x).
Proof.
  intros Hreach Hr Hidle Hrange Hother j x Hx.
  pose proof (idle_nothing_pending p s Hreach Hidle) as Htm.
  assert (Hne : page_slides p <> [])
    by (destruct (page_slides p); [cbn in Hrange; lia | discriminate]).
  destruct (live_of_reachable p s Hreach Hr Hne) as (Htot & Hsec & Hci & _).
  rewrite (transition_completes target _ (Z.to_nat (currentIndex s)) (Z.to_nat target) s
             Hidle Htm Htot Hrange Hother
             (sectionAt_seq _ _ _ Hsec Hci) (sectionAt_seq _ _ _ Hsec Hrange)).
  cbn [slides].
  destruct (decide (Z.to_nat target = j)) as [Ht | Ht].
  - rewrite bool_decide_eq_true_2 by lia. subst j.
    rewrite !list_lookup_alter_eq, list_lookup_alter_ne, Hx by lia.
    eexists. split; [reflexivity|]. split; reflexivity.
  - rewrite bool_decide_eq_false_2 by lia.
    rewrite !(list_lookup_alter_ne _ _ (Z.to_nat target)) by exact Ht.
    destruct (decide (Z.to_nat (currentIndex s) = j)) as [Hc | Hc].
    + rewrite bool_decide_eq_true_2 by lia. subst j.
      rewrite list_lookup_alter_eq, Hx.
      eexists. split; [reflexivity|]. split; reflexivity.
    + rewrite bool_decide_eq_false_2 by lia.
      rewrite list_lookup_alter_ne, Hx by exact Hc.
      eexists. split; [reflexivity|]. split; reflexivity.
Qed.

Lemma transition_replays_target_once_witness :
  exists x' : Slide,
    slides (elapse 500 (state_of (goTo 3 start5))) !! 3%nat = Some x'
    /\ replays x' = (if bool_decide (Z.of_nat 3 = 3) then S 0 else 0%nat)
    /\ active x'
       = (if bool_decide (Z.of_nat 3 = 3) then true
          else if bool_decide (Z.of_nat 3 = currentIndex start5) then false
               else false).
Proof.
  apply (transition_replays_target_once deck5 start5 3 reachable_start5
           eq_refl eq_refl ltac:(cbn; lia) ltac:(discriminate) 3%nat (mkSlide false 0) eq_refl).
Defined.

(** *** The progress bar *)

Lemma percent_bounds (i n : Z) :
  0 <= i < n ->
  (0 < percent i n)%Q /\ (percent i n <= 100)%Q
  /\ ((percent i n == 100)%Q <-> i = n - 1).
Proof.
  intros Hi. unfold percent.
  destruct n as [|n|n]; try lia.
  unfold Qlt, Qle, Qeq, Qdiv, Qmult, Qinv, inject_Z. cbn.
  repeat split; try nia.
Qed.

(** X9.  From document-ready on, on a page with a progress bar and at least
    one section, the width of the fill is always a percentage above 0 and at
    most 100, and it is 100 exactly on the last section. *)
Theorem progress_within_bounds (p : Page) (s : State) :
  reachable p s -> domReady s = true -> page_slides p <> [] ->
  is_Some (page_fill p) ->
  exists q : Q,
    progressFill s = Some (Some q)
    /\ (0 < q)%Q /\ (q <= 100)%Q
    /\ ((q == 100)%Q <-> currentIndex s = Z.of_nat (length (page_slides p)) - 1).
Proof.
  intros Hreach Hr Hne [w Hw].
  destruct (live_of_reachable p s Hreach Hr Hne)
    as (_ & _ & Hci & _ & _ & _ & _ & Hpf & _).
  exists (percent (currentIndex s) (Z.of_nat (length (page_slides p)))).
  split; [now rewrite Hpf, Hw|].
  now apply percent_bounds.
Qed.

Lemma progress_within_bounds_witness :
  exists q : Q,
    progressFill (elapse 500 (run [Keydown "End" false] start5)) = Some (Some q)
    /\ (0 < q)%Q /\ (q <= 100)%Q
    /\ ((q == 100)%Q
        <-> currentIndex (elapse 500 (run [Keydown "End" false] start5))
            = Z.of_nat (length (page_slides deck5)) - 1).
Proof.
  apply (progress_within_bounds deck5).
  - apply reachable_elapse, reachable_run, reachable_start5.
  - vm_compute; reflexivity.
  - discriminate.
  - now eexists.
Defined.

(** ** The export script *)

Lemma all_inactive_cleared (l : list Slide) : all_inactive (map (with_active false) l).
Proof.
  intros j x Hx. rewrite list_lookup_fmap in Hx.
  destruct (l !! j); [|discriminate Hx]. injection Hx as <-. reflexivity.
Qed.

(** What the evaluated function leaves when section [idx] exists. *)
Lemma exportActivate_eq (idx : nat) (t : Tab) :
  (idx < length (slides (tab_state t)))%nat ->
  let s := tab_state t in
  let total := Z.of_nat (length (slides s)) in
  exportActivate idx t
  = Resolved
      (mkTab
         (mkState (sections s) (currentIndex s) (isTransitioning s) (totalSections s)
            (startX s) (startY s)
            (alter (with_active true) idx (map (with_active false) (slides s)))
            ((fun _ => Some (percent (Z.of_nat idx) total)) <$> progressFill s)
            ((fun _ => counterHTML (Z.of_nat idx) (Some total)) <$> pageCounter s)
            (fullscreenElement s) (keydownBound s) (clickBound s) (touchBound s)
            (domReady s) (clock s) (timers s))
         (forced t ++ [idx])).
Proof.
  intros Hidx. destruct t as [s f]. cbn [tab_state forced] in *.
  destruct s as [sec ci lock tot sx sy sl pf pc fs kb cb tb dr ck tm].
  cbn [slides] in Hidx. cbv zeta. unfold exportActivate.
  cbn [tab_state forced]. run_state.
  destruct (lookup_lt_is_Some_2 (map (with_active false) sl) idx) as [x Hx];
    [now rewrite length_map|].
  change (map (with_active false) sl) with (with_active false <$> sl) in *.
  rewrite Hx. destruct pf, pc; reflexivity.
Qed.

Lemma exportActivate_missing (idx : nat) (t : Tab) :
  (length (slides (tab_state t)) <= idx)%nat ->
  exportActivate idx t
  = Rejected (mkTab (set_slides (map (with_active false) (slides (tab_state t)))
                       (tab_state t))
                (forced t)).
Proof.
  intros Hidx. unfold exportActivate. cbv zeta. cbn [set_slides slides].
  rewrite (lookup_ge_None_2 (map (with_active false) (slides (tab_state t))) idx);
    [reflexivity|].
  now rewrite length_map.
Qed.

Lemma same_presence {A B C} (c : C) (o : option A) (o' : option B) :
  (is_Some o <-> is_Some o') -> (fun _ => c) <$> o = (fun _ => c) <$> o'.
Proof.
  intros [H1 H2]. destruct o, o'; try reflexivity.
  - destruct H1 as [? [=]]. now eexists.
  - destruct H2 as [? [=]]. now eexists.
Qed.

Lemma presence_fmap {A B} (f : A -> B) (o : option A) :
  is_Some (f <$> o) <-> is_Some o.
Proof. destruct o; split; intros [x Hx]; try discriminate Hx; now eexists. Qed.

Lemma capture_step (base : string) (t0 : Tab) (i : nat) (t : Tab) :
  capture_inv t0 t -> (i < length (slides (tab_state t0)))%nat ->
  exists t1,
    exportActivate i t = Resolved t1
    /\ capture_inv t0 (mkTab (elapse 300 (tab_state t1)) (forced t1))
    /\ shows_section base t0 i
         (mkShot (shotName base i) (mkTab (elapse 300 (tab_state t1)) (forced t1))).
Proof.
  intros (Hlen & Htm & Hci & Hpf & Hpc) Hi.
  eexists. split; [apply exportActivate_eq; now rewrite Hlen|].
  cbn [tab_state forced]. rewrite elapse_idle by exact Htm.
  assert (Hone : only_active (Z.of_nat i)
                   (alter (with_active true) i (map (with_active false) (slides (tab_state t)))))
    by apply only_active_show, all_inactive_cleared.
  split.
  - unfold capture_inv.
    cbn [tab_state set_clock slides timers currentIndex progressFill pageCounter].
    rewrite length_alter, length_map, !presence_fmap.
    repeat split; try assumption; try apply Hpf; apply Hpc.
  - unfold shows_section. cbv zeta.
    cbn [tab_state forced shot_view shot_name set_clock slides timers currentIndex
         progressFill pageCounter].
    rewrite Hlen.
    split; [reflexivity|]. split; [exact Hone|].
    split.
    { apply (count_active_only _ (Z.of_nat i)); [exact Hone|].
      rewrite length_alter, length_map, Hlen. lia. }
    split; [apply in_or_app; right; now left|].
    split; [now apply same_presence|]. split; [now apply same_presence | exact Hci].
Qed.

Lemma capture_loop (base : string) (t0 : Tab) (todo : list nat)
    (screenshots : list Shot) (t : Tab) :
  capture_inv t0 t -> Forall (fun i => (i < length (slides (tab_state t0)))%nat) todo ->
  exists more t',
    captureSections base todo screenshots t = Shots (screenshots ++ more) t'
    /\ length more = length todo
    /\ forall k shot, more !! k = Some shot ->
         exists i, todo !! k = Some i /\ shows_section base t0 i shot.
Proof.
  revert screenshots t. induction todo as [|i todo IH]; intros screenshots t Hinv Hall.
  - exists [], t. cbn [captureSections]. rewrite app_nil_r.
    split; [reflexivity|]. split; [reflexivity|]. intros k shot Hk. discriminate Hk.
  - apply Forall_cons in Hall as [Hi Hall].
    destruct (capture_step base t0 i t Hinv Hi) as (t1 & Hact & Hinv1 & Hshot).
    cbn [captureSections]. rewrite Hact.
    destruct (IH (screenshots ++ [mkShot (shotName base i)
                                   (mkTab (elapse 300 (tab_state t1)) (forced t1))])
                (mkTab (elapse 300 (tab_state t1)) (forced t1)) Hinv1 Hall)
      as (more & t' & Hrun & Hlen & Hmore).
    eexists (_ :: more), t'. rewrite Hrun, <- app_assoc.
    split; [reflexivity|]. split; [cbn [length]; now rewrite Hlen|].
    intros [|k] shot Hk.
    + injection Hk as <-. exists i. split; [reflexivity | exact Hshot].
    + apply (Hmore k shot Hk).
Qed.

(** X12.  On a page with nothing pending, whatever its sections' flags are,
    [captureSlide] never fails and takes one screenshot per section, in order
    and named after it; when screenshot k is taken exactly section k is
    active, its animations have been forced to their end, the progress bar and
    the counter (where the page has them) show what the engine computes for
    index k, and the engine's own index has not moved. *)
Theorem capture_shows_each_section (base : string) (t : Tab) :
  timers (tab_state t) = [] ->
  exists shots t',
    captureSlide base t = Shots shots t'
    /\ length shots = length (slides (tab_state t))
    /\ forall k shot, shots !! k = Some shot -> shows_section base t k shot.
Proof.
  intros Htm.
  destruct (capture_loop base t (seq 0 (length (slides (tab_state t)))) [] t)
    as (more & t' & Hrun & Hlen & Hmore).
  - unfold capture_inv. repeat split; try assumption; intros H; exact H.
  - apply Forall_forall. intros i Hi. apply elem_of_seq in Hi. lia.
  - exists more, t'. split; [exact Hrun|]. split; [now rewrite Hlen, length_seq|].
    intros k shot Hk. destruct (Hmore k shot Hk) as (i & Hi & Hshot).
    apply lookup_seq in Hi as [-> _]. exact Hshot.
Qed.

Lemma capture_shows_each_section_witness :
  exists shots t',
    captureSlide "slide05-cv-website" (openPage premarked) = Shots shots t'
    /\ length shots = length (slides (tab_state (openPage premarked)))
    /\ forall k shot, shots !! k = Some shot ->
         shows_section "slide05-cv-website" (openPage premarked) k shot.
Proof.
  apply (capture_shows_each_section "slide05-cv-website" (openPage premarked)).
  vm_compute; reflexivity.
Defined.

(** *** Screenshot names *)

Lemma to_int_nonnil (z : Z) :
  Z.to_int z <> Decimal.Pos Decimal.Nil /\ Z.to_int z <> Decimal.Neg Decimal.Nil.
Proof.
  destruct z as [|q|q]; cbn [Z.to_int]; split; try discriminate;
    intros [= H]; now apply (DecimalPos.Unsigned.to_uint_nonnil q).
Qed.

Lemma read_show (z : Z) : read_number (show_Z z) = Some z.
Proof.
  unfold read_number, show_Z.
  destruct (to_int_nonnil z) as [H1 H2].
  rewrite NilZero.isi by assumption.
  cbn [fmap option_fmap option_map]. now rewrite DecimalZ.of_to.
Qed.

Lemma show_Z_inj (a b : Z) : show_Z a = show_Z b -> a = b.
Proof.
  intros H. apply (f_equal read_number) in H. rewrite !read_show in H. congruence.
Qed.

Lemma digits_first (d : Decimal.uint) (c : ascii) (rest : string) :
  NilEmpty.string_of_uint d = String c rest -> Ascii.eqb c "-" = false.
Proof. destruct d; cbn; intros [= <- _]; reflexivity. Qed.

Lemma show_first (z : Z) (c : ascii) (rest : string) :
  0 <= z -> show_Z z = String c rest -> Ascii.eqb c "-" = false.
Proof.
  intros Hz. unfold show_Z.
  destruct z as [|q|q]; [| |lia]; cbn [Z.to_int NilZero.string_of_int].
  - intros [= <- _]. reflexivity.
  - unfold NilZero.string_of_uint.
    destruct (Pos.to_uint q) eqn:Hq;
      [now destruct (DecimalPos.Unsigned.to_uint_nonnil q)| ..];
      apply digits_first.
Qed.

(** A zero in front does not change the number read. *)
Lemma read_leading_zero (c : ascii) (rest : string) :
  Ascii.eqb c "-" = false ->
  read_number (String "0" (String c rest)) = read_number (String c rest).
Proof.
  intros Hc. unfold read_number, NilZero.int_of_string, NilZero.uint_of_string.
  rewrite Hc. cbn [Ascii.eqb Bool.eqb NilEmpty.uint_of_string].
  destruct (uint_of_char c (NilEmpty.uint_of_string rest)) as [d|]; reflexivity.
Qed.

Lemma read_padded (z : Z) : 0 <= z -> read_number (padStart2 (show_Z z)) = Some z.
Proof.
  intros Hz. pose proof (read_show z) as Hread. unfold padStart2.
  destruct (show_Z z) as [|c rest] eqn:Hs; [discriminate Hread|].
  cbn [String.length].
  destruct (String.length rest); [|exact Hread].
  rewrite read_leading_zero; [exact Hread|].
  now apply (show_first z c rest).
Qed.

Lemma append_inv_l (a b c : string) : (a ++ b = a ++ c -> b = c)%string.
Proof. induction a as [|x a IH]; cbn; [easy|]. intros [= H]. now apply IH. Qed.

Lemma append_length (a b : string) :
  String.length (a ++ b) = (String.length a + String.length b)%nat.
Proof. induction a as [|x a IH]; cbn; [reflexivity|]. now rewrite IH. Qed.

Lemma append_inv_r (a b c : string) : (a ++ c = b ++ c -> a = b)%string.
Proof.
  revert b. induction a as [|x a IH]; intros [|y b] H; cbn in H.
  - reflexivity.
  - apply (f_equal String.length) in H. cbn in H. rewrite append_length in H. lia.
  - apply (f_equal String.length) in H. cbn in H. rewrite append_length in H. lia.
  - injection H as -> H. f_equal. now apply IH.
Qed.

Lemma shotName_inj (base : string) (i j : nat) :
  shotName base i = shotName base j -> i = j.
Proof.
  unfold shotName. intros H.
  apply append_inv_l, append_inv_l in H.
  apply append_inv_r in H.
  apply (f_equal read_number) in H. rewrite !read_padded in H by lia.
  injection H as H. lia.
Qed.

(** X13.  The screenshots [captureSlide] takes of one slide file all have
    different file names, so none overwrites another; the two-digit number in
    the name of screenshot i reads back as i + 1, also beyond 99 sections. *)
Theorem screenshot_names_distinct (base : string) (t : Tab) (shots : list Shot) (t' : Tab) :
  timers (tab_state t) = [] -> captureSlide base t = Shots shots t' ->
  NoDup (map shot_name shots)
  /\ (forall i shot, shots !! i = Some shot ->
        shot_name shot = shotName base i
        /\ read_number (padStart2 (show_Z (Z.of_nat i + 1))) = Some (Z.of_nat i + 1))
  /\ forall i j, shotName base i = shotName base j -> i = j.
Proof.
  intros Htm Hcap.
  destruct (capture_loop base t (seq 0 (length (slides (tab_state t)))) [] t)
    as (more & t'' & Hrun & Hlen & Hmore).
  { unfold capture_inv. repeat split; try assumption; intros H; exact H. }
  { apply Forall_forall. intros i Hi. apply elem_of_seq in Hi. lia. }
  unfold captureSlide in Hcap. cbv zeta in Hcap. rewrite Hrun in Hcap.
  injection Hcap as <- <-. cbn [app].
  assert (Hname : forall i shot, more !! i = Some shot -> shot_name shot = shotName base i).
  { intros i shot Hi. destruct (Hmore i shot Hi) as (k & Hk & Hshot & _).
    apply lookup_seq in Hk as [-> _]. exact Hshot. }
  split; [|split].
  - apply NoDup_alt. intros i j name Hi Hj.
    change (map shot_name more) with (shot_name <$> more) in Hi, Hj.
    rewrite list_lookup_fmap in Hi, Hj.
    destruct (more !! i) as [si|] eqn:Hsi; [|discriminate Hi].
    destruct (more !! j) as [sj|] eqn:Hsj; [|discriminate Hj].
    injection Hi as Hi. injection Hj as Hj.
    apply (shotName_inj base). rewrite <- (Hname i si Hsi), <- (Hname j sj Hsj). congruence.
  - intros i shot Hi. split; [now apply Hname | apply read_padded; lia].
  - apply shotName_inj.
Qed.

Lemma screenshot_names_distinct_witness :
  NoDup (map shot_name
           match captureSlide "s" (openPage premarked) with
           | Shots shots _ => shots
           | CaptureFailed _ => []
           end).
Proof.
  destruct (captureSlide "s" (openPage premarked)) as [shots t'|t'] eqn:Hcap;
    [|constructor].
  refine (proj1 (screenshot_names_distinct "s" (openPage premarked) shots t' _ Hcap)).
  vm_compute; reflexivity.
Defined.

Example screenshot_names :
  map (shotName "slide05-cv-website") [0; 8; 9; 99]%nat
  = ["slide05-cv-website_section01.png"; "slide05-cv-website_section09.png";
     "slide05-cv-website_section10.png"; "slide05-cv-website_section100.png"]%string.
Proof. vm_compute; reflexivity. Qed.


(** *** The export shows what the engine shows *)

Lemma openPage_ready (p : Page) :
  reachable p (tab_state (openPage p))
  /\ domReady (tab_state (openPage p)) = true
  /\ timers (tab_state (openPage p)) = [].
Proof.
  cbn [openPage tab_state].
  assert (Hreach : reachable p (run [DOMContentLoaded] (construct p)))
    by (eexists; reflexivity).
  assert (Hr : domReady (run [DOMContentLoaded] (construct p)) = true).
  { cbn [run step construct domReady]. unfold and_then.
    destruct (slides (set_domReady true (construct p))) as [|x l] eqn:Hsl.
    - rewrite onDOMContentLoaded_empty by exact Hsl. reflexivity.
    - rewrite onDOMContentLoaded_eq by now rewrite Hsl. reflexivity. }
  assert (Htm : timers (run [DOMContentLoaded] (construct p)) = []).
  { cbn [run step construct domReady].
    now destruct (onDOMContentLoaded_time (set_domReady true (construct p))) as [-> _]. }
  split; [now apply reachable_elapse|]. split; [now apply elapse_domReady|].
  now rewrite (elapse_idle 800 _ Htm).
Qed.

Lemma capture_agrees (p : Page) (base : string) (t0 : Tab)
    (shots : list Shot) (t' : Tab) (k : nat) (shot : Shot) (s : State) :
  reachable p (tab_state t0) -> domReady (tab_state t0) = true ->
  timers (tab_state t0) = [] ->
  captureSlide base t0 = Shots shots t' -> shots !! k = Some shot ->
  reachable p s -> domReady s = true -> currentIndex s = Z.of_nat k ->
  progressFill (tab_state (shot_view shot)) = progressFill s
  /\ pageCounter (tab_state (shot_view shot)) = pageCounter s
  /\ (clean p -> in_delay_window s = false ->
      forall j x x', slides (tab_state (shot_view shot)) !! j = Some x ->
        slides s !! j = Some x' -> active x = active x').
Proof.
  intros Hreach0 Hr0 Htm0 Hcap Hk Hreach Hr Hci.
  destruct (capture_loop base t0 (seq 0 (length (slides (tab_state t0)))) [] t0)
    as (more & t'' & Hrun & Hlen & Hmore).
  { unfold capture_inv. repeat split; try assumption; intros H; exact H. }
  { apply Forall_forall. intros i Hi. apply elem_of_seq in Hi. lia. }
  unfold captureSlide in Hcap. rewrite Hrun in Hcap.
  injection Hcap as <- <-.
  destruct (Hmore k shot Hk) as (i & Hi & _ & Hone & _ & _ & Hpf & Hpc & _).
  apply lookup_seq in Hi as [Hik Hlt]. rewrite Nat.add_0_l in Hik. subst i.
  assert (Hne : page_slides p <> []).
  { intros He.
    destruct (dormant_of_reachable p _ Hreach0 He) as [(_ & _ & _ & _ & _ & Hsl & _) _].
    rewrite Hsl, He in Hlt. cbn [length] in Hlt. lia. }
  destruct (live_of_reachable p _ Hreach0 Hr0 Hne)
    as (_ & _ & _ & _ & _ & _ & Hl0 & Hpf0 & Hpc0 & _).
  destruct (live_of_reachable p s Hreach Hr Hne)
    as (_ & _ & _ & _ & _ & _ & Hl & Hpfs & Hpcs & Hph).
  rewrite Hl0 in Hpf, Hpc.
  split; [|split].
  - rewrite Hpf, Hpf0, Hpfs, Hci. now destruct (page_fill p).
  - rewrite Hpc, Hpc0, Hpcs, Hci. now destruct (page_counter p).
  - intros Hcl Hwin j x x' Hx Hx'.
    assert (Hs : only_active (Z.of_nat k) (slides s)).
    { rewrite <- Hci. unfold phase_ok, in_delay_window in *.
      destruct (timers s) as [|t [|u ts]]; [now apply Hph | | contradiction].
      destruct Hph as [_ Hph]. cbn [existsb] in Hwin.
      destruct (task t); [discriminate Hwin | now apply Hph]. }
    now rewrite (Hone j x Hx), (Hs j x' Hx').
Qed.

(** X14.  The screenshot of section k shows the progress bar and the counter
    exactly as the running engine shows them whenever its index is k; and
    outside the engine's delay window, on clean markup, every section is
    active in the screenshot exactly when it is active in the engine. *)
Theorem export_agrees_with_engine
    (p : Page) (base : string) (shots : list Shot) (t' : Tab)
    (k : nat) (shot : Shot) (s : State) :
  captureSlide base (openPage p) = Shots shots t' -> shots !! k = Some shot ->
  reachable p s -> domReady s = true -> currentIndex s = Z.of_nat k ->
  progressFill (tab_state (shot_view shot)) = progressFill s
  /\ pageCounter (tab_state (shot_view shot)) = pageCounter s
  /\ (clean p -> in_delay_window s = false ->
      forall j x x', slides (tab_state (shot_view shot)) !! j = Some x ->
        slides s !! j = Some x' -> active x = active x').
Proof.
  destruct (openPage_ready p) as (Hreach0 & Hr0 & Htm0).
  now apply capture_agrees.
Qed.

Lemma export_agrees_with_engine_witness :
  exists shots t' shot,
    captureSlide "s" (openPage deck5) = Shots shots t'
    /\ shots !! 1%nat = Some shot
    /\ progressFill (tab_state (shot_view shot))
       = progressFill (elapse 500 (run [CallNext] start5))
    /\ pageCounter (tab_state (shot_view shot))
       = pageCounter (elapse 500 (run [CallNext] start5)).
Proof.
  destruct (captureSlide "s" (openPage deck5)) as [shots t'|t'] eqn:Hcap;
    [|vm_compute in Hcap; discriminate Hcap].
  destruct (shots !! 1%nat) as [shot|] eqn:Hk;
    [|apply (f_equal (fun c => match c with
                               | Shots l _ => l !! 1%nat
                               | CaptureFailed _ => None
                               end)) in Hcap;
      cbv beta iota in Hcap; rewrite Hk in Hcap;
      vm_compute in Hcap; discriminate Hcap].
  exists shots, t', shot. split; [reflexivity|]. split; [exact Hk|].
  assert (Hreach : reachable deck5 (elapse 500 (run [CallNext] start5))).
  { apply reachable_elapse, reachable_run, reachable_start5. }
  assert (Hr : domReady (elapse 500 (run [CallNext] start5)) = true)
    by (vm_compute; reflexivity).
  assert (Hci : currentIndex (elapse 500 (run [CallNext] start5)) = Z.of_nat 1)
    by (vm_compute; reflexivity).
  destruct (export_agrees_with_engine deck5 "s" shots t' 1 shot _ Hcap Hk Hreach Hr Hci)
    as (H1 & H2 & _).
  split; [exact H1 | exact H2].
Defined.

(** *** Requests act only through the delayed callback *)

Lemma hides_only_refl s : hides_only s s.
Proof.
  repeat split. intros j x' Hx. exists x'. repeat split; [exact Hx | tauto].
Qed.

Lemma hides_only_frame s s' :
  currentIndex s' = currentIndex s -> progressFill s' = progressFill s ->
  pageCounter s' = pageCounter s -> totalSections s' = totalSections s ->
  sections s' = sections s -> clock s' = clock s -> slides s' = slides s ->
  hides_only s s'.
Proof.
  intros H1 H2 H3 H4 H5 H6 H7. unfold hides_only. rewrite H7.
  repeat split; try assumption. intros j x' Hx. exists x'. repeat split; [exact Hx | tauto].
Qed.

Lemma hides_only_remove (h : nat) (f : Task) (ms : Z) s :
  hides_only s (setTimeout f ms (classList_remove h (set_isTransitioning true s))).
Proof.
  destruct s as [sec ci lock tot sx sy sl pf pc fs kb cb tb dr ck tm].
  unfold hides_only, setTimeout, classList_remove. run_state.
  rewrite length_alter. repeat split.
  intros j x' Hx. destruct (decide (j = h)) as [->|Hne].
  - rewrite list_lookup_alter_eq in Hx.
    destruct (sl !! h) as [x|]; [|discriminate Hx].
    injection Hx as <-. exists x.
    split; [reflexivity|]. split; [reflexivity|]. cbn [with_active active]. discriminate.
  - rewrite list_lookup_alter_ne in Hx by congruence.
    exists x'. repeat split; [exact Hx | tauto].
Qed.

Lemma hides_only_goTo index s : hides_only s (state_of (goTo index s)).
Proof.
  unfold goTo.
  destruct ((index =? currentIndex s) || (index <? 0)
            || geq_num index (totalSections s) || isTransitioning s);
    [apply hides_only_refl|].
  cbv zeta. destruct (sectionAt _ _) as [cur|]; cbn [state_of].
  - apply hides_only_remove.
  - now apply hides_only_frame.
Qed.

Lemma hides_only_goToNaN s : hides_only s (state_of (goToNaN s)).
Proof.
  unfold goToNaN. destruct (isTransitioning s); [apply hides_only_refl|].
  cbv zeta. destruct (sectionAt _ _) as [cur|]; cbn [state_of].
  - apply hides_only_remove.
  - now apply hides_only_frame.
Qed.

Lemma hides_only_handleKeydown key granted s :
  hides_only s (state_of (handleKeydown key granted s)).
Proof.
  unfold handleKeydown.
  destruct (key_in key _); [rewrite next_is_goTo; apply hides_only_goTo|].
  destruct (key_in key _); [rewrite prev_is_goTo; apply hides_only_goTo|].
  destruct (key_in key _); [apply hides_only_goTo|].
  destruct (key_in key _).
  { destruct (totalSections s); [apply hides_only_goTo | apply hides_only_goToNaN]. }
  destruct (key_in key _); [|apply hides_only_refl].
  cbn [state_of]. unfold toggleFullscreen.
  destruct (negb (fullscreenElement s)); now apply hides_only_frame.
Qed.

(** X15.  A key, click, touch or direct call never moves the index, rewrites
    a widget, or shows or replays a section by itself: at most it hides one
    section; everything else of a transition happens in the callbacks, as
    time passes. *)
Theorem requests_only_hide (s : State) (e : Event) :
  e <> Tick -> e <> DOMContentLoaded -> hides_only s (state_of (step e s)).
Proof.
  intros HT HD. destruct e as [|key granted|c|x y|x y| | | |index];
    try contradiction; cbn [step].
  - destruct (keydownBound s); [apply hides_only_handleKeydown | apply hides_only_refl].
  - destruct (clickBound s); [|apply hides_only_refl].
    unfold handleClick. destruct (onControl c); [apply hides_only_refl|]. cbv zeta.
    destruct (Qgtb _ _); [rewrite next_is_goTo; apply hides_only_goTo|].
    destruct (Qltb _ _); [rewrite prev_is_goTo; apply hides_only_goTo|].
    apply hides_only_refl.
  - destruct (touchBound s); [|apply hides_only_refl].
    cbn [touchstart state_of]. now apply hides_only_frame.
  - destruct (touchBound s); [|apply hides_only_refl].
    unfold touchend. cbv zeta. destruct (_ && _); [|apply hides_only_refl].
    destruct (Qgtb _ _); [rewrite next_is_goTo | rewrite prev_is_goTo];
      apply hides_only_goTo.
  - rewrite next_is_goTo. apply hides_only_goTo.
  - rewrite prev_is_goTo. apply hides_only_goTo.
  - apply hides_only_goTo.
Qed.

Lemma requests_only_hide_witness :
  hides_only start5 (state_of (step (Keydown "ArrowRight" false) start5)).
Proof.
  apply (requests_only_hide start5 (Keydown "ArrowRight" false)); discriminate.
Defined.

(** *** A screenshot name tells the slide file and the section *)

Lemma digits_plain (d : Decimal.uint) :
  ~ In "_"%char (list_ascii_of_string (NilEmpty.string_of_uint d)).
Proof.
  induction d; cbn [NilEmpty.string_of_uint list_ascii_of_string In];
    [intros [] | ..]; (intros [H | H]; [discriminate H | auto]).
Qed.

Lemma show_Z_plain (z : Z) : 0 <= z -> ~ In "_"%char (list_ascii_of_string (show_Z z)).
Proof.
  intros Hz. unfold show_Z.
  destruct z as [|q|q]; [| |lia]; cbn [Z.to_int NilZero.string_of_int].
  - cbn. intros [H | []]. discriminate H.
  - unfold NilZero.string_of_uint.
    destruct (Pos.to_uint q); try apply digits_plain.
    cbn. intros [H | []]. discriminate H.
Qed.

Lemma padStart2_plain (s : string) :
  ~ In "_"%char (list_ascii_of_string s) ->
  ~ In "_"%char (list_ascii_of_string (padStart2 s)).
Proof.
  intros Hs. unfold padStart2. destruct (String.length s) as [|[|n]]; [| |exact Hs].
  - cbn. intros [H | [H | []]]; discriminate H.
  - cbn [list_ascii_of_string In]. intros [H | H]; [discriminate H | auto].
Qed.

Lemma in_append (c : ascii) (a b : string) :
  In c (list_ascii_of_string b) -> In c (list_ascii_of_string (a ++ b)).
Proof. intros H. induction a as [|x a IH]; cbn; [exact H | now right]. Qed.

(** The text after the last underscore, and the text before it. *)
Lemma last_underscore (a b x y : string) :
  ~ In "_"%char (list_ascii_of_string x) -> ~ In "_"%char (list_ascii_of_string y) ->
  (a ++ String "_" x = b ++ String "_" y)%string -> a = b /\ x = y.
Proof.
  intros Hx Hy. revert b. induction a as [|c a IH]; intros [|c' b] H; cbn in H.
  - injection H as H. now split.
  - injection H as <- H. exfalso. apply Hx. subst x. apply in_append. cbn. now left.
  - injection H as -> H. exfalso. apply Hy. subst y. apply in_append. cbn. now left.
  - injection H as <- H. destruct (IH b H) as [-> ->]. now split.
Qed.

(** X16.  The name of a screenshot determines both the slide file it came
    from and the section: screenshots of different files, which all go to the
    same directory, never overwrite each other, whatever the base names. *)
Theorem screenshot_name_decodes (base base' : string) (i j : nat) :
  shotName base i = shotName base' j <-> base = base' /\ i = j.
Proof.
  split; [|now intros [-> ->]].
  unfold shotName. intros H.
  change ("_section" ++ padStart2 (show_Z (Z.of_nat i + 1)) ++ ".png")%string
    with (String "_" ("section" ++ padStart2 (show_Z (Z.of_nat i + 1)) ++ ".png"))%string in H.
  change ("_section" ++ padStart2 (show_Z (Z.of_nat j + 1)) ++ ".png")%string
    with (String "_" ("section" ++ padStart2 (show_Z (Z.of_nat j + 1)) ++ ".png"))%string in H.
  assert (Hplain : forall k : nat,
             ~ In "_"%char (list_ascii_of_string
                  ("section" ++ padStart2 (show_Z (Z.of_nat k + 1)) ++ ".png")%string)).
  { intros k Hin.
    assert (Hk := padStart2_plain _ (show_Z_plain (Z.of_nat k + 1) ltac:(lia))).
    revert Hin Hk. generalize (padStart2 (show_Z (Z.of_nat k + 1))). intros d Hin Hd.
    cbn [append list_ascii_of_string In] in Hin.
    repeat (destruct Hin as [Hin | Hin]; [discriminate Hin|]).
    clear - Hin Hd. induction d as [|c d IH]; cbn [append list_ascii_of_string In] in *.
    - repeat (destruct Hin as [Hin | Hin]; [discriminate Hin|]). exact Hin.
    - destruct Hin as [Hin | Hin]; [apply Hd; now left|].
      apply IH; [exact Hin | intros H; apply Hd; now right]. }
  destruct (last_underscore _ _ _ _ (Hplain i) (Hplain j) H) as [-> Hd].
  split; [reflexivity|].
  apply append_inv_l, append_inv_r in Hd.
  apply (f_equal read_number) in Hd. rewrite !read_padded in Hd by lia.
  injection Hd as Hd. lia.
Qed.

(** ** The binary64 engine *)

(** *** It refines the exact engine *)

Ltac double_state :=
  cbv beta iota zeta delta
    [Double.setTimeout Double.classList_add Double.classList_remove
     Double.animateSection Double.setupTouch Double.updateProgress
     Double.updateCounter Double.showNext Double.release Double.sectionAt
     Double.set_sections Double.set_currentIndex Double.set_isTransitioning
     Double.set_totalSections Double.set_start Double.set_slides
     Double.set_progressFill Double.set_pageCounter Double.set_fullscreenElement
     Double.set_keydownBound Double.set_clickBound Double.set_touchBound
     Double.set_domReady Double.set_clock Double.set_timers
     Double.sections Double.currentIndex Double.isTransitioning
     Double.totalSections Double.startX Double.startY Double.slides
     Double.progressFill Double.pageCounter Double.fullscreenElement
     Double.keydownBound Double.clickBound Double.touchBound Double.domReady
     Double.clock Double.timers Double.state_of Double.threw
     setTimeout classList_add classList_remove animateSection setupTouch
     updateProgress updateCounter showNext release sectionAt
     set_sections set_currentIndex set_isTransitioning set_totalSections
     set_start set_slides set_progressFill set_pageCounter
     set_fullscreenElement set_keydownBound set_clickBound set_touchBound
     set_domReady set_clock set_timers
     sections currentIndex isTransitioning totalSections startX startY slides
     progressFill pageCounter fullscreenElement keydownBound clickBound
     touchBound domReady clock timers state_of threw present matching matches].

Ltac side_by_side d s H :=
  destruct d as [sec ci lock tot sx sy sl pf pc fs kb cb tb dr ck tm];
  destruct s as [sec' ci' lock' tot' sx' sy' sl' pf' pc' fs' kb' cb' tb' dr' ck' tm'];
  revert H; double_state;
  intros (<- & <- & <- & <- & <- & H & <- & <- & <- & <- & <- & <- & <- & <-).

Ltac split_cases :=
  repeat match goal with
         | |- context [if ?c then _ else _] =>
             match type of c with bool => destruct c end
         | |- context [match ?c with Some _ => _ | None => _ end] =>
             match type of c with option _ => destruct c end
         end.

Lemma matching_returned d s : matches d s -> matching (Double.Returned d) (Returned s).
Proof. intros H. split; [reflexivity | exact H]. Qed.

Lemma sim_goTo index d s :
  matches d s -> matching (Double.goTo index d) (goTo index s).
Proof.
  intros H. side_by_side d s H. unfold Double.goTo, goTo. double_state.
  split_cases; double_state; repeat split; try reflexivity; try exact H;
    try discriminate H.
Qed.

Lemma sim_goToNaN d s : matches d s -> matching (Double.goToNaN d) (goToNaN s).
Proof.
  intros H. side_by_side d s H. unfold Double.goToNaN, goToNaN. double_state.
  split_cases; double_state; repeat split; try reflexivity; try exact H;
    try discriminate H.
Qed.

Lemma sim_next d s : matches d s -> matching (Double.next d) (next s).
Proof.
  intros H. unfold Double.next, next.
  destruct H as (H1 & H2 & H3 & H4 & Hrest).
  rewrite H2, H3, H4.
  destruct (isTransitioning s || geq_num (currentIndex s) ((fun n => n - 1) <$> totalSections s)).
  - apply matching_returned. repeat split; try assumption; apply Hrest.
  - rewrite <- H2. apply sim_goTo. repeat split; try assumption; apply Hrest.
Qed.

Lemma sim_prev d s : matches d s -> matching (Double.prev d) (prev s).
Proof.
  intros H. unfold Double.prev, prev.
  destruct H as (H1 & H2 & H3 & H4 & Hrest).
  rewrite H2, H3.
  destruct (isTransitioning s || (currentIndex s <=? 0)).
  - apply matching_returned. repeat split; try assumption; apply Hrest.
  - rewrite <- H2. apply sim_goTo. repeat split; try assumption; apply Hrest.
Qed.

Lemma sim_handleKeydown key granted d s :
  matches d s ->
  matching (Double.handleKeydown key granted d) (handleKeydown key granted s).
Proof.
  intros H. unfold Double.handleKeydown, handleKeydown.
  destruct (key_in key _); [now apply sim_next|].
  destruct (key_in key _); [now apply sim_prev|].
  destruct (key_in key _); [now apply sim_goTo|].
  destruct (key_in key _).
  { assert (Ht : Double.totalSections d = totalSections s) by apply H.
    rewrite Ht. destruct (totalSections s); [now apply sim_goTo | now apply sim_goToNaN]. }
  destruct (key_in key _); [|now apply matching_returned].
  side_by_side d s H. unfold Double.toggleFullscreen, toggleFullscreen. double_state.
  split_cases; double_state; repeat split; try reflexivity; exact H.
Qed.

Lemma sim_runTask t d s :
  matches d s -> matching (Double.runTask t d) (runTask t s).
Proof.
  intros H. side_by_side d s H.
  destruct t as [[h|] index|]; cbn [Double.runTask runTask]; double_state.
  - destruct pf, pf', tot as [n|]; try discriminate H;
      try destruct (n =? 0); destruct pc; repeat split; reflexivity.
  - repeat split; try reflexivity; exact H.
  - repeat split; try reflexivity; exact H.
Qed.

Lemma sim_and_then o o' t :
  matching o o' ->
  matching (Double.and_then o (Double.runTask t)) (and_then o' (runTask t)).
Proof.
  intros [Ht Hs]. destruct o as [d|d], o' as [s|s]; try discriminate Ht;
    cbn [Double.and_then and_then Double.state_of state_of] in *.
  - now apply sim_runTask.
  - split; [reflexivity|]. now apply sim_runTask.
Qed.

Lemma sim_tick d s : matches d s -> matching (Double.tick d) (tick s).
Proof.
  intros H. unfold Double.tick, tick.
  assert (Hck : Double.clock d = clock s) by apply H.
  assert (Htm : Double.timers d = timers s) by apply H.
  cbv zeta.
  replace (Double.clock (Double.set_clock (Double.clock d + 1) d))
    with (clock s + 1) by (rewrite <- Hck; now destruct d).
  replace (Double.timers (Double.set_clock (Double.clock d + 1) d))
    with (timers s) by (rewrite <- Htm; now destruct d).
  replace (clock (set_clock (clock s + 1) s)) with (clock s + 1) by now destruct s.
  replace (timers (set_clock (clock s + 1) s)) with (timers s) by now destruct s.
  set (ready := List.filter (is_due (clock s + 1)) (timers s)).
  set (waiting := List.filter (fun t => negb (is_due (clock s + 1) t)) (timers s)).
  assert (Hstart : matching
            (Double.Returned (Double.set_timers waiting (Double.set_clock (Double.clock d + 1) d)))
            (Returned (set_timers waiting (set_clock (clock s + 1) s)))).
  { clearbody waiting. clear ready. side_by_side d s H.
    repeat split; try reflexivity; exact H. }
  revert Hstart. generalize (Double.Returned
     (Double.set_timers waiting (Double.set_clock (Double.clock d + 1) d))).
  generalize (Returned (set_timers waiting (set_clock (clock s + 1) s))).
  clearbody ready. clear.
  induction ready as [|t ready IH]; intros o' o Ho; [exact Ho|].
  cbn [fold_left]. apply IH. now apply sim_and_then.
Qed.

Ltac run_double :=
  lazy beta iota zeta delta
    [Double.setTimeout Double.classList_add Double.classList_remove
     Double.animateSection Double.setupTouch Double.updateProgress
     Double.updateCounter Double.showNext Double.release
     Double.set_sections Double.set_currentIndex Double.set_isTransitioning
     Double.set_totalSections Double.set_start Double.set_slides
     Double.set_progressFill Double.set_pageCounter Double.set_fullscreenElement
     Double.set_keydownBound Double.set_clickBound Double.set_touchBound
     Double.set_domReady Double.set_clock Double.set_timers
     Double.sections Double.currentIndex Double.isTransitioning
     Double.totalSections Double.startX Double.startY Double.slides
     Double.progressFill Double.pageCounter Double.fullscreenElement
     Double.keydownBound Double.clickBound Double.touchBound Double.domReady
     Double.clock Double.timers Double.state_of].

(** The state the document-ready callback leaves. *)
Lemma double_onDOMContentLoaded_empty (d : Double.State) :
  Double.slides d = [] ->
  Double.onDOMContentLoaded d
  = Double.Returned (Double.set_totalSections (Some 0) (Double.set_sections [] d)).
Proof.
  destruct d as [sec ci lock tot sx sy sl pf pc fs kb cb tb dr ck tm].
  cbn [Double.slides]. intros ->. reflexivity.
Qed.

Lemma double_onDOMContentLoaded_eq (d : Double.State) :
  let n := length (Double.slides d) in
  n <> 0%nat ->
  Double.onDOMContentLoaded d
  = Double.Returned
      (Double.mkState (seq 0 n) (Double.currentIndex d) (Double.isTransitioning d)
         (Some (Z.of_nat n)) 0%float 0%float
         (alter replay 0%nat (alter (with_active true) 0%nat (Double.slides d)))
         ((fun _ => Some (Double.percent (Double.currentIndex d) (Z.of_nat n)))
            <$> Double.progressFill d)
         ((fun _ => counterHTML (Double.currentIndex d) (Some (Z.of_nat n)))
            <$> Double.pageCounter d)
         (Double.fullscreenElement d) true true true (Double.domReady d)
         (Double.clock d) (Double.timers d)).
Proof.
  destruct d as [sec ci lock tot sx sy sl pf pc fs kb cb tb dr ck tm].
  cbv zeta. cbn [Double.slides]. intros Hn.
  destruct sl as [|x sl]; [contradiction|].
  unfold Double.onDOMContentLoaded, Double.sectionAt, eq_num. run_double.
  rewrite length_seq.
  replace (Z.of_nat (length (x :: sl)) =? 0) with false
    by (symmetry; apply Z.eqb_neq; cbn [length]; lia).
  cbn [length seq lookup list_lookup Z.ltb Z.compare Z.to_nat].
  destruct pf, pc; reflexivity.
Qed.

(** The state the outer callback of [goTo] leaves, field by field. *)
Lemma double_showNext_eq (h : nat) (index n : Z) (d : Double.State) :
  Double.totalSections d = Some n -> n <> 0 ->
  Double.showNext (Some h) index d
  = Double.Returned
      (Double.mkState (Double.sections d) index (Double.isTransitioning d) (Some n)
         (Double.startX d) (Double.startY d)
         (alter replay h (alter (with_active true) h (Double.slides d)))
         ((fun _ => Some (Double.percent index n)) <$> Double.progressFill d)
         ((fun _ => counterHTML index (Some n)) <$> Double.pageCounter d)
         (Double.fullscreenElement d) (Double.keydownBound d) (Double.clickBound d)
         (Double.touchBound d) (Double.domReady d) (Double.clock d)
         (Double.timers d ++ [mkTimer (Double.clock d + 300) Release])).
Proof.
  destruct d as [sec ci lock tot sx sy sl pf pc fs kb cb tb dr ck tm].
  cbn [Double.totalSections]. intros -> Hn. apply Z.eqb_neq in Hn.
  run_double. rewrite Hn. destruct pf, pc; reflexivity.
Qed.

Lemma sim_onDOMContentLoaded d s :
  matches d s ->
  matching (Double.onDOMContentLoaded (Double.set_domReady true d))
    (onDOMContentLoaded (set_domReady true s)).
Proof.
  intros H. side_by_side d s H.
  destruct sl as [|x sl].
  - rewrite double_onDOMContentLoaded_empty, onDOMContentLoaded_empty by reflexivity.
    repeat split; try reflexivity; exact H.
  - rewrite double_onDOMContentLoaded_eq, onDOMContentLoaded_eq by discriminate.
    cbn [Double.set_domReady set_domReady
         Double.sections Double.currentIndex Double.isTransitioning
         Double.totalSections Double.startX Double.startY Double.slides
         Double.progressFill Double.pageCounter Double.fullscreenElement
         Double.keydownBound Double.clickBound Double.touchBound Double.domReady
         Double.clock Double.timers
         sections currentIndex isTransitioning totalSections startX startY slides
         progressFill pageCounter fullscreenElement keydownBound clickBound
         touchBound domReady clock timers].
    split; [reflexivity|]. unfold matches.
    cbn [Double.state_of state_of
         Double.sections Double.currentIndex Double.isTransitioning
         Double.totalSections Double.startX Double.startY Double.slides
         Double.progressFill Double.pageCounter Double.fullscreenElement
         Double.keydownBound Double.clickBound Double.touchBound Double.domReady
         Double.clock Double.timers
         sections currentIndex isTransitioning totalSections startX startY slides
         progressFill pageCounter fullscreenElement keydownBound clickBound
         touchBound domReady clock timers].
    repeat split. now destruct pf, pf'.
Qed.

Lemma unheard_ignored s : step unheard s = Returned s.
Proof. unfold unheard. cbn [step]. now destruct (clickBound s). Qed.

Lemma sim_step e d s :
  matches d s -> matching (Double.step e d) (step (shadow e d) s).
Proof.
  intros H.
  assert (Hsame := H).
  destruct Hsame as (_ & _ & _ & _ & _ & _ & _ & _ & Hkb & Hcb & Htb & Hdr & _).
  destruct e as [|key granted|c|x y|x y| | | |index]; cbn [Double.step shadow].
  - cbn [step]. rewrite Hdr. destruct (domReady s);
      [now apply matching_returned | now apply sim_onDOMContentLoaded].
  - cbn [step]. rewrite Hkb. destruct (keydownBound s);
      [now apply sim_handleKeydown | now apply matching_returned].
  - unfold Double.handleClick. cbv zeta.
    destruct (Double.clickBound d) eqn:Hc; cbn [andb];
      [|rewrite unheard_ignored; now apply matching_returned].
    destruct (Double.onControl c); cbn [negb];
      [rewrite unheard_ignored; now apply matching_returned|].
    destruct (_ <? _)%float; [now apply sim_next|].
    destruct (_ <? _)%float; [now apply sim_prev|].
    rewrite unheard_ignored. now apply matching_returned.
  - cbn [step]. rewrite Htb. destruct (touchBound s);
      [|now apply matching_returned].
    side_by_side d s H. cbn [Double.touchstart touchstart]. double_state.
    repeat split; try reflexivity; exact H.
  - unfold Double.touchend. cbv zeta.
    destruct (Double.touchBound d) eqn:Ht; cbn [andb];
      [|rewrite unheard_ignored; now apply matching_returned].
    destruct (_ && _);
      [|rewrite unheard_ignored; now apply matching_returned].
    destruct (_ <? _)%float; [now apply sim_next | now apply sim_prev].
  - now apply sim_tick.
  - now apply sim_next.
  - now apply sim_prev.
  - now apply sim_goTo.
Qed.

Lemma sim_run evs d s :
  matches d s -> exists evs', matches (Double.run evs d) (run evs' s).
Proof.
  revert d s. induction evs as [|e evs IH]; intros d s H.
  - exists []. exact H.
  - destruct (sim_step e d s H) as [_ H1].
    destruct (IH _ _ H1) as [evs' H2].
    exists (shadow e d :: evs'). exact H2.
Qed.

Lemma sim_construct p : matches (Double.construct p) (construct (exact_page p)).
Proof.
  unfold Double.construct, construct, exact_page, matches. cbn.
  repeat split. now destruct (Double.page_fill p).
Qed.

(** Every state the binary64 engine reaches has a state of the exact engine
    beside it, reached on the page as the exact engine sees it. *)
Lemma reachable_shadow p d :
  Double.reachable p d -> exists s, reachable (exact_page p) s /\ matches d s.
Proof.
  intros [evs ->].
  destruct (sim_run evs _ _ (sim_construct p)) as [evs' H].
  exists (run evs' (construct (exact_page p))). split; [now exists evs' | exact H].
Qed.

Lemma sim_elapse k d s : matches d s -> matches (Double.elapse k d) (elapse k s).
Proof.
  unfold Double.elapse, elapse. revert d s.
  induction k as [|k IH]; intros d s H; [exact H|].
  cbn [repeat Double.run run Double.step step]. apply IH. now apply sim_tick.
Qed.

(** *** What the exact engine tells about the binary64 engine *)

Lemma double_run_app evs1 evs2 d :
  Double.run (evs1 ++ evs2) d = Double.run evs2 (Double.run evs1 d).
Proof.
  revert d. induction evs1 as [|e evs1 IH]; intros d; [reflexivity|].
  cbn [app Double.run]. apply IH.
Qed.

Lemma double_reachable_run p evs d :
  Double.reachable p d -> Double.reachable p (Double.run evs d).
Proof. intros [evs0 ->]. exists (evs0 ++ evs). now rewrite double_run_app. Qed.

Lemma double_reachable_elapse p k d :
  Double.reachable p d -> Double.reachable p (Double.elapse k d).
Proof. apply double_reachable_run. Qed.

(** Ready, with at least one section: what the invariant of the exact engine
    gives for the binary64 engine. *)
Lemma double_live p d :
  Double.reachable p d -> Double.domReady d = true -> Double.page_slides p <> [] ->
  let n := Z.of_nat (length (Double.page_slides p)) in
  Double.totalSections d = Some n
  /\ 0 <= Double.currentIndex d < n
  /\ Double.keydownBound d = true /\ Double.clickBound d = true
  /\ Double.touchBound d = true
  /\ Double.pageCounter d
     = (fun _ => counterHTML (Double.currentIndex d) (Some n)) <$> Double.page_counter p.
Proof.
  intros Hreach Hr Hne n.
  destruct (reachable_shadow p d Hreach) as (s & Hs & Hm).
  destruct Hm as (_ & Hci & _ & Htot & _ & _ & Hpc & _ & Hkb & Hcb & Htb & Hdr & _).
  rewrite Hr in Hdr. symmetry in Hdr.
  destruct (live_of_reachable (exact_page p) s Hs Hdr Hne)
    as (Htot' & _ & Hci' & Hkb' & Hcb' & Htb' & _ & _ & Hpc' & _).
  rewrite Htot, Hci, Hkb, Hcb, Htb, Hpc. repeat split; try assumption; apply Hci'.
Qed.

Lemma double_goTo_lands p d target :
  Double.reachable p d -> Double.domReady d = true -> Double.isTransitioning d = false ->
  0 <= target < Z.of_nat (length (Double.page_slides p)) ->
  let d' := Double.elapse 500 (Double.state_of (Double.goTo target d)) in
  Double.currentIndex d' = target /\ Double.isTransitioning d' = false
  /\ Double.timers d' = [].
Proof.
  intros Hreach Hr Hidle Hrange d'.
  destruct (reachable_shadow p d Hreach) as (s & Hs & Hm).
  assert (Hdr : domReady s = true) by (rewrite <- Hr; symmetry; apply Hm).
  assert (Hlock : isTransitioning s = false) by (rewrite <- Hidle; symmetry; apply Hm).
  destruct (goTo_lands (exact_page p) s target Hs Hdr Hlock Hrange) as (H1 & H2 & H3).
  destruct (sim_goTo target d s Hm) as [_ Hm1].
  apply (sim_elapse 500) in Hm1.
  destruct Hm1 as (_ & Hci & Hl & _ & _ & _ & _ & _ & _ & _ & _ & _ & _ & Htm).
  subst d'. rewrite Hci, Hl, Htm. now repeat split.
Qed.

Lemma double_goTo_guard index d :
  (index =? Double.currentIndex d) || (index <? 0)
    || geq_num index (Double.totalSections d) || Double.isTransitioning d = true ->
  Double.goTo index d = Double.Returned d.
Proof. intros H. unfold Double.goTo. now rewrite H. Qed.

Lemma double_next_is_goTo d :
  Double.next d = Double.goTo (Double.currentIndex d + 1) d.
Proof.
  unfold Double.next.
  destruct (Double.isTransitioning d) eqn:Ht; cbn [orb].
  - symmetry. apply double_goTo_guard. rewrite Ht. apply orb_true_r.
  - destruct (Double.totalSections d) as [n|] eqn:Hn;
      cbn [fmap option_fmap option_map geq_num].
    + destruct (n - 1 <=? Double.currentIndex d) eqn:Hc; [|reflexivity].
      symmetry. apply double_goTo_guard. rewrite Hn. cbn [geq_num].
      apply Z.leb_le in Hc.
      replace (n <=? Double.currentIndex d + 1) with true by (symmetry; apply Z.leb_le; lia).
      now rewrite orb_true_r.
    + reflexivity.
Qed.

Lemma double_prev_is_goTo d :
  Double.prev d = Double.goTo (Double.currentIndex d - 1) d.
Proof.
  unfold Double.prev.
  destruct (Double.isTransitioning d) eqn:Ht; cbn [orb].
  - symmetry. apply double_goTo_guard. rewrite Ht. apply orb_true_r.
  - destruct (Double.currentIndex d <=? 0) eqn:Hc; [|reflexivity].
    symmetry. apply double_goTo_guard. apply Z.leb_le in Hc.
    replace (Double.currentIndex d - 1 <? 0) with true by (symmetry; apply Z.ltb_lt; lia).
    now rewrite orb_true_r.
Qed.





(** *** The width of the fill *)

Lemma double_tick_idle d :
  Double.timers d = [] ->
  Double.tick d
  = Double.Returned (Double.set_timers [] (Double.set_clock (Double.clock d + 1) d)).
Proof.
  intros H. unfold Double.tick.
  destruct d as [sec ci lock tot sx sy sl pf pc fs kb cb tb dr ck tm].
  cbn [Double.timers] in H. subst tm. reflexivity.
Qed.

Lemma double_tick_single d t :
  Double.timers d = [t] ->
  Double.tick d
  = if is_due (Double.clock d + 1) t
    then Double.runTask (task t)
           (Double.set_timers [] (Double.set_clock (Double.clock d + 1) d))
    else Double.Returned (Double.set_timers [t] (Double.set_clock (Double.clock d + 1) d)).
Proof.
  intros H. unfold Double.tick.
  destruct d as [sec ci lock tot sx sy sl pf pc fs kb cb tb dr ck tm].
  cbn [Double.timers] in H. subst tm. run_double. cbn [List.filter].
  destruct (is_due (ck + 1) t); reflexivity.
Qed.

(** What a handler leaves alone: the width, the index, and whether the
    document is ready. *)
Lemma fill_frame p d d' :
  Double.progressFill d' = Double.progressFill d ->
  Double.currentIndex d' = Double.currentIndex d ->
  Double.domReady d' = Double.domReady d ->
  fill_shown p d -> fill_shown p d'.
Proof. unfold fill_shown. now intros -> -> ->. Qed.

Lemma fill_goTo p index d :
  fill_shown p d -> fill_shown p (Double.state_of (Double.goTo index d)).
Proof.
  apply fill_frame; unfold Double.goTo;
    destruct ((index =? Double.currentIndex d) || (index <? 0)
              || geq_num index (Double.totalSections d) || Double.isTransitioning d);
    try reflexivity; cbv zeta; destruct (Double.sectionAt _ _); reflexivity.
Qed.

Lemma fill_goToNaN p d :
  fill_shown p d -> fill_shown p (Double.state_of (Double.goToNaN d)).
Proof.
  apply fill_frame; unfold Double.goToNaN;
    destruct (Double.isTransitioning d); try reflexivity;
    cbv zeta; destruct (Double.sectionAt _ _); reflexivity.
Qed.

Lemma fill_next p d : fill_shown p d -> fill_shown p (Double.state_of (Double.next d)).
Proof. rewrite double_next_is_goTo. apply fill_goTo. Qed.

Lemma fill_prev p d : fill_shown p d -> fill_shown p (Double.state_of (Double.prev d)).
Proof. rewrite double_prev_is_goTo. apply fill_goTo. Qed.

Lemma fill_handleKeydown p key granted d :
  fill_shown p d -> fill_shown p (Double.state_of (Double.handleKeydown key granted d)).
Proof.
  intros H. unfold Double.handleKeydown.
  destruct (key_in key _); [now apply fill_next|].
  destruct (key_in key _); [now apply fill_prev|].
  destruct (key_in key _); [now apply fill_goTo|].
  destruct (key_in key _).
  { destruct (Double.totalSections d); [now apply fill_goTo | now apply fill_goToNaN]. }
  destruct (key_in key _); [|exact H].
  revert H. apply fill_frame; unfold Double.toggleFullscreen;
    destruct (negb (Double.fullscreenElement d)); reflexivity.
Qed.

Lemma fill_ready p d s :
  matches d s -> Inv (exact_page p) s -> Double.domReady d = false ->
  fill_shown p d ->
  fill_shown p (Double.state_of (Double.onDOMContentLoaded (Double.set_domReady true d))).
Proof.
  intros Hm HI Hr Hf.
  assert (Hdr : domReady s = false) by (rewrite <- Hr; symmetry; apply Hm).
  unfold Inv in HI. rewrite Hdr in HI. destruct HI as (_ & _ & _ & _ & _ & _ & _ & Hsl & _).
  assert (Hslides : Double.slides d = Double.page_slides p).
  { destruct Hm as (_ & _ & _ & _ & -> & _). exact Hsl. }
  unfold fill_shown in *. rewrite Hr in Hf. cbn [andb] in Hf.
  destruct (Double.page_slides p) as [|x l] eqn:Hp.
  - rewrite double_onDOMContentLoaded_empty by (destruct d; exact Hslides).
    destruct d; cbn in *. exact Hf.
  - rewrite double_onDOMContentLoaded_eq
      by (destruct d; cbn in *; rewrite Hslides; discriminate).
    destruct d as [sec ci lock tot sx sy sl pf pc fs kb cb tb dr ck tm].
    cbn [Double.set_domReady Double.state_of
         Double.sections Double.currentIndex Double.isTransitioning
         Double.totalSections Double.startX Double.startY Double.slides
         Double.progressFill Double.pageCounter Double.fullscreenElement
         Double.keydownBound Double.clickBound Double.touchBound Double.domReady
         Double.clock Double.timers] in *.
    subst sl pf.
    replace (Z.of_nat (length (x :: l)) =? 0) with false
      by (symmetry; apply Z.eqb_neq; cbn [length]; lia).
    cbn [andb negb]. now destruct (Double.page_fill p).
Qed.

Lemma fill_tick p d s :
  matches d s -> Inv (exact_page p) s -> fill_shown p d ->
  fill_shown p (Double.state_of (Double.tick d)).
Proof.
  intros Hm HI Hf.
  assert (Htm : Double.timers d = timers s) by apply Hm.
  assert (Hdr : Double.domReady d = domReady s) by apply Hm.
  assert (Htot : Double.totalSections d = totalSections s) by apply Hm.
  assert (Hidle : Double.timers d = [] -> fill_shown p (Double.state_of (Double.tick d))).
  { intros H. rewrite (double_tick_idle _ H). revert Hf.
    apply fill_frame; now destruct d. }
  unfold Inv in HI. destruct (domReady s) eqn:Hr.
  2:{ apply Hidle. rewrite Htm. apply HI. }
  destruct HI as (Hn & _ & HI).
  change (page_slides (exact_page p)) with (Double.page_slides p) in *.
  destruct (length (Double.page_slides p)) as [|m] eqn:Hlen.
  { apply Hidle. rewrite Htm. apply HI. }
  destruct HI as (_ & _ & _ & _ & _ & _ & _ & Hph). unfold phase_ok in Hph.
  rewrite <- Htm in Hph.
  destruct (Double.timers d) as [|t [|t' ts]] eqn:Ht; [now apply Hidle | | contradiction].
  rewrite (double_tick_single _ _ Ht).
  destruct (is_due (Double.clock d + 1) t).
  2:{ revert Hf. apply fill_frame; now destruct d. }
  destruct Hph as [_ Hph].
  destruct (task t) as [h i|]; cbn [Double.runTask].
  - destruct Hph as [(k & -> & -> & _) _].
    rewrite (double_showNext_eq k _ (Z.of_nat (S m)));
      [| destruct d; cbn in *; congruence | lia].
    unfold fill_shown in *. rewrite Hlen in *.
    destruct d as [sec ci lock tot sx sy sl pf pc fs kb cb tb dr ck tm].
    cbn [Double.set_timers Double.set_clock Double.state_of
         Double.sections Double.currentIndex Double.isTransitioning
         Double.totalSections Double.startX Double.startY Double.slides
         Double.progressFill Double.pageCounter Double.fullscreenElement
         Double.keydownBound Double.clickBound Double.touchBound Double.domReady
         Double.clock Double.timers] in *.
    subst dr pf.
    replace (Z.of_nat (S m) =? 0) with false by (symmetry; apply Z.eqb_neq; lia).
    cbn [andb negb]. now destruct (Double.page_fill p).
  - unfold Double.release. revert Hf. apply fill_frame; now destruct d.
Qed.

Lemma fill_step p e d s :
  matches d s -> Inv (exact_page p) s -> fill_shown p d ->
  fill_shown p (Double.state_of (Double.step e d)).
Proof.
  intros Hm HI Hf.
  destruct e as [|key granted|c|x y|x y| | | |index]; cbn [Double.step].
  - destruct (Double.domReady d) eqn:Hr; [exact Hf | now apply (fill_ready p d s)].
  - destruct (Double.keydownBound d); [now apply fill_handleKeydown | exact Hf].
  - destruct (Double.clickBound d); [|exact Hf].
    unfold Double.handleClick. destruct (Double.onControl c); [exact Hf|]. cbv zeta.
    destruct (_ <? _)%float; [now apply fill_next|].
    destruct (_ <? _)%float; [now apply fill_prev | exact Hf].
  - destruct (Double.touchBound d); [|exact Hf].
    revert Hf. apply fill_frame; reflexivity.
  - destruct (Double.touchBound d); [|exact Hf].
    unfold Double.touchend. cbv zeta. destruct (_ && _); [|exact Hf].
    destruct (_ <? _)%float; [now apply fill_next | now apply fill_prev].
  - now apply (fill_tick p d s).
  - now apply fill_next.
  - now apply fill_prev.
  - now apply fill_goTo.
Qed.

Lemma fill_run p evs d s :
  matches d s -> Inv (exact_page p) s -> fill_shown p d ->
  fill_shown p (Double.run evs d).
Proof.
  revert d s. induction evs as [|e evs IH]; intros d s Hm HI Hf; [exact Hf|].
  cbn [Double.run].
  apply (IH _ (state_of (step (shadow e d) s))).
  - apply sim_step, Hm.
  - apply Inv_step, HI.
  - now apply (fill_step p e d s).
Qed.

(** In every reachable state of the binary64 engine the fill is as wide as
    the markup made it, until the document is ready on a page with sections,
    and as wide as [updateProgress] computes for the current index from then
    on. *)
Lemma fill_reachable p d : Double.reachable p d -> fill_shown p d.
Proof.
  intros [evs ->].
  apply (fill_run p evs _ (construct (exact_page p))).
  - apply sim_construct.
  - apply Inv_construct.
  - reflexivity.
Qed.

Lemma reachable_shown k i : Double.reachable (deck k) (shown k i).
Proof.
  exists ([Double.DOMContentLoaded; Double.CallGoTo i] ++ repeat Double.Tick 500).
  unfold shown, Double.elapse. now rewrite double_run_app.
Qed.

Lemma double_domReady_run evs d :
  Double.domReady d = true -> Double.domReady (Double.run evs d) = true.
Proof.
  intros Hr.
  assert (Hm : matches d
            (mkState (Double.sections d) (Double.currentIndex d) (Double.isTransitioning d)
               (Double.totalSections d) 0 0 (Double.slides d)
               ((fun _ => None) <$> Double.progressFill d) (Double.pageCounter d)
               (Double.fullscreenElement d) (Double.keydownBound d) (Double.clickBound d)
               (Double.touchBound d) (Double.domReady d) (Double.clock d) (Double.timers d))).
  { unfold matches. cbn. repeat split. now destruct (Double.progressFill d). }
  destruct (sim_run evs _ _ Hm) as [evs' H].
  destruct H as (_ & _ & _ & _ & _ & _ & _ & _ & _ & _ & _ & -> & _).
  apply run_domReady. exact Hr.
Qed.

(** C6.  In every state the engine reaches once the document-ready callback
    has run on a page with n >= 1 sections, and so after every completed
    transition to an index i, the counter (when the page has one) reads
    ["{i+1} / {n}"] and the progress fill (when the page has one) is as wide
    as the double [((i + 1) / n) * 100], in percent, where i is
    [currentIndex]: the quotient is rounded, then the product.  The callback
    that completes a transition to an [index] in range writes both anew from
    [index] and n, and 500 ms after an accepted [goTo] both show the
    target. *)
Theorem widgets_project_the_index (p : Double.Page) (s : Double.State) :
  Double.reachable p s -> Double.domReady s = true -> Double.page_slides p <> [] ->
  exists n : Z,
    Double.totalSections s = Some n /\ n = Z.of_nat (length (Double.page_slides p))
    /\ (is_Some (Double.page_fill p) ->
        Double.progressFill s
        = Some (Some ((Double.number (Double.currentIndex s) + 1)
                      / Double.number n * 100)%float))
    /\ (Double.page_fill p = None -> Double.progressFill s = None)
    /\ (is_Some (Double.page_counter p) ->
        exists html, Double.pageCounter s = Some html
                     /\ html = counterHTML (Double.currentIndex s) (Some n)
                     /\ textContent html = counter_text (Double.currentIndex s) n)
    /\ (Double.page_counter p = None -> Double.pageCounter s = None)
    /\ (forall (h : nat) (index : Z),
          0 <= index < n ->
          let s' := Double.state_of (Double.showNext (Some h) index s) in
          Double.currentIndex s' = index
          /\ (is_Some (Double.page_fill p) ->
              Double.progressFill s'
              = Some (Some ((Double.number index + 1) / Double.number n * 100)%float))
          /\ (is_Some (Double.page_counter p) ->
              exists html, Double.pageCounter s' = Some html
                           /\ textContent html = counter_text index n))
    /\ (forall target : Z,
          Double.isTransitioning s = false -> 0 <= target < n ->
          let s' := Double.elapse 500 (Double.state_of (Double.goTo target s)) in
          Double.currentIndex s' = target
          /\ (is_Some (Double.page_fill p) ->
              Double.progressFill s'
              = Some (Some ((Double.number target + 1) / Double.number n * 100)%float))
          /\ (is_Some (Double.page_counter p) ->
              exists html, Double.pageCounter s' = Some html
                           /\ textContent html = counter_text target n)).
Proof.
  intros Hreach Hr Hne.
  assert (Hwidgets : forall d, Double.reachable p d -> Double.domReady d = true ->
            Double.totalSections d = Some (Z.of_nat (length (Double.page_slides p)))
            /\ Double.progressFill d
               = (fun _ => Some (Double.percent (Double.currentIndex d)
                                   (Z.of_nat (length (Double.page_slides p)))))
                   <$> Double.page_fill p
            /\ Double.pageCounter d
               = (fun _ => counterHTML (Double.currentIndex d)
                             (Some (Z.of_nat (length (Double.page_slides p)))))
                   <$> Double.page_counter p).
  { intros d Hd Hdr.
    destruct (double_live p d Hd Hdr Hne) as (Htot & _ & _ & _ & _ & Hpc).
    split; [exact Htot|]. split; [|exact Hpc].
    pose proof (fill_reachable p d Hd) as Hf. unfold fill_shown in Hf.
    rewrite Hdr in Hf.
    replace (Z.of_nat (length (Double.page_slides p)) =? 0) with false in Hf;
      [exact Hf|].
    symmetry. apply Z.eqb_neq. destruct (Double.page_slides p); [contradiction|].
    cbn [length]. lia. }
  destruct (Hwidgets s Hreach Hr) as (Htot & Hpf & Hpc).
  exists (Z.of_nat (length (Double.page_slides p))).
  split; [exact Htot|]. split; [reflexivity|].
  split; [intros [w Hw]; now rewrite Hpf, Hw|].
  split; [intros Hw; now rewrite Hpf, Hw|].
  split.
  { intros [c Hc]. eexists. split; [now rewrite Hpc, Hc|].
    split; [reflexivity | apply textContent_counterHTML]. }
  split; [intros Hc; now rewrite Hpc, Hc|].
  split.
  - intros h index _ s'. subst s'.
    rewrite (double_showNext_eq h index _ s Htot)
      by (destruct (Double.page_slides p); [contradiction | cbn [length]; lia]).
    cbn [Double.state_of Double.currentIndex Double.progressFill Double.pageCounter].
    split; [reflexivity|]. split.
    + intros [w Hw]. now rewrite Hpf, Hw.
    + intros [c Hc]. eexists. split; [now rewrite Hpc, Hc|].
      apply textContent_counterHTML.
  - intros target Hidle Hrange.
    destruct (double_goTo_lands p s target Hreach Hr Hidle Hrange) as (Hci & _).
    pose proof (double_reachable_run p [Double.CallGoTo target] s Hreach) as Hreach1.
    pose proof (double_domReady_run [Double.CallGoTo target] s Hr) as Hr1.
    cbn [Double.run Double.step] in Hreach1, Hr1.
    revert Hci Hreach1 Hr1. generalize (Double.state_of (Double.goTo target s)).
    intros s1 Hci Hreach1 Hr1 s'.
    assert (Hreach' : Double.reachable p s') by now apply double_reachable_elapse.
    assert (Hr' : Double.domReady s' = true) by now apply double_domReady_run.
    destruct (Hwidgets s' Hreach' Hr') as (_ & Hpf' & Hpc').
    fold s' in Hci.
    rewrite Hci in Hpf', Hpc'.
    split; [exact Hci|]. split.
    + intros [w Hw]. now rewrite Hpf', Hw.
    + intros [c Hc]. eexists. split; [now rewrite Hpc', Hc|].
      apply textContent_counterHTML.
Qed.

Lemma widgets_project_the_index_witness :
  Double.progressFill (shown 20 10) = Some (Some 0x1.b800000000001p+5%float)
  /\ option_map textContent (Double.pageCounter (shown 20 10)) = Some "11 / 20"%string.
Proof.
  destruct (widgets_project_the_index (deck 20) (shown 20 10) (reachable_shown 20 10))
    as (n & Hn & _ & Hf & _ & Hc & _).
  - vm_compute; reflexivity.
  - discriminate.
  - assert (n = 20) as -> by (vm_compute in Hn; congruence).
    split.
    + rewrite Hf by (now eexists). vm_compute; reflexivity.
    + destruct Hc as (html & H1 & _ & H2); [now eexists|].
      rewrite H1. cbn [option_map]. rewrite H2. vm_compute; reflexivity.
Defined.

(** On a deck of 20 sections the engine, on section 11, makes the fill
    55.00000000000001% wide: the double [(11 / 20) * 100] lies above
    (10 + 1)/20 * 100 = 55. *)
Lemma progress_width_is_rounded :
  Double.reachable (deck 20) (shown 20 10)
  /\ Double.currentIndex (shown 20 10) = 10
  /\ Double.totalSections (shown 20 10) = Some 20
  /\ Double.isTransitioning (shown 20 10) = false
  /\ exists w : float,
       Double.progressFill (shown 20 10) = Some (Some w)
       /\ (percent 10 20 == 55)%Q /\ (percent 10 20 < value w)%Q.
Proof.
  split; [apply reachable_shown|].
  split; [vm_compute; reflexivity|].
  split; [vm_compute; reflexivity|].
  split; [vm_compute; reflexivity|].
  exists 0x1.b800000000001p+5%float.
  split; [vm_compute; reflexivity|].
  split; vm_compute; reflexivity.
Qed.

(** *** Pointer and touch input in binary64 *)















